(** * BEA data downloader: the rate-limited API client, the dataset
    catalog builder and the catalog cache.

    A shallow embedding of [ApiClient.py], [beaData.py] and
    [downloadBeaDatasets.py].  Python values are the inductive [PyVal];
    exceptions are the enumeration [Exn]; the clock, the HTTP server and the
    calendar are an oracle [Env] indexed by the number of interactions made
    so far, which also says what [eval] does of a cache line that is not
    the text of a value; the file system is a finite map from paths to
    contents.
    Timestamps ([time.time()], seconds as a float in the source) are
    rationals: rounding is not modelled. *)

From Stdlib Require Import ZArith QArith Qround Lqa Lia String Ascii.
From Stdlib Require Import Decimal DecimalString DecimalZ.
From stdpp Require Import base strings list gmap.

Open Scope Z_scope.

(** ** Python values *)

(** The values that flow through the program: what [response.json()]
    decodes (floats left out) and what [eval] of a cache line rebuilds.  A
    dictionary keeps its insertion order and has string keys. *)
Unset Elimination Schemes.
Inductive PyVal : Type :=
| PNone
| PBool (b : bool)
| PInt (z : Z)
| PStr (s : string)
| PList (l : list PyVal)
| PDict (kvs : list (string * PyVal)).
Set Elimination Schemes.

(** Induction on values, through the lists they hold. *)
Section PyValInduction.
Variable P : PyVal -> Prop.
Hypothesis HNone : P PNone.
Hypothesis HBool : forall b, P (PBool b).
Hypothesis HInt : forall z, P (PInt z).
Hypothesis HStr : forall s, P (PStr s).
Hypothesis HList : forall l, Forall P l -> P (PList l).
Hypothesis HDict : forall kvs, Forall (fun kv => P (snd kv)) kvs -> P (PDict kvs).

Fixpoint PyVal_ind (v : PyVal) : P v :=
  match v with
  | PNone => HNone
  | PBool b => HBool b
  | PInt z => HInt z
  | PStr s => HStr s
  | PList l =>
      HList l
        ((fix all (l : list PyVal) : Forall P l :=
            match l with
            | [] => @List.Forall_nil _ P
            | x :: rest => @List.Forall_cons _ P x rest (PyVal_ind x) (all rest)
            end) l)
  | PDict kvs =>
      HDict kvs
        ((fix all (kvs : list (string * PyVal)) : Forall (fun kv => P (snd kv)) kvs :=
            match kvs with
            | [] => @List.Forall_nil _ (fun kv => P (snd kv))
            | kv :: rest => @List.Forall_cons _ (fun kv => P (snd kv)) kv rest (PyVal_ind (snd kv)) (all rest)
            end) kvs)
  end.
End PyValInduction.

(** A dictionary has no key twice; [wf v] says so of every dictionary in
    [v]. *)
Fixpoint wf (v : PyVal) : bool :=
  match v with
  | PList l => forallb wf l
  | PDict kvs =>
      bool_decide (NoDup (map fst kvs)) && forallb (fun kv => wf (snd kv)) kvs
  | _ => true
  end.

(** The exception classes the program can meet.  [RequestError status] is
    the [Exception("Error during request: <status>")] of [checkLimits];
    [OtherError name] is any other subclass of [Exception], by its name,
    and [BaseError name] a class that derives from [BaseException] but not
    from [Exception] ([SystemExit], [KeyboardInterrupt], [GeneratorExit]);
    only an evaluated cache line can raise these two. *)
Inductive Exn : Type :=
| RequestError (status : Z)
| JSONDecodeError
| IndexError
| KeyError (k : string)
| TypeError
| AttributeError
| ValueError
| SyntaxError
| FileNotFoundError
| OtherError (name : string)
| BaseError (name : string).

Inductive Outcome (A : Type) : Type :=
| Returned (a : A)
| Raised (e : Exn).
Arguments Returned {A} a.
Arguments Raised {A} e.

(** ** Python strings

    A [str] is a Rocq [string]: its characters are the code points 0 to
    255. *)

Definition code (c : ascii) : N := N_of_ascii c.

(** [str.isspace] on one character. *)
Definition isspace (c : ascii) : bool :=
  let n := code c in
  ((9 <=? n) && (n <=? 13) || (28 <=? n) && (n <=? 32)
   || (n =? 133) || (n =? 160))%N.

(** [str.isprintable] on one character. *)
Definition isprintable (c : ascii) : bool :=
  let n := code c in
  ((32 <=? n) && (n <? 127) || (161 <=? n) && negb (n =? 173))%N.

Fixpoint lstrip (s : string) : string :=
  match s with
  | EmptyString => EmptyString
  | String c s' => if isspace c then lstrip s' else s
  end.

Fixpoint rstrip (s : string) : string :=
  match s with
  | EmptyString => EmptyString
  | String c s' =>
      match rstrip s' with
      | EmptyString => if isspace c then EmptyString else String c EmptyString
      | r => String c r
      end
  end.

(** [str.strip()] *)
Definition strip (s : string) : string := lstrip (rstrip s).

Fixpoint contains (c : ascii) (s : string) : bool :=
  match s with
  | EmptyString => false
  | String d s' => Ascii.eqb c d || contains c s'
  end.

Definition squote : ascii := "'".
Definition dquote : ascii := "034".
Definition backslash : ascii := "\".
Definition tab : ascii := "009".
Definition newline : ascii := "010".
Definition creturn : ascii := "013".

(** The lower-case hexadecimal digit of [n < 16]. *)
Definition hexdigit (n : N) : ascii :=
  if (n <? 10)%N then ascii_of_N (48 + n) else ascii_of_N (87 + n).

(** How [repr] writes one character of a string quoted with [q]. *)
Definition repr_char (q c : ascii) : string :=
  if Ascii.eqb c q || Ascii.eqb c backslash then String backslash (String c EmptyString)
  else if Ascii.eqb c tab then String backslash "t"
  else if Ascii.eqb c newline then String backslash "n"
  else if Ascii.eqb c creturn then String backslash "r"
  else if isprintable c then String c EmptyString
  else String backslash
         (String "x" (String (hexdigit (code c / 16)) (String (hexdigit (code c mod 16)) EmptyString))).

Fixpoint repr_chars (q : ascii) (s : string) : string :=
  match s with
  | EmptyString => EmptyString
  | String c s' => repr_char q c +:+ repr_chars q s'
  end.

(** The quote [repr] picks: double quotes only for a string with a single
    quote and no double quote in it. *)
Definition repr_quote (s : string) : ascii :=
  if contains squote s && negb (contains dquote s) then dquote else squote.

(** [repr] of a [str]. *)
Definition repr_str (s : string) : string :=
  let q := repr_quote s in
  String q (repr_chars q s +:+ String q EmptyString).

(** [repr] of an [int]. *)
Definition repr_int (z : Z) : string := NilZero.string_of_int (Z.to_int z).

(** [", ".join] *)
Fixpoint join_comma (items : list string) : string :=
  match items with
  | [] => EmptyString
  | [x] => x
  | x :: rest => x +:+ ", " +:+ join_comma rest
  end.

(** [repr] of a value; it is also [str] of every value but a [str]. *)
Fixpoint repr (v : PyVal) : string :=
  match v with
  | PNone => "None"
  | PBool true => "True"
  | PBool false => "False"
  | PInt z => repr_int z
  | PStr s => repr_str s
  | PList l => "[" +:+ join_comma (map repr l) +:+ "]"
  | PDict kvs =>
      "{" +:+ join_comma (map (fun kv => repr_str (fst kv) +:+ ": " +:+ repr (snd kv)) kvs) +:+ "}"
  end.

(** [str(v)], which is also what an f-string puts for [{v}]. *)
Definition py_str (v : PyVal) : string :=
  match v with
  | PStr s => s
  | _ => repr v
  end.

(** ** The text of a value, read back

    [eval] runs whatever expression a cache line holds.  What it does of
    the text that [repr] writes for a value is known: it returns that
    value, and nothing else happens.  [literal] recognises such a text and
    gives the value; what [eval] does of any other text is left to the
    oracle (see [Env] and [py_eval] below).  The functions of this section
    read the notation [repr] uses: [None], [True], [False], decimal
    integers, quoted strings with the escapes [repr] emits, list displays
    and dictionary displays with string keys. *)

Definition isdigit (c : ascii) : bool := ((48 <=? code c) && (code c <=? 57))%N.

Definition isblank (c : ascii) : bool := Ascii.eqb c " " || Ascii.eqb c tab.

Fixpoint skip_blank (s : string) : string :=
  match s with
  | EmptyString => EmptyString
  | String c s' => if isblank c then skip_blank s' else s
  end.

Fixpoint span_digits (s : string) : string * string :=
  match s with
  | EmptyString => (EmptyString, EmptyString)
  | String c s' =>
      if isdigit c then
        let '(d, r) := span_digits s' in (String c d, r)
      else (EmptyString, s)
  end.

Definition hexval (c : ascii) : option N :=
  let n := code c in
  if isdigit c then Some (n - 48)%N
  else if ((97 <=? n) && (n <=? 102))%N then Some (n - 87)%N
  else if ((65 <=? n) && (n <=? 70))%N then Some (n - 55)%N
  else None.

Definition cons_char (c : ascii) (r : option (string * string)) : option (string * string) :=
  match r with
  | Some (t, rest) => Some (String c t, rest)
  | None => None
  end.

(** The characters of a string literal after its opening quote [q], up to
    the closing quote, and what follows it. *)
Fixpoint read_str (q : ascii) (s : string) : option (string * string) :=
  match s with
  | EmptyString => None
  | String c s1 =>
      if Ascii.eqb c q then Some (EmptyString, s1)
      else if Ascii.eqb c backslash then
        match s1 with
        | EmptyString => None
        | String e s2 =>
            if Ascii.eqb e backslash || Ascii.eqb e squote || Ascii.eqb e dquote
            then cons_char e (read_str q s2)
            else if Ascii.eqb e "t" then cons_char tab (read_str q s2)
            else if Ascii.eqb e "n" then cons_char newline (read_str q s2)
            else if Ascii.eqb e "r" then cons_char creturn (read_str q s2)
            else if Ascii.eqb e "x" then
              match s2 with
              | String h1 (String h2 s3) =>
                  match hexval h1, hexval h2 with
                  | Some a, Some b => cons_char (ascii_of_N (16 * a + b)) (read_str q s3)
                  | _, _ => None
                  end
              | _ => None
              end
            else None
        end
      else cons_char c (read_str q s1)
  end.

(** [s] without its prefix [p], when it has it. *)
Fixpoint drop_prefix (p s : string) : option string :=
  match p, s with
  | EmptyString, _ => Some s
  | String a p', String b s' => if Ascii.eqb a b then drop_prefix p' s' else None
  | String _ _, EmptyString => None
  end.

(** An integer at the head of [s], written the way [repr] writes it: a
    sign if it is negative, then its decimal digits with no zero in front
    (["007"] and ["-0"] are not read). *)
Definition read_int (s : string) : option (Z * string) :=
  match s with
  | EmptyString => None
  | String c s' =>
      let '(d, r) := span_digits (if Ascii.eqb c "-" then s' else s) in
      match d with
      | EmptyString => None
      | _ =>
          let text := if Ascii.eqb c "-" then String c d else d in
          match NilZero.int_of_string text with
          | Some i =>
              if String.eqb (repr_int (Z.of_int i)) text then Some (Z.of_int i, r) else None
          | None => None
          end
      end
  end.

(** [d[k] = v] on a dictionary: a known key keeps its place. *)
Fixpoint dict_set (k : string) (v : PyVal) (kvs : list (string * PyVal))
    : list (string * PyVal) :=
  match kvs with
  | [] => [(k, v)]
  | (k', v') :: rest =>
      if String.eqb k k' then (k, v) :: rest else (k', v') :: dict_set k v rest
  end.

(** The dictionary a display with these items builds. *)
Definition dict_of (items : list (string * PyVal)) : list (string * PyVal) :=
  fold_left (fun d kv => dict_set (fst kv) (snd kv) d) items [].

Fixpoint parse_val (fuel : nat) (s : string) : option (PyVal * string) :=
  match fuel with
  | O => None
  | S f =>
      match s with
      | EmptyString => None
      | String c r =>
          if Ascii.eqb c "[" then
            match skip_blank r with
            | String "]" r' => Some (PList [], r')
            | r1 =>
                match parse_items f r1 with
                | Some (vs, r') => Some (PList vs, r')
                | None => None
                end
            end
          else if Ascii.eqb c "{" then
            match skip_blank r with
            | String "}" r' => Some (PDict [], r')
            | r1 =>
                match parse_pairs f r1 with
                | Some (kvs, r') => Some (PDict (dict_of kvs), r')
                | None => None
                end
            end
          else if Ascii.eqb c squote || Ascii.eqb c dquote then
            match read_str c r with
            | Some (t, r') => Some (PStr t, r')
            | None => None
            end
          else if Ascii.eqb c "-" || isdigit c then
            match read_int s with
            | Some (z, r') => Some (PInt z, r')
            | None => None
            end
          else
            match drop_prefix "True" s, drop_prefix "False" s, drop_prefix "None" s with
            | Some r', _, _ => Some (PBool true, r')
            | _, Some r', _ => Some (PBool false, r')
            | _, _, Some r' => Some (PNone, r')
            | _, _, _ => None
            end
      end
  end
with parse_items (fuel : nat) (s : string) : option (list PyVal * string) :=
  match fuel with
  | O => None
  | S f =>
      match parse_val f s with
      | Some (v, r) =>
          match skip_blank r with
          | String c r' =>
              if Ascii.eqb c "," then
                match parse_items f (skip_blank r') with
                | Some (vs, r'') => Some (v :: vs, r'')
                | None => None
                end
              else if Ascii.eqb c "]" then Some ([v], r')
              else None
          | EmptyString => None
          end
      | None => None
      end
  end
with parse_pairs (fuel : nat) (s : string) : option (list (string * PyVal) * string) :=
  match fuel with
  | O => None
  | S f =>
      match s with
      | EmptyString => None
      | String q r =>
          if Ascii.eqb q squote || Ascii.eqb q dquote then
            match read_str q r with
            | Some (k, r1) =>
                match skip_blank r1 with
                | String ":" r2 =>
                    match parse_val f (skip_blank r2) with
                    | Some (v, r3) =>
                        match skip_blank r3 with
                        | String c r4 =>
                            if Ascii.eqb c "," then
                              match parse_pairs f (skip_blank r4) with
                              | Some (kvs, r5) => Some ((k, v) :: kvs, r5)
                              | None => None
                              end
                            else if Ascii.eqb c "}" then Some ([(k, v)], r4)
                            else None
                        | EmptyString => None
                        end
                    | None => None
                    end
                | _ => None
                end
            | None => None
            end
          else None
      end
  end.

(** The value that [s] is the [repr] of, when there is one: [s] is read,
    and the value read is kept only if it is well formed and [repr] writes
    it as [s], character for character. *)
Definition literal (s : string) : option PyVal :=
  match parse_val (String.length s) s with
  | Some (v, EmptyString) => if wf v && String.eqb (repr v) s then Some v else None
  | _ => None
  end.

(** ** Operations on values *)

(** Lookup in a dictionary. *)
Fixpoint dict_get (kvs : list (string * PyVal)) (k : string) : option PyVal :=
  match kvs with
  | [] => None
  | (k', v) :: rest => if String.eqb k k' then Some v else dict_get rest k
  end.

(** [v.get(k, dflt)] *)
Definition py_get (v : PyVal) (k : string) (dflt : PyVal) : Outcome PyVal :=
  match v with
  | PDict kvs => Returned (default dflt (dict_get kvs k))
  | _ => Raised AttributeError
  end.

(** [v[k]] for a string [k] *)
Definition py_subscript (v : PyVal) (k : string) : Outcome PyVal :=
  match v with
  | PDict kvs =>
      match dict_get kvs k with
      | Some x => Returned x
      | None => Raised (KeyError k)
      end
  | _ => Raised TypeError
  end.

(** [v.keys()] *)
Definition py_keys (v : PyVal) : Outcome (list string) :=
  match v with
  | PDict kvs => Returned (map fst kvs)
  | _ => Raised AttributeError
  end.

Fixpoint chars (s : string) : list PyVal :=
  match s with
  | EmptyString => []
  | String c s' => PStr (String c EmptyString) :: chars s'
  end.

(** What [for x in v] goes through. *)
Definition py_iter (v : PyVal) : Outcome (list PyVal) :=
  match v with
  | PList l => Returned l
  | PDict kvs => Returned (map (fun kv => PStr (fst kv)) kvs)
  | PStr s => Returned (chars s)
  | _ => Raised TypeError
  end.

(** [v == s] for a string constant [s] *)
Definition py_eq_str (v : PyVal) (s : string) : bool :=
  match v with
  | PStr t => String.eqb t s
  | _ => false
  end.

(** ** The outside world *)

(** What [requests.get] hands back: the status, the raw body and what
    [response.json()] makes of it ([None] when the body is not JSON). *)
Record Response : Type := {
  status_code : Z;
  content : string;
  json : option PyVal
}.

Record Date : Type := { year : Z; month : Z; day : Z }.

(** The mutable world: the clock, the count of interactions, the URLs
    requested so far (oldest first) and the files. *)
Record World : Type := {
  now : Q;
  tick : nat;
  sent : list string;
  files : gmap string string
}.

(** ** ApiClient.py *)

Record BeaApiClient : Type := {
  apiKey : string;
  requestLimit : Z;
  dataLimit : Z;
  errorLimit : Z;
  requestsMade : Z;
  dataReceived : Z;
  errorsMade : Z;
  lastReset : Q
}.

(** The oracle.  [elapsed k] is the time that passes during the [k]-th
    interaction with the outside world, [http k url] the server's answer to
    a GET of [url] issued as the [k]-th interaction, [calendar k] the date
    [datetime.now()] reads there.  [evaluate s] is what [eval(s)] does
    when [s] is not the text of a value: the expression may return any
    value, raise any exception, change the client, the clock, the requests
    and the files, or never come back ([None]: it loops, or it ends the
    process).  Nothing else is assumed of it; it also stands for the other
    spellings of a value (["[1,2]"], ["[1, 2,]"]), on which [eval] is in
    fact determined.  What the expression cannot do here is reach into the
    load that evaluates it: the open file, the list being built and the
    functions of the program stay as they are. *)
Record Env : Type := {
  elapsed : nat -> Q;
  http : nat -> string -> Response;
  calendar : nat -> Date;
  evaluate : string -> BeaApiClient * World
             -> option (Outcome PyVal * (BeaApiClient * World))
}.

Definition Qltb (x y : Q) : bool := negb (Qle_bool y x).

Section Client.
Variable E : Env.

(** An interaction that lasts at least [d] seconds. *)
Definition pass (d : Q) (w : World) : World :=
  {| now := (now w + d + elapsed E (tick w))%Q;
     tick := S (tick w);
     sent := sent w;
     files := files w |}.

(** [time.time()] *)
Definition time_time (w : World) : Q * World :=
  let w' := pass 0 w in (now w', w').

(** [time.sleep(d)] *)
Definition time_sleep (d : Q) (w : World) : World := pass d w.

(** [requests.get(url, stream=True)] *)
Definition requests_get (url : string) (w : World) : Response * World :=
  let w' := pass 0 w in
  (http E (tick w) url,
   {| now := now w'; tick := tick w'; sent := sent w ++ [url]; files := files w |}).

(** [datetime.now()] *)
Definition datetime_now (w : World) : Date * World :=
  (calendar E (tick w), pass 0 w).

(** [BeaApiClient.__init__] *)
Definition init (key : string) (requestLimit' dataLimitMb errorLimit' : Z)
    (w : World) : BeaApiClient * World :=
  let '(t, w') := time_time w in
  ({| apiKey := key;
      requestLimit := requestLimit';
      dataLimit := dataLimitMb * 1024 * 1024;
      errorLimit := errorLimit';
      requestsMade := 0;
      dataReceived := 0;
      errorsMade := 0;
      lastReset := t |}, w').

(** The constructor with its default limits. *)
Definition init_default (key : string) : World -> BeaApiClient * World :=
  init key 100 100 30.

(** [BeaApiClient.resetCounters] *)
Definition resetCounters (c : BeaApiClient) (w : World) : BeaApiClient * World :=
  let '(currentTime, w') := time_time w in
  if Qltb 60 (currentTime - lastReset c) then
    ({| apiKey := apiKey c;
        requestLimit := requestLimit c;
        dataLimit := dataLimit c;
        errorLimit := errorLimit c;
        requestsMade := 0;
        dataReceived := 0;
        errorsMade := 0;
        lastReset := currentTime |}, w')
  else (c, w').

(** The condition of the [while] of [checkLimits]. *)
Definition limitsReached (c : BeaApiClient) : bool :=
  (requestLimit c <=? requestsMade c)
  || (dataLimit c <=? dataReceived c)
  || (errorLimit c <=? errorsMade c).

(** The [while] loop of [checkLimits]; [None] when [fuel] iterations were
    not enough for it to end. *)
Fixpoint waitLoop (fuel : nat) (c : BeaApiClient) (w : World)
    : option (BeaApiClient * World) :=
  if limitsReached c then
    match fuel with
    | O => None
    | S fuel' =>
        let '(t, w1) := time_time w in
        let timeToWait := (60 - (t - lastReset c))%Q in
        let w2 := if Qltb 0 timeToWait then time_sleep timeToWait w1 else w1 in
        let '(c', w3) := resetCounters c w2 in
        waitLoop fuel' c' w3
    end
  else Some (c, w).

(** [checkLimits] up to the point where the request goes out: the reset
    check and the wait loop. *)
Definition awaitBudget (fuel : nat) (c : BeaApiClient) (w : World)
    : option (BeaApiClient * World) :=
  let '(c0, w0) := resetCounters c w in
  waitLoop fuel c0 w0.

(** The counters after a response [r] has come back. *)
Definition account (r : Response) (c : BeaApiClient) : BeaApiClient :=
  let dataSize := Z.of_nat (String.length (content r)) in
  {| apiKey := apiKey c;
     requestLimit := requestLimit c;
     dataLimit := dataLimit c;
     errorLimit := errorLimit c;
     requestsMade := requestsMade c + 1;
     dataReceived := dataReceived c + dataSize;
     errorsMade := if status_code r =? 200 then errorsMade c else errorsMade c + 1;
     lastReset := lastReset c |}.

(** What the caller gets from a response. *)
Definition deliver (r : Response) : Outcome PyVal :=
  if status_code r =? 200 then
    match json r with
    | Some v => Returned v
    | None => Raised JSONDecodeError
    end
  else Raised (RequestError (status_code r)).

(** [checkLimits] from the request on. *)
Definition issueRequest (url : string) (c : BeaApiClient) (w : World)
    : Outcome PyVal * (BeaApiClient * World) :=
  let '(response, w') := requests_get url w in
  (deliver response, (account response c, w')).

(** [BeaApiClient.checkLimits] *)
Definition checkLimits (fuel : nat) (url : string) (c : BeaApiClient) (w : World)
    : option (Outcome PyVal * (BeaApiClient * World)) :=
  match awaitBudget fuel c w with
  | Some (c1, w1) => Some (issueRequest url c1 w1)
  | None => None
  end.

(** [BeaApiClient.sendRequest] *)
Definition sendRequest (fuel : nat) (url : string) (c : BeaApiClient) (w : World)
    : option (Outcome PyVal * (BeaApiClient * World)) :=
  checkLimits fuel url c w.

(** The client states a program can see: the freshly built client, and the
    client after any call that came back (normally or with an exception),
    whatever happened to the world between the calls. *)
Inductive reachable (c0 : BeaApiClient) : BeaApiClient -> Prop :=
| reach_init : reachable c0 c0
| reach_call c fuel url w out c' w' :
    reachable c0 c ->
    sendRequest fuel url c w = Some (out, (c', w')) ->
    reachable c0 c'.

End Client.

(** All three counters are zero. *)
Definition zeroed (c : BeaApiClient) : Prop :=
  requestsMade c = 0 /\ dataReceived c = 0 /\ errorsMade c = 0.

(** Every counter is strictly below its limit. *)
Definition underBudget (c : BeaApiClient) : Prop :=
  requestsMade c < requestLimit c
  /\ dataReceived c < dataLimit c
  /\ errorsMade c < errorLimit c.

(** No counter exceeds its limit. *)
Definition withinLimits (c : BeaApiClient) : Prop :=
  requestsMade c <= requestLimit c
  /\ dataReceived c <= dataLimit c
  /\ errorsMade c <= errorLimit c.

(** The construction-time settings. *)
Definition sameSettings (c c' : BeaApiClient) : Prop :=
  apiKey c' = apiKey c
  /\ requestLimit c' = requestLimit c
  /\ dataLimit c' = dataLimit c
  /\ errorLimit c' = errorLimit c.

(** A world to start from: time zero, nothing requested, no files. *)
Definition world0 : World :=
  {| now := 0; tick := 0; sent := []; files := ∅ |}.

(** ** Exceptions and effects *)

Global Instance Outcome_ret : MRet Outcome := fun A a => Returned a.
Global Instance Outcome_bind : MBind Outcome := fun A B k o =>
  match o with
  | Returned a => k a
  | Raised e => Raised e
  end.

(** [for x in xs: ...], each step able to raise. *)
Fixpoint for_each {A B : Type} (f : A -> Outcome B) (xs : list A) : Outcome (list B) :=
  match xs with
  | [] => Returned []
  | x :: rest =>
      y ← f x;
      ys ← for_each f rest;
      Returned (y :: ys)
  end.

(** Code that uses the client and the world: it may raise, and it may fail
    to come back ([None]) when a wait loop runs out of fuel or an evaluated
    expression does not return.  The state survives an exception. *)
Definition IO (A : Type) : Type :=
  BeaApiClient * World -> option (Outcome A * (BeaApiClient * World)).

Global Instance IO_ret : MRet IO := fun A a st => Some (Returned a, st).
Global Instance IO_bind : MBind IO := fun A B k m st =>
  match m st with
  | Some (Returned a, st') => k a st'
  | Some (Raised e, st') => Some (Raised e, st')
  | None => None
  end.

(** A pure step inside effectful code. *)
Definition lift {A : Type} (o : Outcome A) : IO A := fun st => Some (o, st).

(** A step that only touches the world and cannot raise. *)
Definition world_step {A : Type} (f : World -> A * World) : IO A :=
  fun '(c, w) => let '(a, w') := f w in Some (Returned a, (c, w')).

(** [try: body  except Exception as e: handler e] *)
Definition try_except {A : Type} (body : IO A) (handler : Exn -> IO A) : IO A :=
  fun st =>
    match body st with
    | Some (Raised e, st') => handler e st'
    | r => r
    end.

(** ** beaData.py *)

(** A [BeaDataSet] object.  Its attributes are untyped in the source: the
    builder stores lists in the last eight, the cache reader whatever
    [eval] returns.  ([urlParamInputs], which the builder and the cache never
    touch, is left out.) *)
Record BeaDataSet : Type := {
  dataSetName : PyVal;
  dataSetDescription : PyVal;
  parameters : PyVal;
  parametersDescriptions : PyVal;
  parametersRequiredInRequest : PyVal;
  parametersDefaultValues : PyVal;
  parametersMultipleValsAcceptedInRequest : PyVal;
  parametersAllValueRequest : PyVal;
  parameterInputs : PyVal;
  parameterInputsDescriptions : PyVal
}.

(** [BeaDataSet.__init__] *)
Definition newBeaDataSet (name description : PyVal) : BeaDataSet :=
  {| dataSetName := name;
     dataSetDescription := description;
     parameters := PList [];
     parametersDescriptions := PList [];
     parametersRequiredInRequest := PList [];
     parametersDefaultValues := PList [];
     parametersMultipleValsAcceptedInRequest := PList [];
     parametersAllValueRequest := PList [];
     parameterInputs := PList [];
     parameterInputsDescriptions := PList [] |}.

(** The list an attribute holds.  [updateParametersLists] is only ever run
    right after [extractParamInfo] has stored lists in the attributes it
    works on. *)
Definition as_list (v : PyVal) : Outcome (list PyVal) :=
  match v with
  | PList l => Returned l
  | _ => Raised TypeError
  end.

(** [l[i]] *)
Definition item (l : list PyVal) (i : nat) : Outcome PyVal :=
  match l !! i with
  | Some v => Returned v
  | None => Raised IndexError
  end.

(** One round of the first loop of [updateParametersLists]. *)
Definition flagStep (st : list PyVal * list PyVal) (i : nat)
    : Outcome (list PyVal * list PyVal) :=
  let '(required, multiple) := st in
  r ← item required i;
  let required' := <[i := PBool (py_eq_str r "1")]> required in
  m ← item multiple i;
  let multiple' := <[i := PBool (py_eq_str m "1")]> multiple in
  Returned (required', multiple').

(** One round of its second loop. *)
Definition sentinelStep (st : list PyVal * list PyVal) (i : nat)
    : Outcome (list PyVal * list PyVal) :=
  let '(allValue, defaults) := st in
  a ← item allValue i;
  let allValue' := if py_eq_str a "" then <[i := PStr "N/a"]> allValue else allValue in
  d ← item defaults i;
  let defaults' := if py_eq_str d "" then <[i := PStr "N/a"]> defaults else defaults in
  Returned (allValue', defaults').

(** [for i in range(n)] over a state. *)
Fixpoint for_range {S : Type} (step : S -> nat -> Outcome S) (indices : list nat) (st : S)
    : Outcome S :=
  match indices with
  | [] => Returned st
  | i :: rest => st' ← step st i; for_range step rest st'
  end.

(** [BeaDataSet.updateParametersLists] *)
Definition updateParametersLists (d : BeaDataSet) : Outcome BeaDataSet :=
  required ← as_list (parametersRequiredInRequest d);
  multiple ← as_list (parametersMultipleValsAcceptedInRequest d);
  '(required', multiple') ← for_range flagStep (seq 0 (length required)) (required, multiple);
  allValue ← as_list (parametersAllValueRequest d);
  defaults ← as_list (parametersDefaultValues d);
  '(allValue', defaults') ← for_range sentinelStep (seq 0 (length allValue)) (allValue, defaults);
  Returned
    {| dataSetName := dataSetName d;
       dataSetDescription := dataSetDescription d;
       parameters := parameters d;
       parametersDescriptions := parametersDescriptions d;
       parametersRequiredInRequest := PList required';
       parametersDefaultValues := PList defaults';
       parametersMultipleValsAcceptedInRequest := PList multiple';
       parametersAllValueRequest := PList allValue';
       parameterInputs := parameterInputs d;
       parameterInputsDescriptions := parameterInputsDescriptions d |}.

(** ** downloadBeaDatasets.py: the catalog builder *)

(** [ensureResponseIsList] *)
Definition ensureResponseIsList (value : PyVal) : list PyVal :=
  match value with
  | PDict _ => [value]
  | PList l => l
  | _ => []
  end.

(** The six values [extractParamInfo] takes from one parameter. *)
Definition paramInfo (param : PyVal)
    : Outcome (PyVal * PyVal * PyVal * PyVal * PyVal * PyVal) :=
  name ← py_get param "ParameterName" (PStr "N/A");
  description ← py_get param "ParameterDescription" (PStr "N/A");
  required ← py_get param "ParameterIsRequiredFlag" (PStr "N/A");
  dflt ← py_get param "ParameterDefaultValue" (PStr "N/a");
  multiple ← py_get param "MultipleAcceptedFlag" (PStr "N/a");
  allValue ← py_get param "AllValue" (PStr "N/a");
  Returned (name, description, required, dflt, multiple, allValue).

(** [extractParamInfo]: the six lists, in the order the source returns them. *)
Definition extractParamInfo (parameters : PyVal)
    : Outcome (list PyVal * list PyVal * list PyVal * list PyVal * list PyVal * list PyVal) :=
  infos ← for_each paramInfo (ensureResponseIsList parameters);
  Returned
    (map (fun i => i.1.1.1.1.1) infos,
     map (fun i => i.1.1.1.1.2) infos,
     map (fun i => i.1.1.1.2) infos,
     map (fun i => i.1.1.2) infos,
     map (fun i => i.1.2) infos,
     map (fun i => i.2) infos).

(** [extractDataSets] *)
Definition extractDataSets (dataSets : PyVal) : Outcome (list PyVal * list PyVal) :=
  items ← py_iter dataSets;
  pairs ← for_each (fun dataSet =>
             name ← py_get dataSet "DatasetName" (PStr "N/A");
             description ← py_get dataSet "DatasetDescription" (PStr "N/A");
             Returned (name, description)) items;
  Returned (map fst pairs, map snd pairs).

(** [name in ["NIPA", "NIUnderlyingDetail", "FixedAssets"]] *)
Definition isYearRangeDataSet (name : PyVal) : bool :=
  py_eq_str name "NIPA" || py_eq_str name "NIUnderlyingDetail" || py_eq_str name "FixedAssets".

(** [entry[inputsKeys[n]]] *)
Definition keyed (entry : PyVal) (inputsKeys : list string) (n : nat) : Outcome PyVal :=
  match inputsKeys !! n with
  | Some k => py_subscript entry k
  | None => Raised IndexError
  end.

(** One round of the loop of the "Year" branch of [extractValidInputs]. *)
Definition yearEntry (inputsKeys : list string) (entry : PyVal) : Outcome (PyVal * PyVal) :=
  tableName ← keyed entry inputsKeys 0;
  a1 ← keyed entry inputsKeys 1;
  a2 ← keyed entry inputsKeys 2;
  let annualYearRange := py_str a1 +:+ "-" +:+ py_str a2 in
  q1 ← keyed entry inputsKeys 3;
  q2 ← keyed entry inputsKeys 4;
  let quarterlyYearRange := py_str q1 +:+ "-" +:+ py_str q2 in
  m1 ← keyed entry inputsKeys 5;
  m2 ← keyed entry inputsKeys 6;
  let monthlyYearRange := py_str m1 +:+ "-" +:+ py_str m2 in
  Returned
    (PDict [("TableName", tableName);
            ("Annual year Range", PStr annualYearRange);
            ("Quarterly Year Range", PStr quarterlyYearRange);
            ("Monthly Year Range", PStr monthlyYearRange)],
     PStr ("Year ranges for annual, quarterly, and monthly data from table: "
           +:+ py_str tableName)).

(** One round of the loop of its default branch. *)
Definition plainEntry (inputsKeys : list string) (entry : PyVal) : Outcome (PyVal * PyVal) :=
  value ← keyed entry inputsKeys 0;
  description ← keyed entry inputsKeys 1;
  Returned (value, description).

(** [extractValidInputs] *)
Definition extractValidInputs (inputs dataSetName' paramName : PyVal)
    : Outcome (list PyVal * list PyVal) :=
  let inputs := ensureResponseIsList inputs in
  if isYearRangeDataSet dataSetName' && py_eq_str paramName "Year" then
    first ← item inputs 0;
    inputsKeys ← py_keys first;
    rows ← for_each (yearEntry inputsKeys) inputs;
    Returned (map fst rows, map snd rows)
  else
    first ← item inputs 0;
    inputsKeys ← py_keys first;
    rows ← for_each (plainEntry inputsKeys) inputs;
    Returned (map fst rows, map snd rows).

Section Builder.
Variable E : Env.
Variable fuel : nat.

(** [client.sendRequest(url)] *)
Definition request (url : string) : IO PyVal :=
  fun '(c, w) => sendRequest E fuel url c w.

(** [client.apiKey] *)
Definition clientKey : IO string := fun '(c, w) => Some (Returned (apiKey c), (c, w)).

(** [response['BEAAPI']['Results'][field]] *)
Definition results (response : PyVal) (field : string) : Outcome PyVal :=
  api ← py_subscript response "BEAAPI";
  res ← py_subscript api "Results";
  py_subscript res field.

(** [l.append(x)] on an attribute. *)
Definition appended (attribute x : PyVal) : Outcome PyVal :=
  l ← as_list attribute;
  Returned (PList (l ++ [x])).

(** One round of the loop over the parameters of a data set.  (The source
    tests [name in [...] and paramName == 'Year'] here, with the same
    statements in both arms.) *)
Definition fetchInputs (d : BeaDataSet) (paramName : PyVal) : IO BeaDataSet :=
  key ← clientKey;
  let paramInputValuesUrl :=
    "https://apps.bea.gov/api/data?&UserID=" +:+ key
    +:+ "&method=GetParameterValues&datasetname=" +:+ py_str (dataSetName d)
    +:+ "&ParameterName=" +:+ py_str paramName +:+ "&ResultFormat=JSON" in
  response ← request paramInputValuesUrl;
  inputs ← lift (results response "ParamValue");
  '(validInputs, inputDescriptions) ←
    lift (extractValidInputs inputs (dataSetName d) paramName);
  parameterInputs' ← lift (appended (parameterInputs d) (PList validInputs));
  parameterInputsDescriptions' ←
    lift (appended (parameterInputsDescriptions d) (PList inputDescriptions));
  mret
    {| dataSetName := dataSetName d;
       dataSetDescription := dataSetDescription d;
       parameters := parameters d;
       parametersDescriptions := parametersDescriptions d;
       parametersRequiredInRequest := parametersRequiredInRequest d;
       parametersDefaultValues := parametersDefaultValues d;
       parametersMultipleValsAcceptedInRequest := parametersMultipleValsAcceptedInRequest d;
       parametersAllValueRequest := parametersAllValueRequest d;
       parameterInputs := parameterInputs';
       parameterInputsDescriptions := parameterInputsDescriptions' |}.

(** The loop over the parameters of a data set. *)
Fixpoint fetchAllInputs (d : BeaDataSet) (paramNames : list PyVal) : IO BeaDataSet :=
  match paramNames with
  | [] => mret d
  | paramName :: rest => d' ← fetchInputs d paramName; fetchAllInputs d' rest
  end.

(** One round of the loop over the data sets. *)
Definition buildDataSet (entry : PyVal * PyVal) : IO BeaDataSet :=
  let '(name, description) := entry in
  let d := newBeaDataSet name description in
  key ← clientKey;
  let parameterListUrl :=
    "https://apps.bea.gov/api/data?&UserID=" +:+ key
    +:+ "&method=getparameterlist&datasetname=" +:+ py_str (dataSetName d)
    +:+ "&ResultFormat=JSON" in
  response ← request parameterListUrl;
  parameters' ← lift (results response "Parameter");
  '(names, descriptions, required, defaults, multiple, allValue) ←
    lift (extractParamInfo parameters');
  d ← lift (updateParametersLists
       {| dataSetName := name;
          dataSetDescription := description;
          parameters := PList names;
          parametersDescriptions := PList descriptions;
          parametersRequiredInRequest := PList required;
          parametersDefaultValues := PList defaults;
          parametersMultipleValsAcceptedInRequest := PList multiple;
          parametersAllValueRequest := PList allValue;
          parameterInputs := PList [];
          parameterInputsDescriptions := PList [] |});
  paramNames ← lift (py_iter (parameters d));
  fetchAllInputs d paramNames.

(** The loop over the data sets. *)
Fixpoint buildAll (entries : list (PyVal * PyVal)) : IO (list BeaDataSet) :=
  match entries with
  | [] => mret []
  | entry :: rest =>
      d ← buildDataSet entry;
      ds ← buildAll rest;
      mret (d :: ds)
  end.

(** [downloadBeaDatasets] *)
Definition downloadBeaDatasets : IO (list BeaDataSet) :=
  key ← clientKey;
  let allDatasetsUrl :=
    "http://apps.bea.gov/api/data?&UserID=" +:+ key
    +:+ "&method=GETDATASETLIST&ResultFormat=JSON" in
  response ← request allDatasetsUrl;
  datasets ← lift (results response "Dataset");
  '(datasetsList, dataSetDescriptionList) ← lift (extractDataSets datasets);
  buildAll (zip datasetsList dataSetDescriptionList).

End Builder.

(** ** downloadBeaDatasets.py: the catalog cache *)

(** [getFiscalQuarter]: [math.ceil(date.month / 3)] *)
Definition getFiscalQuarter (date : Date) : Z :=
  Qceiling (inject_Z (month date) / 3).

Definition digit_val (c : ascii) : option Z :=
  if isdigit c then Some (Z.of_N (code c) - 48) else None.

Definition isLeap (y : Z) : bool :=
  (y mod 4 =? 0) && (negb (y mod 100 =? 0) || (y mod 400 =? 0)).

Definition daysInMonth (y m : Z) : Z :=
  if m =? 2 then (if isLeap y then 29 else 28)
  else if (m =? 4) || (m =? 6) || (m =? 9) || (m =? 11) then 30
  else 31.

(** What the [datetime] constructor accepts. *)
Definition validDate (d : Date) : bool :=
  (1 <=? year d) && (year d <=? 9999)
  && (1 <=? month d) && (month d <=? 12)
  && (1 <=? day d) && (day d <=? daysInMonth (year d) (month d)).

(** The [%m] field: [1[0-2]|0[1-9]|[1-9]]. *)
Definition month_field (s : string) : option Z :=
  match s with
  | String a EmptyString =>
      x ← digit_val a; if 1 <=? x then Some x else None
  | String a (String b EmptyString) =>
      x ← digit_val a; y ← digit_val b;
      if (x =? 1) && (y <=? 2) || (x =? 0) && (1 <=? y) then Some (10 * x + y) else None
  | _ => None
  end.

(** The [%d] field: [3[0-1]|[1-2]\d|0[1-9]|[1-9]| [1-9]]. *)
Definition day_field (s : string) : option Z :=
  match s with
  | String a EmptyString =>
      x ← digit_val a; if 1 <=? x then Some x else None
  | String a (String b EmptyString) =>
      y ← digit_val b;
      if Ascii.eqb a " " then (if 1 <=? y then Some y else None)
      else
        x ← digit_val a;
        if (x =? 3) && (y <=? 1) || (x =? 1) || (x =? 2) || (x =? 0) && (1 <=? y)
        then Some (10 * x + y) else None
  | _ => None
  end.

(** [s] cut at its first ["-"]. *)
Fixpoint cut_dash (s : string) : option (string * string) :=
  match s with
  | EmptyString => None
  | String c s' =>
      if Ascii.eqb c "-" then Some (EmptyString, s')
      else
        match cut_dash s' with
        | Some (a, b) => Some (String c a, b)
        | None => None
        end
  end.

(** [datetime.strptime(s, "%Y-%m-%d")] *)
Definition strptime (s : string) : Outcome Date :=
  match s with
  | String y1 (String y2 (String y3 (String y4 (String "-" rest)))) =>
      match digit_val y1, digit_val y2, digit_val y3, digit_val y4, cut_dash rest with
      | Some a, Some b, Some c, Some d, Some (ms, ds) =>
          match month_field ms, day_field ds with
          | Some m, Some dd =>
              let date := {| year := 1000 * a + 100 * b + 10 * c + d; month := m; day := dd |} in
              if validDate date then Returned date else Raised ValueError
          | _, _ => Raised ValueError
          end
      | _, _, _, _, _ => Raised ValueError
      end
  | _ => Raised ValueError
  end.

Definition digit_char (n : Z) : ascii := ascii_of_N (48 + Z.to_N n).

Definition two_digits (n : Z) : string :=
  String (digit_char (n / 10 mod 10)) (String (digit_char (n mod 10)) EmptyString).

(** [date.strftime("%Y-%m-%d")], the year on four digits, as the Python
    documentation has it. *)
Definition strftime (d : Date) : string :=
  two_digits (year d / 100) +:+ two_digits (year d) +:+ "-"
  +:+ two_digits (month d) +:+ "-" +:+ two_digits (day d).

(** What reading in text mode makes of line ends: ["\r\n"] and ["\r"]
    become ["\n"]. *)
Fixpoint universal_newlines (s : string) : string :=
  match s with
  | EmptyString => EmptyString
  | String c s1 =>
      if Ascii.eqb c creturn then
        match s1 with
        | String d s2 =>
            if Ascii.eqb d newline then String newline (universal_newlines s2)
            else String newline (universal_newlines s1)
        | EmptyString => String newline EmptyString
        end
      else String c (universal_newlines s1)
  end.

(** The lines of a text, each with its ["\n"] (the last may lack one). *)
Fixpoint split_lines (s : string) : list string :=
  match s with
  | EmptyString => []
  | String c s' =>
      if Ascii.eqb c newline then String c EmptyString :: split_lines s'
      else
        match split_lines s' with
        | [] => [String c EmptyString]
        | l :: ls => String c l :: ls
        end
  end.

(** [file.readline()] on the lines still to be read. *)
Definition readline (file : list string) : string * list string :=
  match file with
  | [] => (EmptyString, [])
  | l :: rest => (l, rest)
  end.

(** [eval(s)]: the value, when [s] is the text of one; what the oracle
    says, otherwise. *)
Definition py_eval (E : Env) (s : string) : IO PyVal :=
  match literal s with
  | Some v => mret v
  | None => evaluate E s
  end.

(** The helper [parseList] of [readBeaDataSets]. *)
Definition parseList (E : Env) (line : string) : IO PyVal :=
  match strip line with
  | EmptyString => mret (PList [])
  | stripped => py_eval E stripped
  end.

(** The [while True] loop of [readBeaDataSets].  Every round that does not
    break takes at least one line, so [length file] rounds are enough; at
    [O] the file is used up, [readline] returns [''] and the loop breaks. *)
Fixpoint readBlocks (E : Env) (rounds : nat) (file : list string)
    (dataSetObjects : list BeaDataSet) : IO (list BeaDataSet) :=
  match rounds with
  | O => mret dataSetObjects
  | S rounds' =>
      let '(line, file) := readline file in
      match strip line with
      | EmptyString => mret dataSetObjects
      | name =>
          let '(line, file) := readline file in
          let description := strip line in
          let '(line, file) := readline file in
          parameters' ← parseList E line;
          let '(line, file) := readline file in
          parametersDescriptions' ← parseList E line;
          let '(line, file) := readline file in
          parametersRequiredInRequest' ← parseList E line;
          let '(line, file) := readline file in
          parametersDefaultValues' ← parseList E line;
          let '(line, file) := readline file in
          parametersMultipleValsAcceptedInRequest' ← parseList E line;
          let '(line, file) := readline file in
          parametersAllValueRequest' ← parseList E line;
          let '(line, file) := readline file in
          parameterInputs' ← parseList E line;
          let '(line, file) := readline file in
          parameterInputsDescriptions' ← parseList E line;
          let '(_, file) := readline file in
          readBlocks E rounds' file
            (dataSetObjects ++
             [{| dataSetName := PStr name;
                 dataSetDescription := PStr description;
                 parameters := parameters';
                 parametersDescriptions := parametersDescriptions';
                 parametersRequiredInRequest := parametersRequiredInRequest';
                 parametersDefaultValues := parametersDefaultValues';
                 parametersMultipleValsAcceptedInRequest :=
                   parametersMultipleValsAcceptedInRequest';
                 parametersAllValueRequest := parametersAllValueRequest';
                 parameterInputs := parameterInputs';
                 parameterInputsDescriptions := parameterInputsDescriptions' |}])
      end
  end.

(** [v + "\n"] *)
Definition line_of (v : PyVal) : Outcome string :=
  match v with
  | PStr s => Returned (s +:+ String newline EmptyString)
  | _ => Raised TypeError
  end.

(** [open(filename, 'r')]: the text of the file. *)
Definition open_read (filename : string) : IO string :=
  fun '(c, w) =>
    match files w !! filename with
    | Some text => Some (Returned text, (c, w))
    | None => Some (Raised FileNotFoundError, (c, w))
    end.

Definition set_file (filename text : string) (w : World) : World :=
  {| now := now w; tick := tick w; sent := sent w; files := <[filename := text]> (files w) |}.

(** [open(filename, 'w')]: the file is emptied. *)
Definition open_write (filename : string) : IO unit :=
  fun '(c, w) => Some (Returned tt, (c, set_file filename EmptyString w)).

(** [file.write(text)] on the file opened for writing. *)
Definition write (filename text : string) : IO unit :=
  fun '(c, w) =>
    Some (Returned tt, (c, set_file filename (default EmptyString (files w !! filename) +:+ text) w)).

(** The body of the loop of [writeDataSetsToFile]. *)
Definition writeDataSet (filename : string) (d : BeaDataSet) : IO unit :=
  l ← lift (line_of (dataSetName d)); write filename l;;
  l ← lift (line_of (dataSetDescription d)); write filename l;;
  write filename (py_str (parameters d) +:+ String newline EmptyString);;
  write filename (py_str (parametersDescriptions d) +:+ String newline EmptyString);;
  write filename (py_str (parametersRequiredInRequest d) +:+ String newline EmptyString);;
  write filename (py_str (parametersDefaultValues d) +:+ String newline EmptyString);;
  write filename (py_str (parametersMultipleValsAcceptedInRequest d) +:+ String newline EmptyString);;
  write filename (py_str (parametersAllValueRequest d) +:+ String newline EmptyString);;
  write filename (py_str (parameterInputs d) +:+ String newline EmptyString);;
  write filename (py_str (parameterInputsDescriptions d) +:+ String newline EmptyString);;
  write filename (String "000" (String newline EmptyString)).

Fixpoint writeEach (filename : string) (dataSetObjects : list BeaDataSet) : IO unit :=
  match dataSetObjects with
  | [] => mret tt
  | d :: rest => writeDataSet filename d;; writeEach filename rest
  end.

(** The test of [readBeaDataSets] on the date of the file and the date of
    the day: [currentDate.year > fileDate.year or currentQuarter !=
    fileQuarter]. *)
Definition outdated (fileDate currentDate : Date) : bool :=
  (year fileDate <? year currentDate)
  || negb (getFiscalQuarter currentDate =? getFiscalQuarter fileDate).

Section Cache.
Variable E : Env.
Variable fuel : nat.

(** [time.sleep(2); clearTerminal()] *)
Definition pause : IO unit := world_step (fun w => (tt, time_sleep E 2 w)).

(** [writeDataSetsToFile] *)
Definition writeDataSetsToFile (dataSetObjects : list BeaDataSet) (filename : string)
    : IO unit :=
  currentDate ← world_step (datetime_now E);
  let dateString := strftime currentDate +:+ String newline EmptyString in
  open_write filename;;
  write filename dateString;;
  writeEach filename dataSetObjects.

(** The rebuild that both the outdated-cache path and the missing-file path
    of [readBeaDataSets] run. *)
Definition rebuild (filename : string) : IO (option (list BeaDataSet)) :=
  dataSetObjects ← downloadBeaDatasets E fuel;
  writeDataSetsToFile dataSetObjects filename;;
  pause;;
  mret (Some dataSetObjects).

(** The [try] block of [readBeaDataSets]. *)
Definition readCache (filename : string) : IO (option (list BeaDataSet)) :=
  text ← open_read filename;
  let file := split_lines (universal_newlines text) in
  let '(line, file) := readline file in
  let dateLine := strip line in
  fileDate ← lift (strptime dateLine);
  currentDate ← world_step (datetime_now E);
  if outdated fileDate currentDate then
    rebuild filename
  else
    dataSetObjects ← readBlocks E (length file) file [];
    pause;;
    mret (Some dataSetObjects).

(** The two [except] clauses of [readBeaDataSets]: [except
    FileNotFoundError] and [except Exception], which lets through what is
    not an [Exception]. *)
Definition recover (filename : string) (e : Exn) : IO (option (list BeaDataSet)) :=
  match e with
  | FileNotFoundError => rebuild filename
  | BaseError name => lift (Raised (BaseError name))
  | _ => pause;; mret None
  end.

(** [readBeaDataSets] *)
Definition readBeaDataSets (filename : string) : IO (option (list BeaDataSet)) :=
  try_except (readCache filename) (recover filename).

End Cache.

(** ** main.py *)

(** The start of the program: a client of default limits is built for the
    key [APIKEY] and the catalog is loaded from the default cache file. *)
Definition main (E : Env) (fuel : nat) (APIKEY : string) (w : World)
    : option (Outcome (option (list BeaDataSet)) * (BeaApiClient * World)) :=
  let '(client, w') := init_default E APIKEY w in
  readBeaDataSets E fuel "beaDataSets.txt" (client, w').

(** ** display.py and choseDataSetToDownload.py

    What these functions send to the terminal is left out; what the user
    types comes as the list of the lines typed. *)

Fixpoint spaces (n : nat) : string :=
  match n with
  | O => EmptyString
  | S n' => String " " (spaces n')
  end.

(** [s.ljust(width)] *)
Definition ljust (s : string) (width : Z) : string :=
  s +:+ spaces (Z.to_nat (width - Z.of_nat (String.length s))).

(** [formatDataSetTableLine] *)
Definition formatDataSetTableLine (dataset description : PyVal)
    (terminalWidth datasetColumnWidth : Z) : string :=
  let separator := " | " in
  let separatorWidth := Z.of_nat (String.length separator) in
  let descriptionWidth := terminalWidth - datasetColumnWidth - separatorWidth - 2 in
  "*" +:+ ljust (" " +:+ py_str dataset) datasetColumnWidth
  +:+ separator +:+ ljust (py_str description) descriptionWidth +:+ "*".

(** [s.lower()], on the characters below 256: the letters A to Z and the
    accented capitals 192 to 222 (but the multiplication sign, 215) move up
    by 32. *)
Definition lower_char (c : ascii) : ascii :=
  let n := code c in
  if ((65 <=? n) && (n <=? 90) || (192 <=? n) && (n <=? 222) && negb (n =? 215))%N
  then ascii_of_N (n + 32) else c.

Fixpoint lower (s : string) : string :=
  match s with
  | EmptyString => EmptyString
  | String c s' => String (lower_char c) (lower s')
  end.

(** A string method called on an attribute. *)
Definition str_method (method : string -> string) (v : PyVal) : Outcome string :=
  match v with
  | PStr s => Returned (method s)
  | _ => Raised AttributeError
  end.

(** The [for] loop of [chooseDataSet] and of [searchDataSetsMenu] that looks
    the input up. *)
Fixpoint findDataSet (userInput : string) (dataSetObjects : list BeaDataSet)
    : Outcome (option BeaDataSet) :=
  match dataSetObjects with
  | [] => Returned None
  | dataSetObject :: rest =>
      validDataSetName ← str_method (fun s => strip (lower s)) (dataSetName dataSetObject);
      if String.eqb userInput validDataSetName then Returned (Some dataSetObject)
      else findDataSet userInput rest
  end.

(** [chooseDataSet]: the [while True] loop, for the lines the user types one
    after the other; [None] when the lines run out before one of them
    matches. *)
Fixpoint chooseDataSet (typed : list string) (dataSetObjects : list BeaDataSet)
    : Outcome (option BeaDataSet) :=
  match typed with
  | [] => Returned None
  | line :: more =>
      let userInput := strip (lower line) in
      found ← findDataSet userInput dataSetObjects;
      match found with
      | Some dataSetObject => Returned (Some dataSetObject)
      | None => chooseDataSet more dataSetObjects
      end
  end.

(** [searchDataSetsMenu]: the names are stripped for the table, then the
    same loop runs. *)
Definition searchDataSetsMenu (typed : list string) (dataSetObjects : list BeaDataSet)
    : Outcome (option BeaDataSet) :=
  dataSets ← for_each (fun d => str_method strip (dataSetName d)) dataSetObjects;
  chooseDataSet typed dataSetObjects.

(** ** The "Year" parameter of the national-accounts data sets, as the
    specification describes it *)

(** An entry of the valid-input response: a table identifier and three
    (start, end) pairs. *)
Record YearEntry : Type := {
  table : PyVal;
  annual : PyVal * PyVal;
  quarterly : PyVal * PyVal;
  monthly : PyVal * PyVal
}.

(** The entry as the API sends it, under the seven keys [keys]. *)
Definition entryValue (keys : list string) (e : YearEntry) : PyVal :=
  PDict (zip keys
           [table e; fst (annual e); snd (annual e); fst (quarterly e);
            snd (quarterly e); fst (monthly e); snd (monthly e)]).

(** The record an entry is assembled into. *)
Record YearRanges : Type := {
  TableName : PyVal;
  AnnualYearRange : string;
  QuarterlyYearRange : string;
  MonthlyYearRange : string
}.

(** ["start-end"] *)
Definition yearRange (pair : PyVal * PyVal) : string :=
  py_str (fst pair) +:+ "-" +:+ py_str (snd pair).

Definition assemble (e : YearEntry) : YearRanges :=
  {| TableName := table e;
     AnnualYearRange := yearRange (annual e);
     QuarterlyYearRange := yearRange (quarterly e);
     MonthlyYearRange := yearRange (monthly e) |}.

(** The record as the dictionary the program stores, under the keys the
    source spells ["TableName"], ["Annual year Range"],
    ["Quarterly Year Range"] and ["Monthly Year Range"]. *)
Definition yearRangesValue (r : YearRanges) : PyVal :=
  PDict [("TableName", TableName r);
         ("Annual year Range", PStr (AnnualYearRange r));
         ("Quarterly Year Range", PStr (QuarterlyYearRange r));
         ("Monthly Year Range", PStr (MonthlyYearRange r))].

Definition yearRangesDescription (r : YearRanges) : PyVal :=
  PStr ("Year ranges for annual, quarterly, and monthly data from table: "
        +:+ py_str (TableName r)).

(** In a returned catalog, an attribute that holds a list of non-empty
    lists. *)
Definition nonEmptyLists (v : PyVal) : Prop :=
  exists ls, v = PList ls /\ Forall (fun x => exists l, x = PList l /\ l <> []) ls.

(** ** The cache file, as [writeDataSetsToFile] lays it out *)

Definition nl : string := String newline EmptyString.

(** The eleven lines of one data set. *)
Definition blockLines (d : BeaDataSet) : list string :=
  [py_str (dataSetName d) +:+ nl;
   py_str (dataSetDescription d) +:+ nl;
   py_str (parameters d) +:+ nl;
   py_str (parametersDescriptions d) +:+ nl;
   py_str (parametersRequiredInRequest d) +:+ nl;
   py_str (parametersDefaultValues d) +:+ nl;
   py_str (parametersMultipleValsAcceptedInRequest d) +:+ nl;
   py_str (parametersAllValueRequest d) +:+ nl;
   py_str (parameterInputs d) +:+ nl;
   py_str (parameterInputsDescriptions d) +:+ nl;
   String "000" nl].

Fixpoint concat_lines (lines : list string) : string :=
  match lines with
  | [] => EmptyString
  | l :: rest => l +:+ concat_lines rest
  end.

(** The text of the file written on [date] for [dataSetObjects]. *)
Definition fileText (date : Date) (dataSetObjects : list BeaDataSet) : string :=
  concat_lines ((strftime date +:+ nl) :: concat (map blockLines dataSetObjects)).

(** A data set whose name and description are strings, as the write loop
    needs them. *)
Definition textNamed (d : BeaDataSet) : bool :=
  match dataSetName d, dataSetDescription d with
  | PStr _, PStr _ => true
  | _, _ => false
  end.

(** A string with no line break in it. *)
Definition plain (s : string) : Prop :=
  contains newline s = false /\ contains creturn s = false.

(** A string that is one line and survives [strip]: no line break in it,
    no white space at either end. *)
Definition tidy (s : string) : bool :=
  negb (contains newline s) && negb (contains creturn s) && String.eqb (strip s) s.

(** An attribute that holds a list of well-formed values. *)
Definition listAttribute (v : PyVal) : bool :=
  match v with
  | PList _ => wf v
  | _ => false
  end.

(** A data set that the cache file keeps as it is: a non-empty tidy name,
    a tidy description, and lists in the eight other attributes. *)
Definition storable (d : BeaDataSet) : bool :=
  match dataSetName d, dataSetDescription d with
  | PStr n, PStr t =>
      tidy n && negb (String.eqb n "") && tidy t
      && listAttribute (parameters d)
      && listAttribute (parametersDescriptions d)
      && listAttribute (parametersRequiredInRequest d)
      && listAttribute (parametersDefaultValues d)
      && listAttribute (parametersMultipleValsAcceptedInRequest d)
      && listAttribute (parametersAllValueRequest d)
      && listAttribute (parameterInputs d)
      && listAttribute (parameterInputsDescriptions d)
  | _, _ => false
  end.

(** ** Vocabulary of the proofs about [repr] and [eval] *)

(** How [repr] writes one item of a dictionary. *)
Definition repr_item (kv : string * PyVal) : string :=
  repr_str (fst kv) +:+ ": " +:+ repr (snd kv).

Definition isquote (q : ascii) : Prop := q = squote \/ q = dquote.

Definition nodigit (s : string) : Prop :=
  match s with
  | EmptyString => True
  | String c _ => isdigit c = false
  end.

Fixpoint alldigits (s : string) : bool :=
  match s with
  | EmptyString => true
  | String c s' => isdigit c && alldigits s'
  end.

(** The first character of [repr v]. *)
Definition opens (c : ascii) : Prop :=
  isblank c = false /\ Ascii.eqb c "]" = false /\ Ascii.eqb c "}" = false.

(** [parse_val] reads [repr v] back, whatever follows it (if it is not a
    digit), given fuel for its length. *)
Definition reads_back (v : PyVal) : Prop :=
  forall fuel rest,
    (String.length (repr v) <= fuel)%nat -> nodigit rest ->
    parse_val fuel (repr v +:+ rest) = Some (v, rest).

(** ** Vocabulary of the properties of the builder and of the cache *)

Definition is_dict (v : PyVal) : bool :=
  match v with PDict _ => true | _ => false end.

Definition is_str (v : PyVal) : bool :=
  match v with PStr _ => true | _ => false end.

Definition is_bool (v : PyVal) : bool :=
  match v with PBool _ => true | _ => false end.

(** What [v.get(k, dflt)] gives on an object [v]. *)
Definition field (k : string) (dflt : PyVal) (v : PyVal) : PyVal :=
  match v with
  | PDict kvs => default dflt (dict_get kvs k)
  | _ => dflt
  end.

(** What the first loop of [updateParametersLists] makes of a flag. *)
Definition flagOf (v : PyVal) : PyVal := PBool (py_eq_str v "1").

(** What its second loop makes of a default value or an all-value token. *)
Definition sentinelOf (v : PyVal) : PyVal := if py_eq_str v "" then PStr "N/a" else v.

(** A data set with other lists in the four attributes
    [updateParametersLists] works on. *)
Definition withParameterLists (d : BeaDataSet) (required defaults multiple allValue : list PyVal)
    : BeaDataSet :=
  {| dataSetName := dataSetName d;
     dataSetDescription := dataSetDescription d;
     parameters := parameters d;
     parametersDescriptions := parametersDescriptions d;
     parametersRequiredInRequest := PList required;
     parametersDefaultValues := PList defaults;
     parametersMultipleValsAcceptedInRequest := PList multiple;
     parametersAllValueRequest := PList allValue;
     parameterInputs := parameterInputs d;
     parameterInputsDescriptions := parameterInputsDescriptions d |}.

(** A data set with other valid inputs. *)
Definition withInputs (d : BeaDataSet) (inputs descriptions : PyVal) : BeaDataSet :=
  {| dataSetName := dataSetName d;
     dataSetDescription := dataSetDescription d;
     parameters := parameters d;
     parametersDescriptions := parametersDescriptions d;
     parametersRequiredInRequest := parametersRequiredInRequest d;
     parametersDefaultValues := parametersDefaultValues d;
     parametersMultipleValsAcceptedInRequest := parametersMultipleValsAcceptedInRequest d;
     parametersAllValueRequest := parametersAllValueRequest d;
     parameterInputs := inputs;
     parameterInputsDescriptions := descriptions |}.

(** The three URLs the builder asks for, as [downloadBeaDatasets] spells
    them. *)
Definition allDatasetsUrl (key : string) : string :=
  "http://apps.bea.gov/api/data?&UserID=" +:+ key
  +:+ "&method=GETDATASETLIST&ResultFormat=JSON".

Definition parameterListUrl (key : string) (name : PyVal) : string :=
  "https://apps.bea.gov/api/data?&UserID=" +:+ key
  +:+ "&method=getparameterlist&datasetname=" +:+ py_str name
  +:+ "&ResultFormat=JSON".

Definition paramInputValuesUrl (key : string) (name paramName : PyVal) : string :=
  "https://apps.bea.gov/api/data?&UserID=" +:+ key
  +:+ "&method=GetParameterValues&datasetname=" +:+ py_str name
  +:+ "&ParameterName=" +:+ py_str paramName +:+ "&ResultFormat=JSON".

(** The parameter names a data set lists. *)
Definition parameterNames (d : BeaDataSet) : list PyVal :=
  match parameters d with
  | PList names => names
  | _ => []
  end.

(** The requests that stand behind one data set of a catalog, and behind a
    catalog. *)
Definition dataSetRequests (key : string) (d : BeaDataSet) : list string :=
  parameterListUrl key (dataSetName d)
  :: map (paramInputValuesUrl key (dataSetName d)) (parameterNames d).

Definition catalogRequests (key : string) (dataSetObjects : list BeaDataSet) : list string :=
  allDatasetsUrl key :: concat (map (dataSetRequests key) dataSetObjects).

Definition hasLength (n : nat) (v : PyVal) : bool :=
  match v with
  | PList l => Nat.eqb (length l) n
  | _ => false
  end.

Definition everyItem (P : PyVal -> bool) (v : PyVal) : bool :=
  match v with
  | PList l => forallb P l
  | _ => false
  end.

(** Two lists of the same non-zero length. *)
Definition paired (a b : PyVal) : bool :=
  match a, b with
  | PList x, PList y => Nat.eqb (length x) (length y) && negb (Nat.eqb (length x) 0)
  | _, _ => false
  end.

Definition pairedItems (a b : PyVal) : bool :=
  match a, b with
  | PList x, PList y => forallb (fun xy => paired (fst xy) (snd xy)) (zip x y)
  | _, _ => false
  end.

(** The shape of a data set of a catalog: eight lists with one entry per
    parameter, flags that are Booleans, default values and all-value tokens
    that are not the empty string, and for every parameter as many
    descriptions as valid inputs, at least one. *)
Definition catalogEntry (d : BeaDataSet) : bool :=
  let n := length (parameterNames d) in
  hasLength n (parameters d)
  && hasLength n (parametersDescriptions d)
  && hasLength n (parametersRequiredInRequest d)
  && hasLength n (parametersDefaultValues d)
  && hasLength n (parametersMultipleValsAcceptedInRequest d)
  && hasLength n (parametersAllValueRequest d)
  && hasLength n (parameterInputs d)
  && hasLength n (parameterInputsDescriptions d)
  && everyItem is_bool (parametersRequiredInRequest d)
  && everyItem is_bool (parametersMultipleValsAcceptedInRequest d)
  && everyItem (fun v => negb (py_eq_str v "")) (parametersDefaultValues d)
  && everyItem (fun v => negb (py_eq_str v "")) (parametersAllValueRequest d)
  && pairedItems (parameterInputs d) (parameterInputsDescriptions d).

(** The exceptions that the clause [except Exception] of
    [readBeaDataSets] answers with [None]: all but [FileNotFoundError],
    which the clause before it answers with a rebuild, and the classes
    that are not an [Exception], which no clause catches. *)
Definition caught (e : Exn) : bool :=
  match e with
  | FileNotFoundError | BaseError _ => false
  | _ => true
  end.

(** A value, or one of these exceptions. *)
Definition quiet {A : Type} (o : Outcome A) : Prop :=
  forall e, o = Raised e -> caught e = true.

(** Code that raises no other exception than these. *)
Definition calm {A : Type} (m : IO A) : Prop :=
  forall st out st', m st = Some (out, st') -> quiet out.

(** Code that, besides, leaves the files alone. *)
Definition tame {A : Type} (m : IO A) : Prop :=
  forall c w out c' w',
    m (c, w) = Some (out, (c', w')) -> files w' = files w /\ quiet out.

(** The cache file is missing, or holds after its first line the records
    that the program writes for a catalog of storable data sets: no line
    of it is left to the oracle. *)
Definition ownCache (w : World) (filename : string) : Prop :=
  match files w !! filename with
  | None => True
  | Some text =>
      exists ds,
        Forall (fun d => storable d = true) ds
        /\ snd (readline (split_lines (universal_newlines text)))
           = concat (map blockLines ds)
  end.

(** The three limits are positive. *)
Definition positiveLimits (c : BeaApiClient) : Prop :=
  0 < requestLimit c /\ 0 < dataLimit c /\ 0 < errorLimit c.

(** Code that comes back, with a value or an exception, from every state
    of a client of positive limits, and leaves the limits positive. *)
Definition comesBack {A : Type} (m : IO A) : Prop :=
  forall c w, positiveLimits c ->
    exists out c' w', m (c, w) = Some (out, (c', w')) /\ positiveLimits c'.

(** ** Sample inputs *)

(** An oracle whose clock advances by [dt] at every interaction, whose
    server answers by URL alone, whose calendar stands still, and for which
    a text that is not the text of a value is no expression at all: its
    evaluation raises [SyntaxError]. *)
Definition steadyEnv (dt : Q) (server : string -> Response) (today : Date) : Env :=
  {| elapsed := fun _ => dt; http := fun _ => server; calendar := fun _ => today;
     evaluate := fun _ st => Some (Raised SyntaxError, st) |}.

(** [2 ^ k] copies of [s], one after the other. *)
Fixpoint doubled (k : nat) (s : string) : string :=
  match k with
  | O => s
  | S k' => doubled k' (s +:+ s)
  end.

(** A server that answers everything with a 2 MiB body. *)
Definition bulkyServer (url : string) : Response :=
  {| status_code := 200; content := doubled 21 "x"; json := Some PNone |}.

(** A server that refuses everything. *)
Definition failingServer (url : string) : Response :=
  {| status_code := 503; content := "Service Unavailable"; json := None |}.

Definition newYear : Date := {| year := 2024; month := 1; day := 1 |}.

(** A client of default limits that has used up its requests. *)
Definition spentClient : BeaApiClient :=
  {| apiKey := "KEY"; requestLimit := 100; dataLimit := 104857600; errorLimit := 30;
     requestsMade := 100; dataReceived := 5000; errorsMade := 0; lastReset := 0 |}.

Definition calmEnv : Env := steadyEnv 1 failingServer newYear.
Definition bulkyEnv : Env := steadyEnv 1 bulkyServer newYear.

(** A client built with a request limit of zero. *)
Definition stuckClient : BeaApiClient := fst (init calmEnv "KEY" 0 100 30 world0).

(** A server that answers the URLs of [pages] with status 200 and the
    JSON document listed, and anything else with 404. *)
Fixpoint pageOf (pages : list (string * PyVal)) (url : string) : Response :=
  match pages with
  | [] => {| status_code := 404; content := "Not Found"; json := None |}
  | (u, v) :: rest =>
      if String.eqb url u then {| status_code := 200; content := "{}"; json := Some v |}
      else pageOf rest url
  end.

(** [{"BEAAPI": {"Results": {field: v}}}] *)
Definition envelope (field : string) (v : PyVal) : PyVal :=
  PDict [("BEAAPI", PDict [("Results", PDict [(field, v)])])].

Definition datasetListUrl : string :=
  "http://apps.bea.gov/api/data?&UserID=KEY&method=GETDATASETLIST&ResultFormat=JSON".
Definition nipaParametersUrl : string :=
  "https://apps.bea.gov/api/data?&UserID=KEY&method=getparameterlist&datasetname=NIPA&ResultFormat=JSON".
Definition nipaYearUrl : string :=
  "https://apps.bea.gov/api/data?&UserID=KEY&method=GetParameterValues&datasetname=NIPA&ParameterName=Year&ResultFormat=JSON".

Definition nipaDataSet : PyVal :=
  PDict [("DatasetName", PStr "NIPA"); ("DatasetDescription", PStr "Standard NIPA tables")].

Definition yearParameter : PyVal :=
  PDict [("ParameterName", PStr "Year");
         ("ParameterDescription", PStr "List of year(s) of data to retrieve");
         ("ParameterIsRequiredFlag", PStr "1");
         ("ParameterDefaultValue", PStr "");
         ("MultipleAcceptedFlag", PStr "1");
         ("AllValue", PStr "X")].

Definition specKeys : list string := ["Table"; "A1"; "A2"; "Q1"; "Q2"; "M1"; "M2"].

Definition specEntry : YearEntry :=
  {| table := PStr "T1";
     annual := (PStr "1990", PStr "2020");
     quarterly := (PStr "1999", PStr "2020");
     monthly := (PStr "2015", PStr "2020") |}.

(** One data set, whose parameter list comes as a bare object. *)
Definition nipaPages : list (string * PyVal) :=
  [(datasetListUrl, envelope "Dataset" (PList [nipaDataSet]));
   (nipaParametersUrl, envelope "Parameter" yearParameter);
   (nipaYearUrl, envelope "ParamValue" (PList [entryValue specKeys specEntry]))].

(** The same, the data set list itself coming as a bare object. *)
Definition bareDatasetPages : list (string * PyVal) :=
  [(datasetListUrl, envelope "Dataset" nipaDataSet);
   (nipaParametersUrl, envelope "Parameter" yearParameter);
   (nipaYearUrl, envelope "ParamValue" (PList [entryValue specKeys specEntry]))].

(** The same as [nipaPages], with no valid input for the parameter. *)
Definition emptyInputsPages : list (string * PyVal) :=
  [(datasetListUrl, envelope "Dataset" (PList [nipaDataSet]));
   (nipaParametersUrl, envelope "Parameter" yearParameter);
   (nipaYearUrl, envelope "ParamValue" (PList []))].

Definition april10 : Date := {| year := 2024; month := 4; day := 10 |}.

Definition nipaEnv : Env := steadyEnv 1 (pageOf nipaPages) april10.
Definition bareDatasetEnv : Env := steadyEnv 1 (pageOf bareDatasetPages) april10.
Definition emptyInputsEnv : Env := steadyEnv 1 (pageOf emptyInputsPages) april10.

(** The catalog the builder makes of [nipaPages]. *)
Definition nipaCatalog : list BeaDataSet :=
  [{| dataSetName := PStr "NIPA";
      dataSetDescription := PStr "Standard NIPA tables";
      parameters := PList [PStr "Year"];
      parametersDescriptions := PList [PStr "List of year(s) of data to retrieve"];
      parametersRequiredInRequest := PList [PBool true];
      parametersDefaultValues := PList [PStr "N/a"];
      parametersMultipleValsAcceptedInRequest := PList [PBool true];
      parametersAllValueRequest := PList [PStr "X"];
      parameterInputs := PList [PList [yearRangesValue (assemble specEntry)]];
      parameterInputsDescriptions :=
        PList [PList [yearRangesDescription (assemble specEntry)]] |}].

Definition cacheName : string := "beaDataSets.txt".

Definition february10 : Date := {| year := 2024; month := 2; day := 10 |}.
Definition februaryEnv : Env := steadyEnv 1 (pageOf nipaPages) february10.

(** A cache file dated a year ahead of [february10], in the same quarter,
    with no record. *)
Definition laterYearText : string := "2025-02-01" +:+ nl.

(** [nipaCatalog] with a space at the end of the description. *)
Definition paddedCatalog : list BeaDataSet :=
  [{| dataSetName := PStr "NIPA";
      dataSetDescription := PStr "Standard NIPA tables ";
      parameters := PList [PStr "Year"];
      parametersDescriptions := PList [PStr "List of year(s) of data to retrieve"];
      parametersRequiredInRequest := PList [PBool true];
      parametersDefaultValues := PList [PStr "N/a"];
      parametersMultipleValsAcceptedInRequest := PList [PBool true];
      parametersAllValueRequest := PList [PStr "X"];
      parameterInputs := PList [PList [yearRangesValue (assemble specEntry)]];
      parameterInputsDescriptions :=
        PList [PList [yearRangesDescription (assemble specEntry)]] |}].

(** A cache file dated in the first quarter of 2024, with no record. *)
Definition staleText : string := "2024-02-01" +:+ nl.

(** The client of the sample runs. *)
Definition sampleClient : BeaApiClient := fst (init_default nipaEnv "KEY" world0).

Definition regional : BeaDataSet :=
  newBeaDataSet (PStr "Regional") (PStr "Regional data sets").

(** The lists [extractParamInfo] makes of two parameters, before and after
    [updateParametersLists]. *)
Definition rawDataSet : BeaDataSet :=
  withParameterLists regional
    [PStr "1"; PStr "0"] [PStr ""; PStr "2020"] [PStr "0"; PStr "1"] [PStr "ALL"; PStr ""].

Definition updatedDataSet : BeaDataSet :=
  withParameterLists regional
    [PBool true; PBool false] [PStr "N/a"; PStr "2020"]
    [PBool false; PBool true] [PStr "ALL"; PStr "N/a"].

(** The same with one flag missing. *)
Definition lopsidedDataSet : BeaDataSet :=
  withParameterLists regional
    [PStr "1"; PStr "0"] [PStr ""; PStr "2020"] [PStr "0"] [PStr "ALL"; PStr ""].

(** Valid inputs whose second entry lists its keys the other way round. *)
Definition frequencyInputs : PyVal :=
  PList [PDict [("Key", PStr "A"); ("Desc", PStr "Annual")];
         PDict [("Desc", PStr "Quarterly"); ("Key", PStr "Q")]].

(** Valid inputs whose second entry has no ["Key"]. *)
Definition brokenInputs : PyVal :=
  PList [PDict [("Key", PStr "A"); ("Desc", PStr "Annual")];
         PDict [("Desc", PStr "Quarterly")]].

(** A "Year" entry with two keys only. *)
Definition shortYearInputs : PyVal :=
  PList [PDict [("TableName", PStr "T1"); ("FirstAnnualYear", PStr "1990")]].

(** A data set whose name is [None]. *)
Definition unnamedDataSet : BeaDataSet := newBeaDataSet PNone (PStr "no name").

(** The world with a cache file whose first line is not a date. *)
Definition undatedWorld : World := set_file cacheName "not a date" world0.

(** The world with a cache file of the first quarter. *)
Definition staleWorld : World := set_file cacheName staleText world0.

(** The oracle of [emptyInputsEnv], for which the expression
    [open('nope')] raises [FileNotFoundError]: there is no such file. *)
Definition openingEnv : Env :=
  {| elapsed := elapsed emptyInputsEnv;
     http := http emptyInputsEnv;
     calendar := calendar emptyInputsEnv;
     evaluate := fun s st =>
       if String.eqb s "open('nope')" then Some (Raised FileNotFoundError, st)
       else Some (Raised SyntaxError, st) |}.

(** A cache file of the current quarter whose one record has that
    expression in the place of its first list. *)
Definition openingText : string :=
  "2024-04-01" +:+ nl +:+ "NIPA" +:+ nl +:+ "Standard NIPA tables" +:+ nl
  +:+ "open('nope')" +:+ nl.

Definition openingWorld : World := set_file cacheName openingText world0.

(** Three data sets, the last two with the same name up to letter case and
    white space. *)
Definition twinCatalog : list BeaDataSet :=
  [newBeaDataSet (PStr "Regional") (PStr "Regional data sets");
   newBeaDataSet (PStr "NIPA") (PStr "Standard NIPA tables");
   newBeaDataSet (PStr " nipa ") (PStr "Another data set")].

(** * Properties *)

(** ** Strings *)

#[local] Arguments String.append !s1 s2 : simpl nomatch.

Lemma append_assoc (a b c : string) : (a +:+ b) +:+ c = a +:+ (b +:+ c).
Proof. induction a as [|x a IH]; simpl; [reflexivity|]. rewrite IH. reflexivity. Qed.

Lemma append_nil_r (a : string) : a +:+ "" = a.
Proof. induction a as [|x a IH]; simpl; [reflexivity|]. rewrite IH. reflexivity. Qed.

Lemma length_append (a b : string) :
  String.length (a +:+ b) = (String.length a + String.length b)%nat.
Proof. induction a as [|x a IH]; simpl; [reflexivity|]. rewrite IH. reflexivity. Qed.

Lemma contains_append (c : ascii) (a b : string) :
  contains c (a +:+ b) = contains c a || contains c b.
Proof.
  induction a as [|x a IH]; simpl; [reflexivity|]. rewrite IH, orb_assoc. reflexivity.
Qed.

(** ** [repr], read back *)

Lemma read_str_char (q c : ascii) (s : string) :
  isquote q ->
  read_str q (repr_char q c +:+ s) = cons_char c (read_str q s).
Proof.
  intros [-> | ->];
    destruct c as [[|] [|] [|] [|] [|] [|] [|] [|]]; reflexivity.
Qed.

Lemma read_str_repr (q : ascii) (s rest : string) :
  isquote q ->
  read_str q (repr_chars q s +:+ String q rest) = Some (s, rest).
Proof.
  intros Hq. induction s as [|c s IH]; cbn [repr_chars].
  - cbn. rewrite Ascii.eqb_refl. reflexivity.
  - rewrite append_assoc, read_str_char, IH by exact Hq. reflexivity.
Qed.

Lemma repr_quote_isquote (s : string) : isquote (repr_quote s).
Proof. unfold repr_quote, isquote. destruct (_ && _); auto. Qed.

Lemma span_digits_all (d rest : string) :
  alldigits d = true -> nodigit rest ->
  span_digits (d +:+ rest) = (d, rest).
Proof.
  intros Hd Hr. induction d as [|c d IH]; simpl.
  - destruct rest as [|c r]; [reflexivity|]. simpl in *. rewrite Hr. reflexivity.
  - simpl in Hd. apply andb_prop in Hd as [Hc Hd]. rewrite Hc, (IH Hd). reflexivity.
Qed.

Lemma alldigits_uint (d : uint) : alldigits (NilEmpty.string_of_uint d) = true.
Proof. induction d; simpl; auto. Qed.

Lemma uint_string_nonnil (d : uint) :
  d <> Nil ->
  NilZero.string_of_uint d = NilEmpty.string_of_uint d
  /\ exists c s, NilEmpty.string_of_uint d = String c s /\ isdigit c = true.
Proof.
  intros Hd. destruct d; try congruence; (split; [reflexivity|]);
    simpl; eexists _, _; (split; [reflexivity|reflexivity]).
Qed.

Lemma to_uint_nonnil (z : Z) :
  match Z.to_int z with Pos d | Neg d => d <> Nil end.
Proof.
  destruct z; simpl; [discriminate| |]; apply DecimalPos.Unsigned.to_uint_nonnil.
Qed.

Lemma isdigit_not_minus (c : ascii) : isdigit c = true -> Ascii.eqb c "-" = false.
Proof.
  destruct c as [[|] [|] [|] [|] [|] [|] [|] [|]]; try reflexivity; discriminate.
Qed.

Lemma read_int_pos (c : ascii) (s rest : string) :
  isdigit c = true -> alldigits s = true -> nodigit rest ->
  read_int (String c s +:+ rest)
  = match NilZero.int_of_string (String c s) with
    | Some i =>
        if String.eqb (repr_int (Z.of_int i)) (String c s) then Some (Z.of_int i, rest)
        else None
    | None => None
    end.
Proof.
  intros Hc Hs Hr. unfold read_int. simpl String.append. cbv beta iota.
  rewrite (isdigit_not_minus c Hc).
  change (String c (s +:+ rest)) with (String c s +:+ rest).
  rewrite span_digits_all; [reflexivity| |exact Hr].
  simpl. rewrite Hc, Hs. reflexivity.
Qed.

Lemma read_int_neg (c : ascii) (s rest : string) :
  isdigit c = true -> alldigits s = true -> nodigit rest ->
  read_int (String "-" (String c s) +:+ rest)
  = match NilZero.int_of_string (String "-" (String c s)) with
    | Some i =>
        if String.eqb (repr_int (Z.of_int i)) (String "-" (String c s))
        then Some (Z.of_int i, rest) else None
    | None => None
    end.
Proof.
  intros Hc Hs Hr. unfold read_int. simpl String.append.
  cbv beta iota.
  change (String c (s +:+ rest)) with (String c s +:+ rest).
  change (Ascii.eqb "-" "-") with true. cbv iota.
  rewrite span_digits_all; [reflexivity| |exact Hr].
  simpl. rewrite Hc, Hs. reflexivity.
Qed.

Lemma read_int_repr (z : Z) (rest : string) :
  nodigit rest -> read_int (repr_int z +:+ rest) = Some (z, rest).
Proof.
  intros Hr.
  assert (Hcheck : forall i, Z.of_int i = z ->
            NilZero.string_of_int (Z.to_int z) = NilZero.string_of_int i ->
            String.eqb (repr_int (Z.of_int i)) (NilZero.string_of_int i) = true).
  { intros i Hi Hs. rewrite Hi. unfold repr_int. rewrite Hs. apply String.eqb_refl. }
  unfold repr_int.
  pose proof (DecimalZ.of_to z) as Hz.
  pose proof (to_uint_nonnil z) as Hn.
  assert (Hi : NilZero.int_of_string (NilZero.string_of_int (Z.to_int z)) = Some (Z.to_int z)).
  { apply NilZero.isi; destruct (Z.to_int z); congruence. }
  specialize (Hcheck (Z.to_int z) Hz eq_refl).
  destruct (Z.to_int z) as [d|d]; simpl NilZero.string_of_int in *;
    destruct (uint_string_nonnil d Hn) as (He & c & s & Hs & Hc);
    pose proof (alldigits_uint d) as Ha;
    rewrite He in *; rewrite Hs in *; simpl in Ha; rewrite Hc in Ha.
  - rewrite read_int_pos, Hi, Hcheck, Hz by assumption. reflexivity.
  - rewrite read_int_neg, Hi, Hcheck, Hz by assumption. reflexivity.
Qed.

(** [repr] of an integer starts with a digit or a minus sign and holds
    nothing else. *)
Lemma repr_int_head (z : Z) :
  exists c s, repr_int z = String c s /\ (isdigit c = true \/ c = "-"%char).
Proof.
  unfold repr_int. pose proof (to_uint_nonnil z) as Hn.
  destruct (Z.to_int z) as [d|d]; simpl.
  - destruct (uint_string_nonnil d Hn) as (-> & c & s & -> & Hc). eauto.
  - eauto.
Qed.

Lemma repr_head (v : PyVal) : exists c s, repr v = String c s /\ opens c.
Proof.
  destruct v as [| [|] | z | s | l | kvs]; simpl repr;
    try (eexists _, _; split; [reflexivity|]; repeat split; reflexivity).
  - destruct (repr_int_head z) as (c & s & -> & Hc).
    exists c, s. split; [reflexivity|].
    destruct c as [[|] [|] [|] [|] [|] [|] [|] [|]];
      destruct Hc as [Hc|Hc]; try discriminate; repeat split; reflexivity.
  - unfold repr_str. eexists _, _. split; [reflexivity|].
    destruct (repr_quote_isquote s) as [-> | ->]; repeat split; reflexivity.
Qed.

Lemma skip_blank_opens (c : ascii) (s : string) :
  opens c -> skip_blank (String c s) = String c s.
Proof. intros (Hb & _). simpl. rewrite Hb. reflexivity. Qed.

Lemma skip_blank_repr (v : PyVal) (rest : string) :
  skip_blank (repr v +:+ rest) = repr v +:+ rest.
Proof.
  destruct (repr_head v) as (c & s & -> & Hc). apply skip_blank_opens, Hc.
Qed.

Lemma parse_val_int (f : nat) (c : ascii) (s : string) :
  isdigit c = true \/ c = "-"%char ->
  parse_val (S f) (String c s)
  = match read_int (String c s) with
    | Some (z, r) => Some (PInt z, r)
    | None => None
    end.
Proof.
  intros Hc.
  destruct c as [[|] [|] [|] [|] [|] [|] [|] [|]];
    destruct Hc as [Hc|Hc]; try discriminate; reflexivity.
Qed.

Lemma parse_val_str (f : nat) (q : ascii) (s : string) :
  isquote q ->
  parse_val (S f) (String q s)
  = match read_str q s with
    | Some (t, r) => Some (PStr t, r)
    | None => None
    end.
Proof. intros [-> | ->]; reflexivity. Qed.

Lemma parse_val_list (f : nat) (c : ascii) (s : string) :
  opens c ->
  parse_val (S f) (String "[" (String c s))
  = match parse_items f (String c s) with
    | Some (vs, r) => Some (PList vs, r)
    | None => None
    end.
Proof.
  intros Ho. pose proof Ho as (Hb & Hl & _).
  change (parse_val (S f) (String "[" (String c s)))
    with (match skip_blank (String c s) with
          | String "]" r' => Some (PList [], r')
          | r1 => match parse_items f r1 with
                  | Some (vs, r') => Some (PList vs, r')
                  | None => None
                  end
          end).
  rewrite skip_blank_opens by exact Ho.
  destruct c as [[|] [|] [|] [|] [|] [|] [|] [|]]; try reflexivity; discriminate.
Qed.

Lemma parse_val_dict (f : nat) (c : ascii) (s : string) :
  opens c ->
  parse_val (S f) (String "{" (String c s))
  = match parse_pairs f (String c s) with
    | Some (kvs, r) => Some (PDict (dict_of kvs), r)
    | None => None
    end.
Proof.
  intros Ho. pose proof Ho as (Hb & Hl & Hr).
  change (parse_val (S f) (String "{" (String c s)))
    with (match skip_blank (String c s) with
          | String "}" r' => Some (PDict [], r')
          | r1 => match parse_pairs f r1 with
                  | Some (kvs, r') => Some (PDict (dict_of kvs), r')
                  | None => None
                  end
          end).
  rewrite skip_blank_opens by exact Ho.
  destruct c as [[|] [|] [|] [|] [|] [|] [|] [|]]; try reflexivity; discriminate.
Qed.

Lemma parse_items_S (f : nat) (s : string) :
  parse_items (S f) s
  = match parse_val f s with
    | Some (v, r) =>
        match skip_blank r with
        | String c r' =>
            if Ascii.eqb c "," then
              match parse_items f (skip_blank r') with
              | Some (vs, r'') => Some (v :: vs, r'')
              | None => None
              end
            else if Ascii.eqb c "]" then Some ([v], r')
            else None
        | EmptyString => None
        end
    | None => None
    end.
Proof. reflexivity. Qed.

Lemma parse_pairs_S (f : nat) (q : ascii) (r : string) :
  isquote q ->
  parse_pairs (S f) (String q r)
  = match read_str q r with
    | Some (k, r1) =>
        match skip_blank r1 with
        | String ":" r2 =>
            match parse_val f (skip_blank r2) with
            | Some (v, r3) =>
                match skip_blank r3 with
                | String c r4 =>
                    if Ascii.eqb c "," then
                      match parse_pairs f (skip_blank r4) with
                      | Some (kvs, r5) => Some ((k, v) :: kvs, r5)
                      | None => None
                      end
                    else if Ascii.eqb c "}" then Some ([(k, v)], r4)
                    else None
                | EmptyString => None
                end
            | None => None
            end
        | _ => None
        end
    | None => None
    end.
Proof. intros [-> | ->]; reflexivity. Qed.

Lemma skip_blank_join (l : list PyVal) (rest : string) :
  l <> [] ->
  skip_blank (join_comma (map repr l) +:+ rest) = join_comma (map repr l) +:+ rest.
Proof.
  destruct l as [|v [|v' l]]; [congruence| |]; intros _; simpl map; simpl join_comma.
  - apply skip_blank_repr.
  - rewrite append_assoc. apply skip_blank_repr.
Qed.

Lemma items_read_back (l : list PyVal) :
  Forall reads_back l -> l <> [] ->
  forall f rest,
    (S (String.length (join_comma (map repr l))) <= f)%nat ->
    parse_items f (join_comma (map repr l) +:+ String "]" rest) = Some (l, rest).
Proof.
  induction l as [|v l IH]; intros Hall Hne f rest Hf; [congruence|].
  apply Forall_cons in Hall as [Hv Hl].
  destruct f as [|f]; [lia|]. rewrite parse_items_S.
  destruct l as [|v' l].
  - simpl map in *. simpl join_comma in *.
    rewrite (Hv f (String "]" rest)) by (simpl; lia || reflexivity).
    reflexivity.
  - change (join_comma (map repr (v :: v' :: l)))
      with (repr v +:+ ", " +:+ join_comma (map repr (v' :: l))) in *.
    specialize (IH Hl ltac:(discriminate)).
    pose proof (skip_blank_join (v' :: l) (String "]" rest) ltac:(discriminate)) as Hs.
    remember (join_comma (map repr (v' :: l))) as J eqn:HJ. clear HJ.
    rewrite !length_append in Hf. simpl String.length in Hf.
    rewrite !append_assoc. simpl String.append.
    rewrite (Hv f) by (simpl; lia || reflexivity).
    simpl skip_blank at 1. cbv beta iota.
    change (Ascii.eqb "," ",") with true. cbv iota.
    change (skip_blank (String " " (J +:+ String "]" rest)))
      with (skip_blank (J +:+ String "]" rest)).
    rewrite Hs, IH by lia. reflexivity.
Qed.

Lemma join_comma_head (x : string) (l : list string) :
  exists t, join_comma (x :: l) = x +:+ t.
Proof.
  destruct l as [|y l].
  - exists ""%string. simpl. rewrite append_nil_r. reflexivity.
  - eexists. reflexivity.
Qed.

Lemma items_head (kvs : list (string * PyVal)) :
  kvs <> [] ->
  exists c s, join_comma (map repr_item kvs) = String c s /\ opens c.
Proof.
  destruct kvs as [|kv kvs]; [congruence|]. intros _.
  destruct (join_comma_head (repr_item kv) (map repr_item kvs)) as (t & Ht).
  change (map repr_item (kv :: kvs)) with (repr_item kv :: map repr_item kvs).
  rewrite Ht. unfold repr_item.
  destruct (repr_head (PStr (fst kv))) as (c & s & Hk & Hc). simpl repr in Hk.
  rewrite Hk. simpl. eauto.
Qed.

Lemma skip_blank_items (kvs : list (string * PyVal)) (rest : string) :
  kvs <> [] ->
  skip_blank (join_comma (map repr_item kvs) +:+ rest)
  = join_comma (map repr_item kvs) +:+ rest.
Proof.
  intros Hne. destruct (items_head kvs Hne) as (c & s & -> & Hc).
  apply skip_blank_opens, Hc.
Qed.

Lemma pairs_read_back (kvs : list (string * PyVal)) :
  Forall (fun kv => reads_back (snd kv)) kvs -> kvs <> [] ->
  forall f rest,
    (S (String.length (join_comma (map repr_item kvs))) <= f)%nat ->
    parse_pairs f (join_comma (map repr_item kvs) +:+ String "}" rest) = Some (kvs, rest).
Proof.
  induction kvs as [|[k v] kvs IH]; intros Hall Hne f rest Hf; [congruence|].
  apply Forall_cons in Hall as [Hv Hl]. simpl snd in Hv.
  destruct f as [|f]; [lia|].
  assert (Hhead : forall tail,
    (String.length (repr v) <= f)%nat -> nodigit tail ->
    parse_pairs (S f) (repr_item (k, v) +:+ tail)
    = match skip_blank tail with
      | String c r4 =>
          if Ascii.eqb c "," then
            match parse_pairs f (skip_blank r4) with
            | Some (kvs, r5) => Some ((k, v) :: kvs, r5)
            | None => None
            end
          else if Ascii.eqb c "}" then Some ([(k, v)], r4)
          else None
      | EmptyString => None
      end).
  { intros tail Hlen Htail. unfold repr_item, repr_str. simpl fst. simpl snd.
    simpl String.append.
    rewrite parse_pairs_S by apply repr_quote_isquote.
    rewrite !append_assoc. simpl String.append.
    rewrite read_str_repr by apply repr_quote_isquote.
    simpl skip_blank at 1. cbv beta iota.
    change (skip_blank (String " " (repr v +:+ tail))) with (skip_blank (repr v +:+ tail)).
    rewrite skip_blank_repr, (Hv f tail) by assumption. reflexivity. }
  assert (Hlen : forall t, String.length (repr_item (k, v) +:+ t)
                 = (String.length (repr_str k) + 2 + String.length (repr v)
                    + String.length t)%nat).
  { intros t. unfold repr_item. simpl fst. simpl snd.
    rewrite !length_append. simpl String.length. lia. }
  destruct kvs as [|kv' kvs].
  - change (join_comma (map repr_item [(k, v)])) with (repr_item (k, v)) in *.
    rewrite <- (append_nil_r (repr_item (k, v))) in Hf. rewrite Hlen in Hf.
    rewrite Hhead by (lia || reflexivity). reflexivity.
  - change (join_comma (map repr_item ((k, v) :: kv' :: kvs)))
      with (repr_item (k, v) +:+ ", " +:+ join_comma (map repr_item (kv' :: kvs))) in *.
    specialize (IH Hl ltac:(discriminate)).
    pose proof (skip_blank_items (kv' :: kvs) (String "}" rest) ltac:(discriminate)) as Hs.
    remember (join_comma (map repr_item (kv' :: kvs))) as J eqn:HJ. clear HJ.
    rewrite Hlen, length_append in Hf. simpl String.length in Hf.
    rewrite append_assoc.
    rewrite Hhead by (lia || reflexivity).
    rewrite append_assoc. simpl String.append.
    simpl skip_blank at 1. cbv beta iota.
    change (Ascii.eqb "," ",") with true. cbv iota.
    change (skip_blank (String " " (J +:+ String "}" rest)))
      with (skip_blank (J +:+ String "}" rest)).
    rewrite Hs, IH by lia. reflexivity.
Qed.

Lemma dict_set_fresh (k : string) (v : PyVal) (d : list (string * PyVal)) :
  k ∉ map fst d -> dict_set k v d = d ++ [(k, v)].
Proof.
  induction d as [|[k' v'] d IH]; intros Hk; simpl; [reflexivity|].
  simpl in Hk. apply not_elem_of_cons in Hk as [Hne Hk].
  destruct (String.eqb_spec k k') as [->|_]; [congruence|].
  rewrite IH by exact Hk. reflexivity.
Qed.

Lemma dict_of_nodup (items acc : list (string * PyVal)) :
  NoDup (map fst (acc ++ items)) ->
  fold_left (fun d kv => dict_set (fst kv) (snd kv) d) items acc = acc ++ items.
Proof.
  revert acc. induction items as [|[k v] items IH]; intros acc Hnd; simpl.
  - rewrite app_nil_r. reflexivity.
  - rewrite dict_set_fresh.
    + rewrite IH; rewrite <- app_assoc; [reflexivity|exact Hnd].
    + rewrite map_app in Hnd. apply NoDup_app in Hnd as (_ & Hd & _).
      intros Hin. apply (Hd k Hin). simpl. left.
Qed.

Lemma repr_list (l : list PyVal) :
  repr (PList l) = String "[" (join_comma (map repr l) +:+ "]").
Proof. reflexivity. Qed.

Lemma repr_dict (kvs : list (string * PyVal)) :
  repr (PDict kvs) = String "{" (join_comma (map repr_item kvs) +:+ "}").
Proof. reflexivity. Qed.

Lemma items_values_head (l : list PyVal) :
  l <> [] -> exists c s, join_comma (map repr l) = String c s /\ opens c.
Proof.
  destruct l as [|v l]; [congruence|]. intros _.
  destruct (join_comma_head (repr v) (map repr l)) as (t & Ht).
  change (map repr (v :: l)) with (repr v :: map repr l). rewrite Ht.
  destruct (repr_head v) as (c & s & -> & Hc). simpl. eauto.
Qed.

(** The text of a well-formed value is read back as the value. *)
Lemma parse_val_repr (v : PyVal) : wf v = true -> reads_back v.
Proof.
  induction v as [| b | z | s | l IH | kvs IH] using PyVal_ind;
    intros Hwf fuel rest Hfuel Hrest.
  - destruct fuel; [simpl in Hfuel; lia|]. reflexivity.
  - destruct fuel; [destruct b; simpl in Hfuel; lia|]. destruct b; reflexivity.
  - simpl repr in *. destruct (repr_int_head z) as (c & s & Hz & Hc).
    destruct fuel; [rewrite Hz in Hfuel; simpl in Hfuel; lia|].
    pose proof (read_int_repr z rest Hrest) as Hr.
    rewrite Hz in *. simpl String.append in *.
    rewrite parse_val_int, Hr by exact Hc. reflexivity.
  - simpl repr in *. unfold repr_str in *.
    destruct fuel; [simpl in Hfuel; lia|]. simpl String.append.
    rewrite parse_val_str by apply repr_quote_isquote.
    rewrite append_assoc. simpl String.append.
    rewrite read_str_repr by apply repr_quote_isquote. reflexivity.
  - simpl in Hwf. rewrite repr_list in *.
    destruct fuel; [simpl in Hfuel; lia|].
    assert (Hall : Forall reads_back l).
    { rewrite forallb_forall in Hwf. rewrite Forall_forall in IH |- *.
      intros x Hx. apply IH; [exact Hx|]. apply Hwf, list_elem_of_In, Hx. }
    destruct l as [|v l]; [reflexivity|].
    pose proof (items_read_back (v :: l) Hall ltac:(discriminate) fuel rest) as Hi.
    destruct (items_values_head (v :: l) ltac:(discriminate)) as (c & s & HJ & Hc).
    rewrite HJ in *. clear HJ.
    simpl String.length in Hfuel. rewrite length_append in Hfuel.
    simpl String.length in Hfuel.
    simpl String.append. rewrite append_assoc. simpl String.append in *.
    rewrite parse_val_list by exact Hc. rewrite Hi by (simpl in *; lia). reflexivity.
  - simpl in Hwf. apply andb_prop in Hwf as [Hnd Hwf].
    apply bool_decide_eq_true in Hnd. rewrite repr_dict in *.
    destruct fuel; [simpl in Hfuel; lia|].
    assert (Hall : Forall (fun kv => reads_back (snd kv)) kvs).
    { rewrite forallb_forall in Hwf. rewrite Forall_forall in IH |- *.
      intros x Hx. apply IH; [exact Hx|]. apply Hwf, list_elem_of_In, Hx. }
    destruct kvs as [|kv kvs]; [reflexivity|].
    pose proof (pairs_read_back (kv :: kvs) Hall ltac:(discriminate) fuel rest) as Hi.
    destruct (items_head (kv :: kvs) ltac:(discriminate)) as (c & s & HJ & Hc).
    rewrite HJ in *. clear HJ.
    simpl String.length in Hfuel. rewrite length_append in Hfuel.
    simpl String.length in Hfuel.
    simpl String.append. rewrite append_assoc. simpl String.append in *.
    rewrite parse_val_dict by exact Hc. rewrite Hi by (simpl in *; lia).
    unfold dict_of. rewrite (dict_of_nodup (kv :: kvs) []) by exact Hnd. reflexivity.
Qed.

(** The text of a well-formed value is recognised as such. *)
Lemma literal_repr (v : PyVal) : wf v = true -> literal (repr v) = Some v.
Proof.
  intros Hwf. unfold literal.
  pose proof (parse_val_repr v Hwf (String.length (repr v)) "" ltac:(lia) I) as Hp.
  rewrite append_nil_r in Hp. rewrite Hp, Hwf, String.eqb_refl. reflexivity.
Qed.

(** A text that is recognised is the text of the value. *)
Lemma literal_Some (s : string) (v : PyVal) :
  literal s = Some v -> wf v = true /\ repr v = s.
Proof.
  unfold literal. intros H.
  destruct (parse_val _ _) as [[v' [|? ?]]|]; try discriminate.
  destruct (wf v') eqn:Hwf; [|discriminate].
  destruct (String.eqb_spec (repr v') s) as [Hs|]; [|discriminate].
  injection H as <-. auto.
Qed.

(** [eval] of the text of a well-formed value returns the value and does
    nothing else. *)
Lemma py_eval_repr (E : Env) (v : PyVal) : wf v = true -> py_eval E (repr v) = mret v.
Proof. intros Hwf. unfold py_eval. rewrite literal_repr by exact Hwf. reflexivity. Qed.

(** ** Lines *)

Lemma rstrip_newline (s : string) : rstrip (s +:+ nl) = rstrip s.
Proof.
  induction s as [|c s IH]; [reflexivity|].
  simpl String.append. simpl rstrip. rewrite IH. reflexivity.
Qed.

Lemma strip_line (s : string) : strip (s +:+ nl) = strip s.
Proof. unfold strip. rewrite rstrip_newline. reflexivity. Qed.

Lemma rstrip_last (s : string) (c : ascii) :
  isspace c = false -> rstrip (s +:+ String c "") = s +:+ String c "".
Proof.
  intros Hc. induction s as [|x s IH]; simpl String.append; simpl rstrip.
  - rewrite Hc. reflexivity.
  - rewrite IH. destruct s; reflexivity.
Qed.

Lemma split_lines_line (s rest : string) :
  contains newline s = false ->
  split_lines ((s +:+ nl) +:+ rest) = (s +:+ nl) :: split_lines rest.
Proof.
  induction s as [|c s IH]; intros Hs; [reflexivity|].
  cbn [contains] in Hs. apply orb_false_elim in Hs as [Hc Hs].
  cbn [String.append split_lines].
  rewrite Ascii.eqb_sym, Hc. cbn [String.append] in IH. rewrite (IH Hs). reflexivity.
Qed.

Lemma universal_newlines_id (s : string) :
  contains creturn s = false -> universal_newlines s = s.
Proof.
  induction s as [|c s IH]; intros Hs; [reflexivity|].
  cbn [contains] in Hs. apply orb_false_elim in Hs as [Hc Hs].
  cbn [universal_newlines]. rewrite Ascii.eqb_sym, Hc, (IH Hs). reflexivity.
Qed.

(** ** What [repr] writes holds no line break *)

Lemma plain_append (a b : string) : plain a -> plain b -> plain (a +:+ b).
Proof.
  unfold plain. rewrite !contains_append. intros [-> ->] [-> ->]. auto.
Qed.

Lemma plain_cons (c : ascii) (s : string) :
  Ascii.eqb newline c = false -> Ascii.eqb creturn c = false -> plain s ->
  plain (String c s).
Proof. unfold plain. cbn [contains]. intros -> -> [-> ->]. auto. Qed.

Lemma plain_nil : plain "".
Proof. split; reflexivity. Qed.

Lemma plain_repr_char (q c : ascii) : isquote q -> plain (repr_char q c).
Proof.
  intros [-> | ->];
    destruct c as [[|] [|] [|] [|] [|] [|] [|] [|]]; split; reflexivity.
Qed.

Lemma plain_repr_chars (q : ascii) (s : string) : isquote q -> plain (repr_chars q s).
Proof.
  intros Hq. induction s as [|c s IH]; simpl; [apply plain_nil|].
  apply plain_append; [apply plain_repr_char, Hq|exact IH].
Qed.

Lemma plain_repr_str (s : string) : plain (repr_str s).
Proof.
  unfold repr_str. pose proof (repr_quote_isquote s) as Hq.
  apply plain_cons; [destruct Hq as [-> | ->]; reflexivity ..|].
  apply plain_append; [apply plain_repr_chars, Hq|].
  apply plain_cons; [destruct Hq as [-> | ->]; reflexivity ..|apply plain_nil].
Qed.

Lemma plain_digits (s : string) : alldigits s = true -> plain s.
Proof.
  induction s as [|c s IH]; intros H; [apply plain_nil|].
  simpl in H. apply andb_prop in H as [Hc Hs].
  apply plain_cons; [| |exact (IH Hs)];
    destruct c as [[|] [|] [|] [|] [|] [|] [|] [|]]; try reflexivity; discriminate.
Qed.

Lemma plain_repr_int (z : Z) : plain (repr_int z).
Proof.
  unfold repr_int. pose proof (to_uint_nonnil z) as Hn.
  destruct (Z.to_int z) as [d|d]; simpl NilZero.string_of_int;
    destruct (uint_string_nonnil d Hn) as (-> & _).
  - apply plain_digits, alldigits_uint.
  - apply plain_cons; [reflexivity..|]. apply plain_digits, alldigits_uint.
Qed.

Lemma plain_join (items : list string) :
  Forall plain items -> plain (join_comma items).
Proof.
  induction items as [|x [|y items] IH]; intros H.
  - apply plain_nil.
  - apply Forall_cons in H as [Hx _]. exact Hx.
  - apply Forall_cons in H as [Hx H].
    change (join_comma (x :: y :: items)) with (x +:+ ", " +:+ join_comma (y :: items)).
    apply plain_append; [exact Hx|].
    apply plain_cons; [reflexivity..|]. apply plain_cons; [reflexivity..|]. exact (IH H).
Qed.

Lemma plain_repr (v : PyVal) : plain (repr v).
Proof.
  induction v as [| b | z | s | l IH | kvs IH] using PyVal_ind.
  - split; reflexivity.
  - destruct b; split; reflexivity.
  - apply plain_repr_int.
  - apply plain_repr_str.
  - rewrite repr_list. apply plain_cons; [reflexivity..|].
    apply plain_append; [|split; reflexivity].
    apply plain_join. apply Forall_map. exact IH.
  - rewrite repr_dict. apply plain_cons; [reflexivity..|].
    apply plain_append; [|split; reflexivity].
    apply plain_join. apply Forall_map.
    eapply Forall_impl; [exact IH|]. intros [k v] Hv. unfold repr_item.
    apply plain_append; [apply plain_repr_str|].
    apply plain_cons; [reflexivity..|]. apply plain_cons; [reflexivity..|]. exact Hv.
Qed.

(** A list line read back. *)
Lemma strip_repr_list (l : list PyVal) :
  strip (repr (PList l) +:+ nl) = repr (PList l).
Proof.
  rewrite strip_line. unfold strip. rewrite repr_list.
  change (String "[" (join_comma (map repr l) +:+ "]"))
    with ((String "[" (join_comma (map repr l))) +:+ "]").
  rewrite rstrip_last by reflexivity. reflexivity.
Qed.

Lemma parseList_repr (E : Env) (v : PyVal) :
  listAttribute v = true -> parseList E (py_str v +:+ nl) = mret v.
Proof.
  destruct v as [| | | |l|]; try discriminate. intros Hwf.
  unfold parseList. change (py_str (PList l)) with (repr (PList l)).
  rewrite strip_repr_list, repr_list. cbv iota.
  rewrite <- repr_list. apply py_eval_repr. exact Hwf.
Qed.

(** ** The read loop on what the write loop wrote *)

Lemma tidy_spec (s : string) :
  tidy s = true -> plain s /\ strip s = s.
Proof.
  unfold tidy, plain. rewrite !andb_true_iff, !negb_true_iff, String.eqb_eq. tauto.
Qed.

Lemma readBlocks_end (E : Env) (rounds : nat) (acc : list BeaDataSet) :
  readBlocks E rounds [] acc = mret acc.
Proof. destruct rounds; reflexivity. Qed.

(** A record that the write loop wrote is read without a question to the
    oracle. *)
Lemma readBlocks_block (E : Env) (rounds : nat) (d : BeaDataSet) (more : list string)
    (acc : list BeaDataSet) :
  storable d = true ->
  readBlocks E (S rounds) (blockLines d ++ more) acc
  = readBlocks E rounds more (acc ++ [d]).
Proof.
  destruct d as [name descr f1 f2 f3 f4 f5 f6 f7 f8]. unfold storable.
  cbn [dataSetName dataSetDescription parameters parametersDescriptions
       parametersRequiredInRequest parametersDefaultValues
       parametersMultipleValsAcceptedInRequest parametersAllValueRequest
       parameterInputs parameterInputsDescriptions].
  destruct name as [| | |n| |]; try discriminate.
  destruct descr as [| | |t| |]; try discriminate.
  rewrite !andb_true_iff, negb_true_iff.
  intros ((((((((((Hn & Hne) & Ht) & H1) & H2) & H3) & H4) & H5) & H6) & H7) & H8).
  apply tidy_spec in Hn as [_ Hn]. apply tidy_spec in Ht as [_ Ht].
  unfold blockLines.
  cbn [dataSetName dataSetDescription parameters parametersDescriptions
       parametersRequiredInRequest parametersDefaultValues
       parametersMultipleValsAcceptedInRequest parametersAllValueRequest
       parameterInputs parameterInputsDescriptions app readBlocks readline].
  change (py_str (PStr n)) with n. change (py_str (PStr t)) with t.
  rewrite !strip_line, Hn, Ht.
  rewrite !parseList_repr by assumption.
  destruct n as [|c n]; [discriminate|]. reflexivity.
Qed.

Lemma readBlocks_blocks (E : Env) (ds : list BeaDataSet) :
  forall rounds acc,
    (length ds <= rounds)%nat ->
    Forall (fun d => storable d = true) ds ->
    readBlocks E rounds (concat (map blockLines ds)) acc = mret (acc ++ ds).
Proof.
  induction ds as [|d ds IH]; intros rounds acc Hr Hall.
  - rewrite app_nil_r. apply readBlocks_end.
  - apply Forall_cons in Hall as [Hd Hall].
    destruct rounds as [|rounds]; [simpl in Hr; lia|].
    change (concat (map blockLines (d :: ds)))
      with (blockLines d ++ concat (map blockLines ds)).
    rewrite readBlocks_block by exact Hd.
    rewrite IH by (simpl in Hr; lia || assumption).
    rewrite <- app_assoc. reflexivity.
Qed.

Lemma length_blocks (ds : list BeaDataSet) :
  length (concat (map blockLines ds)) = (11 * length ds)%nat.
Proof.
  induction ds as [|d ds IH]; [reflexivity|].
  change (concat (map blockLines (d :: ds)))
    with (blockLines d ++ concat (map blockLines ds)).
  rewrite length_app, IH. simpl length. lia.
Qed.

(** The lines of the text are the lines that were written. *)
Lemma split_concat_lines (lines : list string) :
  Forall (fun l => exists s, l = s +:+ nl /\ contains newline s = false) lines ->
  split_lines (concat_lines lines) = lines.
Proof.
  induction lines as [|l lines IH]; intros H; [reflexivity|].
  apply Forall_cons in H as [(s & -> & Hs) H].
  cbn [concat_lines]. rewrite split_lines_line by exact Hs. rewrite IH by exact H.
  reflexivity.
Qed.

Lemma plain_py_str_list (v : PyVal) : listAttribute v = true -> plain (py_str v).
Proof.
  destruct v; try discriminate. intros _. apply (plain_repr (PList l)).
Qed.

Lemma blockLines_lines (d : BeaDataSet) :
  storable d = true ->
  Forall (fun l => exists s, l = s +:+ nl /\ plain s) (blockLines d).
Proof.
  destruct d as [name descr f1 f2 f3 f4 f5 f6 f7 f8]. unfold storable.
  cbn [dataSetName dataSetDescription parameters parametersDescriptions
       parametersRequiredInRequest parametersDefaultValues
       parametersMultipleValsAcceptedInRequest parametersAllValueRequest
       parameterInputs parameterInputsDescriptions].
  destruct name as [| | |n| |]; try discriminate.
  destruct descr as [| | |t| |]; try discriminate.
  rewrite !andb_true_iff, negb_true_iff.
  intros ((((((((((Hn & Hne) & Ht) & H1) & H2) & H3) & H4) & H5) & H6) & H7) & H8).
  apply tidy_spec in Hn as [Hn _]. apply tidy_spec in Ht as [Ht _].
  unfold blockLines.
  cbn [dataSetName dataSetDescription parameters parametersDescriptions
       parametersRequiredInRequest parametersDefaultValues
       parametersMultipleValsAcceptedInRequest parametersAllValueRequest
       parameterInputs parameterInputsDescriptions].
  repeat (apply List.Forall_cons;
          [eexists; split; [reflexivity|];
           first [assumption | apply plain_py_str_list; assumption]|]).
  apply List.Forall_cons; [|apply List.Forall_nil].
  exists (String "000" ""). split; [reflexivity|split; reflexivity].
Qed.

(** ** The date line *)

Lemma digit_char_spec (a : Z) :
  0 <= a < 10 ->
  isdigit (digit_char a) = true
  /\ digit_val (digit_char a) = Some a
  /\ isspace (digit_char a) = false
  /\ Ascii.eqb (digit_char a) "-" = false
  /\ Ascii.eqb (digit_char a) " " = false
  /\ Ascii.eqb newline (digit_char a) = false
  /\ Ascii.eqb creturn (digit_char a) = false.
Proof.
  intros Ha.
  assert (a = 0 \/ a = 1 \/ a = 2 \/ a = 3 \/ a = 4 \/ a = 5 \/ a = 6 \/ a = 7
          \/ a = 8 \/ a = 9) as Hcases by lia.
  repeat (destruct Hcases as [-> | Hcases]; [repeat split; reflexivity|]).
  subst a. repeat split; reflexivity.
Qed.

Lemma strptime_strftime (d : Date) :
  validDate d = true -> strptime (strftime d) = Returned d.
Proof.
  intros Hv. pose proof Hv as Hv'. unfold validDate in Hv'.
  rewrite !andb_true_iff, !Z.leb_le in Hv'.
  destruct Hv' as (((((Hy1 & Hy2) & Hm1) & Hm2) & Hd1) & Hd2).
  assert (Hd3 : day d <= 31).
  { unfold daysInMonth in Hd2.
    repeat match type of Hd2 with context [if ?b then _ else _] => destruct b end; lia. }
  destruct d as [y m dd]. cbn [year month day] in *.
  set (a := y / 100 / 10 mod 10). set (b := y / 100 mod 10).
  set (c := y / 10 mod 10). set (e := y mod 10).
  set (m1 := m / 10 mod 10). set (m2 := m mod 10).
  set (d1 := dd / 10 mod 10). set (d2 := dd mod 10).
  assert (Ha : 0 <= a < 10) by (apply Z.mod_pos_bound; lia).
  assert (Hb : 0 <= b < 10) by (apply Z.mod_pos_bound; lia).
  assert (Hc : 0 <= c < 10) by (apply Z.mod_pos_bound; lia).
  assert (He : 0 <= e < 10) by (apply Z.mod_pos_bound; lia).
  assert (Hm1' : 0 <= m1 < 10) by (apply Z.mod_pos_bound; lia).
  assert (Hm2' : 0 <= m2 < 10) by (apply Z.mod_pos_bound; lia).
  assert (Hd1' : 0 <= d1 < 10) by (apply Z.mod_pos_bound; lia).
  assert (Hd2' : 0 <= d2 < 10) by (apply Z.mod_pos_bound; lia).
  assert (Hy : 1000 * a + 100 * b + 10 * c + e = y).
  { subst a b c e. clear -Hy1 Hy2.
    pose proof (Z.div_mod y 10 ltac:(lia)). pose proof (Z.mod_pos_bound y 10 ltac:(lia)).
    pose proof (Z.div_mod (y / 10) 10 ltac:(lia)).
    pose proof (Z.mod_pos_bound (y / 10) 10 ltac:(lia)).
    pose proof (Z.div_mod (y / 100) 10 ltac:(lia)).
    pose proof (Z.mod_pos_bound (y / 100) 10 ltac:(lia)).
    pose proof (Z.div_mod (y / 100 / 10) 10 ltac:(lia)).
    pose proof (Z.mod_pos_bound (y / 100 / 10) 10 ltac:(lia)).
    assert (y / 100 = y / 10 / 10) by (rewrite Z.div_div by lia; reflexivity).
    assert (y / 100 / 10 / 10 = 0).
    { rewrite !Z.div_div by lia. apply Z.div_small. lia. }
    lia. }
  assert (Hm : (m1 = 1 /\ m2 <= 2 \/ m1 = 0 /\ 1 <= m2) /\ 10 * m1 + m2 = m).
  { subst m1 m2. clear -Hm1 Hm2.
    pose proof (Z.div_mod m 10 ltac:(lia)). pose proof (Z.mod_pos_bound m 10 ltac:(lia)).
    assert (m / 10 = 0 \/ m / 10 = 1) as [Hq | Hq].
    { assert (0 <= m / 10 < 2) by (split; [apply Z.div_pos; lia|apply Z.div_lt_upper_bound; lia]). lia. }
    all: rewrite Hq in *; change (0 mod 10) with 0; change (1 mod 10) with 1; lia. }
  assert (Hdd : (d1 = 3 /\ d2 <= 1 \/ d1 = 1 \/ d1 = 2 \/ d1 = 0 /\ 1 <= d2)
                /\ 10 * d1 + d2 = dd).
  { subst d1 d2. clear -Hd1 Hd3.
    pose proof (Z.div_mod dd 10 ltac:(lia)). pose proof (Z.mod_pos_bound dd 10 ltac:(lia)).
    assert (0 <= dd / 10 < 4) as Hq
      by (split; [apply Z.div_pos; lia|apply Z.div_lt_upper_bound; lia]).
    assert (dd / 10 mod 10 = dd / 10) as -> by (apply Z.mod_small; lia). lia. }
  destruct (digit_char_spec a Ha) as (_ & Hva & _).
  destruct (digit_char_spec b Hb) as (_ & Hvb & _).
  destruct (digit_char_spec c Hc) as (_ & Hvc & _).
  destruct (digit_char_spec e He) as (_ & Hve & _).
  destruct (digit_char_spec m1 Hm1') as (_ & Hvm1 & _ & Hdm1 & _).
  destruct (digit_char_spec m2 Hm2') as (_ & Hvm2 & _ & Hdm2 & _).
  destruct (digit_char_spec d1 Hd1') as (_ & Hvd1 & _ & _ & Hsd1 & _).
  destruct (digit_char_spec d2 Hd2') as (_ & Hvd2 & _).
  unfold strftime, two_digits. cbn [year month day String.append strptime].
  fold a b c e m1 m2 d1 d2.
  rewrite Hva, Hvb, Hvc, Hve.
  cbn [cut_dash]. rewrite Hdm1, Hdm2.
  change (Ascii.eqb "-" "-") with true. cbv iota. cbn [month_field day_field].
  rewrite Hvm1, Hvm2, Hvd1, Hvd2. cbn [mbind option_bind]. rewrite Hsd1.
  destruct Hm as [Hmc Hm], Hdd as [Hdc Hdd].
  assert ((m1 =? 1) && (m2 <=? 2) || (m1 =? 0) && (1 <=? m2) = true) as ->.
  { destruct Hmc as [[-> Hx] | [-> Hx]]; apply Z.leb_le in Hx; rewrite Hx; reflexivity. }
  assert ((d1 =? 3) && (d2 <=? 1) || (d1 =? 1) || (d1 =? 2) || (d1 =? 0) && (1 <=? d2) = true)
    as ->.
  { destruct Hdc as [[-> Hx] | [-> | [-> | [-> Hx]]]];
      try (apply Z.leb_le in Hx; rewrite Hx); try reflexivity;
      rewrite ?orb_true_r; reflexivity. }
  rewrite Hy, Hm, Hdd, Hv. reflexivity.
Qed.

Lemma strftime_line (d : Date) :
  validDate d = true ->
  plain (strftime d) /\ strip (strftime d +:+ nl) = strftime d.
Proof.
  intros Hv. unfold strftime, two_digits.
  assert (Hb : forall n, 0 <= n mod 10 < 10) by (intros n; apply Z.mod_pos_bound; lia).
  pose proof (digit_char_spec _ (Hb (year d / 100 / 10))) as (_ & _ & Hs1 & _ & _ & Hn1 & Hr1).
  pose proof (digit_char_spec _ (Hb (year d / 100))) as (_ & _ & _ & _ & _ & Hn2 & Hr2).
  pose proof (digit_char_spec _ (Hb (year d / 10))) as (_ & _ & _ & _ & _ & Hn3 & Hr3).
  pose proof (digit_char_spec _ (Hb (year d))) as (_ & _ & _ & _ & _ & Hn4 & Hr4).
  pose proof (digit_char_spec _ (Hb (month d / 10))) as (_ & _ & _ & _ & _ & Hn5 & Hr5).
  pose proof (digit_char_spec _ (Hb (month d))) as (_ & _ & _ & _ & _ & Hn6 & Hr6).
  pose proof (digit_char_spec _ (Hb (day d / 10))) as (_ & _ & _ & _ & _ & Hn7 & Hr7).
  pose proof (digit_char_spec _ (Hb (day d))) as (_ & _ & Hs8 & _ & _ & Hn8 & Hr8).
  split.
  - cbn [String.append].
    repeat (apply plain_cons; [assumption || reflexivity ..|]). apply plain_nil.
  - rewrite strip_line. unfold strip. cbn [String.append].
    match goal with |- context [rstrip ?s] =>
      match s with
      | String ?c1 (String ?c2 (String ?c3 (String ?c4 (String ?c5 (String ?c6
          (String ?c7 (String ?c8 (String ?c9 (String ?c10 ""))))))))) =>
          change s with (String c1 (String c2 (String c3 (String c4 (String c5 (String c6
                          (String c7 (String c8 (String c9 ""))))))))
                         +:+ String c10 "")
      end
    end.
    rewrite rstrip_last by exact Hs8.
    cbn [String.append lstrip]. rewrite Hs1. reflexivity.
Qed.

(** ** Writing *)

Lemma set_file_set_file (f a b : string) (w : World) :
  set_file f b (set_file f a w) = set_file f b w.
Proof. unfold set_file. cbn. rewrite insert_insert_eq. reflexivity. Qed.

Lemma write_set_file (f cur t : string) (c : BeaApiClient) (w : World) :
  write f t (c, set_file f cur w) = Some (Returned tt, (c, set_file f (cur +:+ t) w)).
Proof.
  unfold write. cbn [files set_file]. rewrite lookup_insert_eq. cbn [default].
  rewrite set_file_set_file. reflexivity.
Qed.

Lemma IO_bind_returned {A B : Type} (m : IO A) (k : A -> IO B) st a st' :
  m st = Some (Returned a, st') -> (m ≫= k) st = k a st'.
Proof. intros H. unfold mbind, IO_bind. rewrite H. reflexivity. Qed.

Lemma lift_bind {A B : Type} (a : A) (k : A -> IO B) st :
  (lift (Returned a) ≫= k) st = k a st.
Proof. reflexivity. Qed.

Lemma storable_textNamed (d : BeaDataSet) : storable d = true -> textNamed d = true.
Proof.
  unfold storable, textNamed.
  destruct (dataSetName d); try discriminate.
  destruct (dataSetDescription d); try discriminate. reflexivity.
Qed.

Lemma writeDataSet_text (f cur : string) (d : BeaDataSet) (c : BeaApiClient) (w : World) :
  textNamed d = true ->
  writeDataSet f d (c, set_file f cur w)
  = Some (Returned tt, (c, set_file f (cur +:+ concat_lines (blockLines d)) w)).
Proof.
  destruct d as [name descr f1 f2 f3 f4 f5 f6 f7 f8]. unfold textNamed.
  cbn [dataSetName dataSetDescription].
  destruct name as [| | |n| |]; try discriminate.
  destruct descr as [| | |t| |]; try discriminate. intros _.
  unfold writeDataSet, blockLines.
  cbn [dataSetName dataSetDescription parameters parametersDescriptions
       parametersRequiredInRequest parametersDefaultValues
       parametersMultipleValsAcceptedInRequest parametersAllValueRequest
       parameterInputs parameterInputsDescriptions line_of concat_lines].
  change (py_str (PStr n)) with n. change (py_str (PStr t)) with t.
  rewrite lift_bind. erewrite IO_bind_returned by apply write_set_file.
  rewrite lift_bind. repeat (erewrite IO_bind_returned by apply write_set_file).
  rewrite write_set_file. rewrite !append_assoc, append_nil_r. reflexivity.
Qed.

Lemma writeEach_text (f : string) (ds : list BeaDataSet) (c : BeaApiClient) :
  forall cur w,
    Forall (fun d => textNamed d = true) ds ->
    writeEach f ds (c, set_file f cur w)
    = Some (Returned tt,
            (c, set_file f (cur +:+ concat_lines (concat (map blockLines ds))) w)).
Proof.
  induction ds as [|d ds IH]; intros cur w Hall.
  - cbn. rewrite append_nil_r. reflexivity.
  - apply Forall_cons in Hall as [Hd Hall]. cbn [writeEach].
    erewrite IO_bind_returned by (apply writeDataSet_text; exact Hd).
    rewrite IH by exact Hall.
    change (concat (map blockLines (d :: ds)))
      with (blockLines d ++ concat (map blockLines ds)).
    assert (Hc : forall a b, concat_lines (a ++ b) = concat_lines a +:+ concat_lines b).
    { intros a b. induction a as [|x a IHa]; [reflexivity|].
      cbn [app concat_lines]. rewrite IHa, append_assoc. reflexivity. }
    rewrite Hc, append_assoc. reflexivity.
Qed.

Section CacheFacts.
Variables (E : Env) (fuel : nat).

Lemma writeDataSetsToFile_text (ds : list BeaDataSet) (f : string)
    (c : BeaApiClient) (w : World) :
  Forall (fun d => textNamed d = true) ds ->
  writeDataSetsToFile E ds f (c, w)
  = Some (Returned tt, (c, set_file f (fileText (calendar E (tick w)) ds) (pass E 0 w))).
Proof.
  intros Hall. unfold writeDataSetsToFile.
  unfold mbind at 1, IO_bind at 1. unfold world_step, datetime_now at 1.
  unfold mbind at 1, IO_bind at 1. unfold open_write at 1.
  erewrite IO_bind_returned by apply write_set_file.
  rewrite writeEach_text by exact Hall. reflexivity.
Qed.

End CacheFacts.

(** ** The rate limiter *)

Lemma Qltb_lt (x y : Q) : Qltb x y = true <-> (x < y)%Q.
Proof.
  unfold Qltb. rewrite negb_true_iff, <- not_true_iff_false, Qle_bool_iff.
  split; [apply Qnot_le_lt | apply Qlt_not_le].
Qed.

Lemma Qltb_ge (x y : Q) : Qltb x y = false <-> (y <= x)%Q.
Proof.
  unfold Qltb. rewrite negb_false_iff. apply Qle_bool_iff.
Qed.

Lemma limitsReached_false (c : BeaApiClient) :
  limitsReached c = false <-> underBudget c.
Proof.
  unfold limitsReached, underBudget.
  rewrite !orb_false_iff, !Z.leb_gt. tauto.
Qed.

Lemma limitsReached_true (c : BeaApiClient) :
  limitsReached c = true <->
  requestLimit c <= requestsMade c
  \/ dataLimit c <= dataReceived c
  \/ errorLimit c <= errorsMade c.
Proof.
  unfold limitsReached. rewrite !orb_true_iff, !Z.leb_le. tauto.
Qed.

Section LimiterFacts.
Variable E : Env.

(** What one reset check does: nothing, or a rollover. *)
Lemma resetCounters_cases (c : BeaApiClient) (w : World) :
  let t := fst (time_time E w) in
  snd (resetCounters E c w) = snd (time_time E w)
  /\ (((60 < t - lastReset c)%Q
       /\ zeroed (fst (resetCounters E c w))
       /\ lastReset (fst (resetCounters E c w)) = t
       /\ sameSettings c (fst (resetCounters E c w)))
      \/ ((t - lastReset c <= 60)%Q /\ fst (resetCounters E c w) = c)).
Proof.
  unfold resetCounters, time_time. cbn zeta.
  destruct (Qltb 60 _) eqn:Hq; cbn [fst snd].
  - apply Qltb_lt in Hq. split; [reflexivity|]. left.
    unfold zeroed, sameSettings. cbn. tauto.
  - apply Qltb_ge in Hq. split; [reflexivity|]. right. tauto.
Qed.

Lemma sameSettings_refl (c : BeaApiClient) : sameSettings c c.
Proof. unfold sameSettings. tauto. Qed.

Lemma sameSettings_trans (a b c : BeaApiClient) :
  sameSettings a b -> sameSettings b c -> sameSettings a c.
Proof. unfold sameSettings. intuition congruence. Qed.

(** The wait loop hands back either the state it was given, untouched, or
    a state whose counters a rollover has just zeroed. *)
Lemma waitLoop_exit (fuel : nat) :
  forall c w c' w',
    waitLoop E fuel c w = Some (c', w') ->
    limitsReached c' = false
    /\ sameSettings c c'
    /\ ((limitsReached c = false /\ c' = c /\ w' = w)
        \/ (limitsReached c = true /\ zeroed c'
            /\ (lastReset c + 60 < lastReset c')%Q)).
Proof.
  induction fuel as [|fuel IH]; intros c w c' w' H; cbn [waitLoop] in H.
  - destruct (limitsReached c) eqn:Hl; [discriminate|].
    injection H as <- <-.
    split; [exact Hl|]. split; [apply sameSettings_refl|]. left. tauto.
  - destruct (limitsReached c) eqn:Hl.
    + destruct (time_time E w) as [t w1].
      set (w2 := if Qltb 0 _ then _ else _) in H.
      pose proof (resetCounters_cases c w2) as [_ Hr].
      destruct (resetCounters E c w2) as [c1 w3]. cbn [fst snd] in Hr.
      apply IH in H as (Hex & Hs & Hc).
      split; [exact Hex|].
      destruct Hr as [(Hlt & Hz & Hlr & Hs1) | (_ & ->)].
      * split; [eauto using sameSettings_trans|]. right.
        split; [reflexivity|].
        destruct Hc as [(_ & -> & _) | (_ & Hz' & Hlt')].
        -- split; [exact Hz|]. rewrite Hlr. lra.
        -- split; [exact Hz'|]. rewrite Hlr in Hlt'. lra.
      * split; [exact Hs|]. right. split; [reflexivity|].
        destruct Hc as [(Hl' & _) | (_ & Hz' & Hlt')]; [congruence|tauto].
    + injection H as <- <-.
    split; [exact Hl|]. split; [apply sameSettings_refl|]. left. tauto.
Qed.

(** Once the clock is past the window, one iteration ends the wait. *)
Lemma waitLoop_terminates (fuel : nat) (c : BeaApiClient) (w : World) :
  (forall k, (0 < elapsed E k)%Q) ->
  0 < requestLimit c -> 0 < dataLimit c -> 0 < errorLimit c ->
  exists c' w', waitLoop E (S fuel) c w = Some (c', w').
Proof.
  intros Hadv Hr Hd He.
  destruct (limitsReached c) eqn:Hl.
  2:{ exists c, w. cbn [waitLoop]. rewrite Hl. reflexivity. }
  cbn [waitLoop]. rewrite Hl.
  destruct (time_time E w) as [t w1] eqn:Ht.
  assert (Ht1 : (now w1 == t)%Q /\ tick w1 = S (tick w)).
  { unfold time_time in Ht. injection Ht as <- <-. split; reflexivity. }
  destruct Ht1 as [Hn1 Hk1].
  set (w2 := if Qltb 0 _ then _ else _).
  assert (Hnow : (lastReset c + 60 <= now w2)%Q).
  { subst w2. destruct (Qltb 0 _) eqn:Hq.
    - unfold time_sleep, pass. cbn [now tick].
      pose proof (Hadv (tick w1)). lra.
    - apply Qltb_ge in Hq. lra. }
  pose proof (resetCounters_cases c w2) as [_ Hc].
  destruct (resetCounters E c w2) as [c1 w3]. cbn [fst snd] in Hc.
  destruct Hc as [(_ & (Hz1 & Hz2 & Hz3) & _ & (_ & Hs1 & Hs2 & Hs3)) | (Hle & _)].
  - exists c1, w3.
    assert (limitsReached c1 = false) as Hl1 by (apply limitsReached_false; unfold underBudget; lia).
    destruct fuel; cbn [waitLoop]; rewrite Hl1; reflexivity.
  - exfalso. unfold time_time, pass in Hle. cbn [fst now] in Hle.
    pose proof (Hadv (tick w2)). lra.
Qed.

(** With a limit of zero (or less) the loop condition holds in every state
    with non-negative counters, and the loop keeps such states. *)
Lemma waitLoop_stuck (fuel : nat) :
  forall c w,
    0 <= requestsMade c -> 0 <= dataReceived c -> 0 <= errorsMade c ->
    requestLimit c <= 0 \/ dataLimit c <= 0 \/ errorLimit c <= 0 ->
    waitLoop E fuel c w = None.
Proof.
  induction fuel as [|fuel IH]; intros c w Hr Hd He Hz; cbn [waitLoop].
  - assert (limitsReached c = true) as -> by (apply limitsReached_true; lia).
    reflexivity.
  - assert (limitsReached c = true) as -> by (apply limitsReached_true; lia).
    destruct (time_time E w) as [t w1].
    set (w2 := if Qltb 0 _ then _ else _).
    pose proof (resetCounters_cases c w2) as [_ Hc].
    destruct (resetCounters E c w2) as [c1 w3]. cbn [fst snd] in Hc.
    destruct Hc as [(_ & (Hz1 & Hz2 & Hz3) & _ & (_ & Hs1 & Hs2 & Hs3)) | (_ & ->)].
    + apply IH; lia.
    + apply IH; assumption.
Qed.

End LimiterFacts.

Section LimiterRuns.
Variable E : Env.

Lemma awaitBudget_exit (fuel : nat) (c : BeaApiClient) (w : World) c' w' :
  awaitBudget E fuel c w = Some (c', w') ->
  underBudget c' /\ sameSettings c c'
  /\ (lastReset c' = lastReset c /\ requestsMade c' = requestsMade c
      /\ dataReceived c' = dataReceived c /\ errorsMade c' = errorsMade c
      \/ zeroed c' /\ (lastReset c + 60 < lastReset c')%Q).
Proof.
  unfold awaitBudget. intros H.
  pose proof (resetCounters_cases E c w) as [_ Hr].
  destruct (resetCounters E c w) as [c0 w0]. cbn [fst snd] in Hr.
  apply waitLoop_exit in H as (Hex & Hs & Hc).
  apply limitsReached_false in Hex. split; [exact Hex|].
  destruct Hr as [(Hlt & Hz & Hlr & Hs0) | (_ & ->)].
  - split; [eauto using sameSettings_trans|]. right.
    destruct Hc as [(_ & -> & _) | (_ & Hz' & Hlt')].
    + split; [exact Hz|]. rewrite Hlr. lra.
    + split; [exact Hz'|]. rewrite Hlr in Hlt'. lra.
  - split; [exact Hs|].
    destruct Hc as [(_ & -> & _) | (_ & Hz' & Hlt')]; [left|right]; tauto.
Qed.

Lemma checkLimits_inv (fuel : nat) (url : string) (c : BeaApiClient) (w : World)
    out c2 w2 :
  checkLimits E fuel url c w = Some (out, (c2, w2)) ->
  exists cg wg,
    awaitBudget E fuel c w = Some (cg, wg)
    /\ out = deliver (http E (tick wg) url)
    /\ c2 = account (http E (tick wg) url) cg
    /\ sent w2 = sent wg ++ [url].
Proof.
  unfold checkLimits. intros H.
  destruct (awaitBudget E fuel c w) as [[cg wg]|]; [|discriminate].
  exists cg, wg. unfold issueRequest, requests_get in H.
  injection H as <- <- <-. auto.
Qed.

(** What holds of every client state a program can see. *)
Lemma reachable_inv (c0 c : BeaApiClient) :
  reachable E c0 c ->
  0 <= requestsMade c0 <= requestLimit c0 ->
  0 <= errorsMade c0 <= errorLimit c0 ->
  0 <= dataReceived c0 ->
  sameSettings c0 c
  /\ 0 <= requestsMade c <= requestLimit c
  /\ 0 <= errorsMade c <= errorLimit c
  /\ 0 <= dataReceived c.
Proof.
  intros Hreach Hr He Hd. induction Hreach as [|c fuel url w out c' w' _ IH Hcall].
  - auto using sameSettings_refl.
  - destruct IH as (Hs & Hr' & He' & Hd').
    apply checkLimits_inv in Hcall as (cg & wg & Hg & _ & -> & _).
    apply awaitBudget_exit in Hg as ((Hu1 & Hu2 & Hu3) & Hsg & Hc).
    assert (Hsame : sameSettings c0 (account (http E (tick wg) url) cg)).
    { apply (sameSettings_trans _ c); [exact Hs|].
      apply (sameSettings_trans _ cg); [exact Hsg|].
      unfold sameSettings, account. cbn. tauto. }
    split; [exact Hsame|].
    unfold account. cbn [requestsMade requestLimit errorsMade errorLimit dataReceived].
    assert (0 <= requestsMade cg /\ 0 <= errorsMade cg /\ 0 <= dataReceived cg)
      as (? & ? & ?)
      by (destruct Hc as [(_ & -> & -> & ->) | ((-> & -> & ->) & _)]; lia).
    destruct (status_code _ =? 200); lia.
Qed.

End LimiterRuns.

(** C1, as amended.  On any client built by [__init__] with non-negative
    limits, after any sequence of calls: when the next call is released to
    issue its request, each counter is strictly below its limit; at the
    start of the next call [requestsMade] and [errorsMade] do not exceed
    their limits and no counter is negative.  ([dataReceived] may exceed
    [dataLimit] at the start of a call.) *)
Theorem budget_when_request_is_issued (E : Env) (key : string)
    (rl mb el : Z) (w0 : World) (c : BeaApiClient) :
  0 <= rl -> 0 <= el ->
  reachable E (fst (init E key rl mb el w0)) c ->
  (requestsMade c <= requestLimit c
   /\ errorsMade c <= errorLimit c
   /\ 0 <= requestsMade c /\ 0 <= dataReceived c /\ 0 <= errorsMade c)
  /\ forall fuel w c' w',
       awaitBudget E fuel c w = Some (c', w') -> underBudget c'.
Proof.
  intros Hrl Hel Hreach.
  apply reachable_inv in Hreach as (_ & Hr & He & Hd); cbn; try lia.
  split; [lia|].
  intros fuel w c' w' Hg. apply awaitBudget_exit in Hg. tauto.
Qed.

(** C2.  A call whose counters are at or above a limit after the first
    reset check issues its request only from a state in which all three
    counters are zero, reached by a rollover that moved the window start
    forward by more than 60 seconds. *)
Theorem released_only_after_rollover (E : Env) (fuel : nat) (url : string)
    (c : BeaApiClient) (w : World) out c2 w2 :
  limitsReached (fst (resetCounters E c w)) = true ->
  checkLimits E fuel url c w = Some (out, (c2, w2)) ->
  exists cg wg,
    awaitBudget E fuel c w = Some (cg, wg)
    /\ (out, (c2, w2)) = issueRequest E url cg wg
    /\ zeroed cg
    /\ (lastReset c + 60 < lastReset cg)%Q.
Proof.
  intros Hl H. unfold checkLimits in H.
  destruct (awaitBudget E fuel c w) as [[cg wg]|] eqn:Hg; [|discriminate].
  exists cg, wg. split; [reflexivity|]. split; [congruence|].
  unfold awaitBudget in Hg.
  pose proof (resetCounters_cases E c w) as [_ Hr].
  destruct (resetCounters E c w) as [c0 w0]. cbn [fst snd] in Hr, Hl.
  apply waitLoop_exit in Hg as (_ & _ & [(Hl' & _) | (_ & Hz & Hlt)]); [congruence|].
  split; [exact Hz|].
  destruct Hr as [(Hx & _ & Hlr & _) | (_ & ->)]; [|exact Hlt].
  rewrite Hlr in Hlt. lra.
Qed.

(** C3.  A reset check that sees [now - lastReset > 60] zeroes the three
    counters and sets [lastReset] to that reading, all in one step; any
    other reset check changes nothing.  Over a whole call, either the
    window start is unchanged and no counter has gone down, or the window
    start has moved forward by more than 60 seconds and the three counters
    hold the cost of this one request. *)
Theorem counters_reset_together (E : Env) (fuel : nat) (url : string)
    (c : BeaApiClient) (w : World) out c2 w2 :
  checkLimits E fuel url c w = Some (out, (c2, w2)) ->
  (forall c1 w1,
      let t := fst (time_time E w1) in
      let c1' := fst (resetCounters E c1 w1) in
      ((60 < t - lastReset c1)%Q -> zeroed c1' /\ lastReset c1' = t)
      /\ (~ (60 < t - lastReset c1)%Q -> c1' = c1))
  /\ ((lastReset c2 = lastReset c
       /\ requestsMade c <= requestsMade c2
       /\ dataReceived c <= dataReceived c2
       /\ errorsMade c <= errorsMade c2)
      \/ ((lastReset c + 60 < lastReset c2)%Q
          /\ exists r,
               requestsMade c2 = 1
               /\ dataReceived c2 = Z.of_nat (String.length (content r))
               /\ errorsMade c2 = (if status_code r =? 200 then 0 else 1))).
Proof.
  intros H. split.
  - intros c1 w1 t c1'. subst t c1'.
    pose proof (resetCounters_cases E c1 w1) as [_ [(Hx & Hz & Hlr & _) | (Hx & ->)]].
    + split; [tauto|]. intros Hn. contradiction.
    + split; [|reflexivity]. intros Hn. exfalso. exact (Qlt_not_le _ _ Hn Hx).
  - apply checkLimits_inv in H as (cg & wg & Hg & _ & -> & _).
    apply awaitBudget_exit in Hg as (_ & _ & Hc).
    unfold account. cbn [lastReset requestsMade dataReceived errorsMade].
    destruct Hc as [(-> & -> & -> & ->) | ((-> & -> & ->) & Hlt)].
    + left. split; [reflexivity|]. destruct (status_code _ =? 200); lia.
    + right. split; [exact Hlt|]. exists (http E (tick wg) url).
      destruct (status_code _ =? 200); lia.
Qed.

(** C4.  A call that issues its request adds 1 to [requestsMade] and the
    body's length to [dataReceived], whatever the status; a status other
    than 200 adds 1 to [errorsMade] and raises the error that carries the
    status; a status of 200 leaves [errorsMade] alone and returns what
    [response.json()] decodes from the body. *)
Theorem request_accounting (E : Env) (fuel : nat) (url : string)
    (c : BeaApiClient) (w : World) out c2 w2 :
  checkLimits E fuel url c w = Some (out, (c2, w2)) ->
  exists cg wg,
    awaitBudget E fuel c w = Some (cg, wg)
    /\ sent w2 = sent wg ++ [url]
    /\ let r := http E (tick wg) url in
       requestsMade c2 = requestsMade cg + 1
       /\ dataReceived c2 = dataReceived cg + Z.of_nat (String.length (content r))
       /\ (status_code r <> 200 ->
           errorsMade c2 = errorsMade cg + 1
           /\ out = Raised (RequestError (status_code r)))
       /\ (status_code r = 200 ->
           errorsMade c2 = errorsMade cg
           /\ forall v, json r = Some v -> out = Returned v).
Proof.
  intros H. apply checkLimits_inv in H as (cg & wg & Hg & -> & -> & Hs).
  exists cg, wg. split; [exact Hg|]. split; [exact Hs|].
  cbn zeta. unfold account, deliver. cbn [requestsMade dataReceived errorsMade].
  split; [reflexivity|]. split; [reflexivity|].
  destruct (Z.eqb_spec (status_code (http E (tick wg) url)) 200) as [He|Hne].
  - split; [contradiction|]. intros _. split; [reflexivity|].
    intros v ->. reflexivity.
  - split; [auto|contradiction].
Qed.

(** C9.  On a client whose limits are those given to [__init__]: if the
    three limits are positive and the clock advances at every interaction,
    the wait loop ends within one iteration, below every limit, and with
    zeroed counters when it was entered; if one limit is zero, the loop
    never ends from a state with non-negative counters. *)
Theorem wait_loop_termination (E : Env) (key : string) (rl mb el : Z)
    (w0 : World) (c : BeaApiClient) :
  sameSettings (fst (init E key rl mb el w0)) c ->
  (0 < rl -> 0 < mb -> 0 < el ->
   (forall k, (0 < elapsed E k)%Q) ->
   forall fuel w, exists c' w',
     waitLoop E (S fuel) c w = Some (c', w')
     /\ underBudget c'
     /\ (limitsReached c = true -> zeroed c'))
  /\ (rl = 0 \/ mb = 0 \/ el = 0 ->
      0 <= requestsMade c -> 0 <= dataReceived c -> 0 <= errorsMade c ->
      forall fuel w, waitLoop E fuel c w = None).
Proof.
  intros (_ & Hr & Hd & He). cbn in Hr, Hd, He. split.
  - intros Hrl Hmb Hel Hadv fuel w.
    destruct (waitLoop_terminates E fuel c w Hadv) as (c' & w' & H); try lia.
    exists c', w'. split; [exact H|].
    apply waitLoop_exit in H as (Hex & _ & Hc).
    split; [apply limitsReached_false, Hex|].
    intros Hl. destruct Hc as [(Hl' & _) | (_ & Hz & _)]; [congruence|exact Hz].
  - intros Hzero Hrm Hdr Hem fuel w. apply waitLoop_stuck; lia.
Qed.

(** *** The limiter on sample runs *)

(** After one refused request on a client of default limits. *)
Lemma budget_when_request_is_issued_witness :
  exists c,
    requestsMade c = 1 /\ errorsMade c = 1
    /\ (requestsMade c <= requestLimit c
        /\ errorsMade c <= errorLimit c
        /\ 0 <= requestsMade c /\ 0 <= dataReceived c /\ 0 <= errorsMade c)
    /\ forall fuel w c' w',
         awaitBudget calmEnv fuel c w = Some (c', w') -> underBudget c'.
Proof.
  eexists. split; [|split]; cycle 2.
  1:{ apply (budget_when_request_is_issued calmEnv "KEY" 100 100 30 world0); [lia|lia|].
      eapply (reach_call _ _ _ 0%nat "u"%string world0); [apply reach_init|].
      vm_compute. reflexivity. }
  all: reflexivity.
Defined.

(** C1, as stated, fails: a client with a 1 MiB data limit that has
    received one 2 MiB body starts its next call above the limit. *)
Lemma data_budget_exceeded_at_call_start :
  exists c,
    reachable bulkyEnv (fst (init bulkyEnv "KEY" 100 1 30 world0)) c
    /\ dataLimit c = 1048576 /\ dataReceived c = 2097152
    /\ ~ withinLimits c.
Proof.
  eexists. split.
  - eapply (reach_call _ _ _ 0%nat "u"%string world0); [apply reach_init|].
    vm_compute. reflexivity.
  - split; [vm_compute; reflexivity|]. split; [vm_compute; reflexivity|].
    intros (_ & H & _). vm_compute in H. apply H. reflexivity.
Qed.

(** A client that has used up its requests waits out the window. *)
Lemma released_only_after_rollover_witness :
  exists cg wg,
    awaitBudget calmEnv 1 spentClient world0 = Some (cg, wg)
    /\ zeroed cg
    /\ (lastReset spentClient + 60 < lastReset cg)%Q.
Proof.
  destruct (released_only_after_rollover calmEnv 1 "u" spentClient world0 _ _ _
              eq_refl eq_refl) as (cg & wg & Hg & _ & Hz & Hlt).
  exists cg, wg. auto.
Defined.

(** The same call: the window has moved on, the counters hold one request. *)
Lemma counters_reset_together_witness :
  exists r,
    requestsMade r = 1
    /\ ((lastReset r = lastReset spentClient
       /\ requestsMade spentClient <= requestsMade r
       /\ dataReceived spentClient <= dataReceived r
       /\ errorsMade spentClient <= errorsMade r)
      \/ ((lastReset spentClient + 60 < lastReset r)%Q
          /\ exists r0,
               requestsMade r = 1
               /\ dataReceived r = Z.of_nat (String.length (content r0))
               /\ errorsMade r = (if status_code r0 =? 200 then 0 else 1))).
Proof.
  eexists. split; cycle 1.
  - refine (proj2 (counters_reset_together calmEnv 1 "u" spentClient world0 _ _ _ _)).
    vm_compute. reflexivity.
  - reflexivity.
Defined.

(** The same call, refused with status 503. *)
Lemma request_accounting_witness :
  exists out c2,
   out = Raised (RequestError 503) /\ errorsMade c2 = 1 /\
   exists w2 cg wg, 
    awaitBudget calmEnv 1 spentClient world0 = Some (cg, wg)
    /\ sent w2 = sent wg ++ ["u"%string]
    /\ let r := http calmEnv (tick wg) "u" in
       requestsMade c2 = requestsMade cg + 1
       /\ dataReceived c2 = dataReceived cg + Z.of_nat (String.length (content r))
       /\ (status_code r <> 200 ->
           errorsMade c2 = errorsMade cg + 1
           /\ out = Raised (RequestError (status_code r)))
       /\ (status_code r = 200 ->
           errorsMade c2 = errorsMade cg
           /\ forall v, json r = Some v -> out = Returned v).
Proof.
  eexists _, _. split; [|split]; cycle 2.
  - eexists. refine (request_accounting calmEnv 1 "u" spentClient world0 _ _ _ _).
    vm_compute. reflexivity.
  - reflexivity.
  - reflexivity.
Defined.

(** Default limits against a request limit of zero. *)
Lemma wait_loop_termination_witness :
  (forall fuel w, exists c' w',
     waitLoop calmEnv (S fuel) spentClient w = Some (c', w')
     /\ underBudget c'
     /\ (limitsReached spentClient = true -> zeroed c'))
  /\ (forall fuel w, waitLoop calmEnv fuel stuckClient w = None).
Proof.
  split.
  - refine (proj1 (wait_loop_termination calmEnv "KEY" 100 100 30 world0 spentClient _) _ _ _ _).
    + repeat split; reflexivity.
    + lia.
    + lia.
    + lia.
    + intros k. reflexivity.
  - refine (proj2 (wait_loop_termination calmEnv "KEY" 0 100 30 world0 stuckClient _) _ _ _ _).
    + repeat split; reflexivity.
    + auto.
    + vm_compute; discriminate.
    + vm_compute; discriminate.
    + vm_compute; discriminate.
Defined.

(** ** The catalog builder *)

Lemma for_each_length {A B : Type} (f : A -> Outcome B) (xs : list A) (ys : list B) :
  for_each f xs = Returned ys -> length ys = length xs.
Proof.
  revert ys. induction xs as [|x xs IH]; intros ys H; cbn in H.
  - injection H as <-. reflexivity.
  - destruct (f x) as [y|e]; cbn in H; [|discriminate].
    destruct (for_each f xs) as [ys'|e]; cbn in H; [|discriminate].
    injection H as <-. cbn. f_equal. apply IH. reflexivity.
Qed.

Lemma IO_bind_Returned {A B : Type} (m : IO A) (k : A -> IO B) st b st' :
  (m ≫= k) st = Some (Returned b, st') ->
  exists a st1, m st = Some (Returned a, st1) /\ k a st1 = Some (Returned b, st').
Proof.
  unfold mbind, IO_bind. destruct (m st) as [[[a|e] st1]|]; [eauto|discriminate|discriminate].
Qed.

Lemma lift_Returned {A : Type} (o : Outcome A) st a st' :
  lift o st = Some (Returned a, st') -> o = Returned a /\ st' = st.
Proof. unfold lift. intros H. injection H as -> ->. auto. Qed.

Lemma IO_ret_Returned {A : Type} (x : A) st a st' :
  (mret x : IO A) st = Some (Returned a, st') -> a = x /\ st' = st.
Proof. unfold mret, IO_ret. intros H. injection H as -> ->. auto. Qed.

Ltac io_inv H :=
  repeat first
    [ apply IO_bind_Returned in H as (? & ? & ? & H)
    | match type of H with context [let '(_, _) := ?p in _] => destruct p end ];
  repeat match goal with
    | H1 : lift _ _ = Some (Returned _, _) |- _ => apply lift_Returned in H1 as (H1 & ->)
    end.

Lemma extractValidInputs_Returned (inputs name p : PyVal) vs ds :
  extractValidInputs inputs name p = Returned (vs, ds) ->
  ensureResponseIsList inputs <> []
  /\ length vs = length (ensureResponseIsList inputs)
  /\ length ds = length (ensureResponseIsList inputs).
Proof.
  unfold extractValidInputs. intros H.
  destruct (ensureResponseIsList inputs) as [|x xs] eqn:Hl.
  - destruct (_ && _); discriminate.
  - split; [discriminate|].
    assert (Hgen : forall f : list string -> PyVal -> Outcome (PyVal * PyVal),
      (first ← item (x :: xs) 0; inputsKeys ← py_keys first;
       rows ← for_each (f inputsKeys) (x :: xs); Returned (map fst rows, map snd rows))
      = Returned (vs, ds) -> length vs = length (x :: xs) /\ length ds = length (x :: xs)).
    { intros f Hf. unfold item in Hf. cbn [lookup list_lookup mbind Outcome_bind] in Hf.
      destruct (py_keys x) as [ks|]; [|discriminate].
      cbn [mbind Outcome_bind] in Hf.
      destruct (for_each (f ks) (x :: xs)) as [rows|] eqn:Hr; [|discriminate].
      cbn [mbind Outcome_bind] in Hf.
      injection Hf as <- <-. rewrite !length_map.
      apply for_each_length in Hr. auto. }
    destruct (_ && _); eapply Hgen; exact H.
Qed.

Lemma extractValidInputs_empty (inputs name p : PyVal) :
  ensureResponseIsList inputs = [] ->
  extractValidInputs inputs name p = Raised IndexError.
Proof.
  unfold extractValidInputs. intros ->. destruct (_ && _); reflexivity.
Qed.

Section BuilderFacts.
Variables (E : Env) (fuel : nat).

Lemma fetchInputs_nonEmpty d p st d' st' :
  fetchInputs E fuel d p st = Some (Returned d', st') ->
  nonEmptyLists (parameterInputs d) -> nonEmptyLists (parameterInputs d').
Proof.
  unfold fetchInputs. intros H (ls & Hls & Hall).
  io_inv H. apply IO_ret_Returned in H as (-> & _).
  cbn [parameterInputs].
  match goal with Ha : appended (parameterInputs d) _ = _ |- _ =>
    rewrite Hls in Ha; cbn in Ha; injection Ha as <- end.
  eexists. split; [reflexivity|].
  apply Forall_app. split; [exact Hall|].
  constructor; [|constructor]. eexists. split; [reflexivity|].
  match goal with Hv : extractValidInputs _ _ _ = _ |- _ =>
    apply extractValidInputs_Returned in Hv as (Hne & Hlen & _) end.
  intros ->. destruct (ensureResponseIsList _); [congruence|discriminate].
Qed.

Lemma fetchAllInputs_nonEmpty ps : forall d st d' st',
  fetchAllInputs E fuel d ps st = Some (Returned d', st') ->
  nonEmptyLists (parameterInputs d) -> nonEmptyLists (parameterInputs d').
Proof.
  induction ps as [|p ps IH]; intros d st d' st' H Hd; cbn [fetchAllInputs] in H.
  - apply IO_ret_Returned in H as (-> & _). exact Hd.
  - io_inv H. eapply IH; [exact H|]. eapply fetchInputs_nonEmpty; eauto.
Qed.

Lemma updateParametersLists_inputs d d' :
  updateParametersLists d = Returned d' -> parameterInputs d' = parameterInputs d.
Proof.
  unfold updateParametersLists. intros H.
  repeat match type of H with
  | (?o ≫= _) = Returned _ => destruct o; cbn [mbind Outcome_bind] in H; [|discriminate]
  | context [let '(_, _) := ?p in _] => destruct p
  end.
  injection H as <-. reflexivity.
Qed.

Lemma buildDataSet_nonEmpty entry st d st' :
  buildDataSet E fuel entry st = Some (Returned d, st') ->
  nonEmptyLists (parameterInputs d).
Proof.
  unfold buildDataSet. destruct entry as [name description]. intros H.
  io_inv H. eapply fetchAllInputs_nonEmpty; [exact H|].
  match goal with Hu : updateParametersLists _ = _ |- _ =>
    apply updateParametersLists_inputs in Hu; rewrite Hu end.
  exists []. split; [reflexivity|constructor].
Qed.

Lemma buildAll_nonEmpty entries : forall st ds st',
  buildAll E fuel entries st = Some (Returned ds, st') ->
  Forall (fun d => nonEmptyLists (parameterInputs d)) ds.
Proof.
  induction entries as [|entry entries IH]; intros st ds st' H; cbn [buildAll] in H.
  - apply IO_ret_Returned in H as (-> & _). constructor.
  - io_inv H. apply IO_ret_Returned in H as (-> & _).
    constructor; eauto using buildDataSet_nonEmpty.
Qed.

Lemma downloadBeaDatasets_nonEmpty st ds st' :
  downloadBeaDatasets E fuel st = Some (Returned ds, st') ->
  Forall (fun d => nonEmptyLists (parameterInputs d)) ds.
Proof.
  unfold downloadBeaDatasets. intros H. io_inv H.
  eapply buildAll_nonEmpty; exact H.
Qed.

(** A valid-input response that coerces to the empty list ends the round
    with [IndexError]. *)
Lemma fetchInputs_empty d p st key st0 response st1 inputs :
  clientKey st = Some (Returned key, st0) ->
  request E fuel
    ("https://apps.bea.gov/api/data?&UserID=" +:+ key
     +:+ "&method=GetParameterValues&datasetname=" +:+ py_str (dataSetName d)
     +:+ "&ParameterName=" +:+ py_str p +:+ "&ResultFormat=JSON") st0
  = Some (Returned response, st1) ->
  results response "ParamValue" = Returned inputs ->
  ensureResponseIsList inputs = [] ->
  fetchInputs E fuel d p st = Some (Raised IndexError, st1).
Proof.
  intros Hk Hr Hres Hempty. unfold fetchInputs.
  unfold mbind at 1, IO_bind at 1. rewrite Hk.
  unfold mbind at 1, IO_bind at 1. rewrite Hr.
  unfold mbind at 1, IO_bind at 1. rewrite Hres. unfold lift at 1.
  unfold mbind at 1, IO_bind at 1.
  rewrite (extractValidInputs_empty _ _ _ Hempty). reflexivity.
Qed.

End BuilderFacts.

Lemma dict_get_zip (keys : list string) : forall (vals : list PyVal) i k v,
  NoDup keys -> keys !! i = Some k -> vals !! i = Some v ->
  dict_get (zip keys vals) k = Some v.
Proof.
  induction keys as [|k0 keys IH]; intros vals i k v Hnd Hk Hv; [discriminate|].
  destruct vals as [|v0 vals]; [destruct i; discriminate|].
  apply NoDup_cons in Hnd as [Hnotin Hnd]. cbn [zip zip_with dict_get].
  destruct i as [|i]; cbn in Hk, Hv.
  - injection Hk as ->. injection Hv as ->. rewrite String.eqb_refl. reflexivity.
  - destruct (String.eqb_spec k k0) as [->|_].
    + exfalso. apply Hnotin. eapply list_elem_of_lookup_2. exact Hk.
    + eapply IH; eauto.
Qed.

Lemma keyed_entry (keys : list string) (e : YearEntry) (i : nat) (v : PyVal) :
  NoDup keys -> length keys = 7%nat ->
  [table e; fst (annual e); snd (annual e); fst (quarterly e);
   snd (quarterly e); fst (monthly e); snd (monthly e)] !! i = Some v ->
  keyed (entryValue keys e) keys i = Returned v.
Proof.
  intros Hnd Hlen Hv. unfold keyed.
  assert (Hi : (i < length keys)%nat).
  { rewrite Hlen. apply lookup_lt_Some in Hv. exact Hv. }
  destruct (lookup_lt_is_Some_2 keys i Hi) as [k Hk]. rewrite Hk.
  unfold entryValue, py_subscript.
  rewrite (dict_get_zip keys _ i k v Hnd Hk Hv). reflexivity.
Qed.

Lemma yearEntry_assembles (keys : list string) (e : YearEntry) :
  NoDup keys -> length keys = 7%nat ->
  yearEntry keys (entryValue keys e)
  = Returned (yearRangesValue (assemble e), yearRangesDescription (assemble e)).
Proof.
  intros Hnd Hlen. unfold yearEntry.
  rewrite (keyed_entry keys e 0 (table e)), (keyed_entry keys e 1 (fst (annual e))),
    (keyed_entry keys e 2 (snd (annual e))), (keyed_entry keys e 3 (fst (quarterly e))),
    (keyed_entry keys e 4 (snd (quarterly e))), (keyed_entry keys e 5 (fst (monthly e))),
    (keyed_entry keys e 6 (snd (monthly e))) by auto.
  reflexivity.
Qed.

Lemma isYearRangeDataSet_true (name : string) :
  isYearRangeDataSet (PStr name) = true <->
  name = "NIPA"%string \/ name = "NIUnderlyingDetail"%string \/ name = "FixedAssets"%string.
Proof.
  unfold isYearRangeDataSet, py_eq_str.
  rewrite !orb_true_iff, !String.eqb_eq. tauto.
Qed.

Lemma for_each_map {A B C : Type} (f : B -> Outcome C) (h : A -> B) (g : A -> C)
    (xs : list A) :
  (forall x, f (h x) = Returned (g x)) ->
  for_each f (map h xs) = Returned (map g xs).
Proof.
  intros H. induction xs as [|x xs IH]; [reflexivity|].
  cbn [map for_each]. rewrite H, IH. reflexivity.
Qed.

(** C8.  For a data set named "NIPA", "NIUnderlyingDetail" or "FixedAssets"
    and the parameter "Year", entries that carry a table identifier and
    three (start, end) pairs under seven distinct keys (the same keys, in
    the same order, in every entry) are each assembled into the record
    [{TableName, AnnualYearRange, QuarterlyYearRange, MonthlyYearRange}]
    with the ranges written "start-end", and described by "Year ranges for
    annual, quarterly, and monthly data from table: <TableName>"; a bare
    entry is treated as a list of one. *)
Theorem year_ranges_assembled (name : string) (keys : list string)
    (e : YearEntry) (entries : list YearEntry) :
  name = "NIPA"%string \/ name = "NIUnderlyingDetail"%string \/ name = "FixedAssets"%string ->
  NoDup keys -> length keys = 7%nat ->
  extractValidInputs (PList (map (entryValue keys) (e :: entries))) (PStr name) (PStr "Year")
  = Returned (map (fun x => yearRangesValue (assemble x)) (e :: entries),
              map (fun x => yearRangesDescription (assemble x)) (e :: entries))
  /\ extractValidInputs (entryValue keys e) (PStr name) (PStr "Year")
     = Returned ([yearRangesValue (assemble e)], [yearRangesDescription (assemble e)]).
Proof.
  intros Hname Hnd Hlen.
  apply isYearRangeDataSet_true in Hname.
  assert (Hkeys : py_keys (entryValue keys e) = Returned keys).
  { unfold py_keys, entryValue. f_equal.
    do 8 (destruct keys as [|? keys]; try discriminate). reflexivity. }
  assert (Hrows : forall rows,
    for_each (yearEntry keys) (map (entryValue keys) rows)
    = Returned (map (fun x => (yearRangesValue (assemble x),
                               yearRangesDescription (assemble x))) rows)).
  { intros rows. apply for_each_map. intros x. apply yearEntry_assembles; assumption. }
  unfold extractValidInputs. rewrite Hname. cbn [py_eq_str andb].
  assert (String.eqb "Year" "Year" = true) as -> by reflexivity.
  split.
  - cbn [ensureResponseIsList].
    change (item (map (entryValue keys) (e :: entries)) 0) with (Returned (entryValue keys e)).
    cbn [mbind Outcome_bind]. rewrite Hkeys. cbn [mbind Outcome_bind].
    rewrite Hrows. cbn [mbind Outcome_bind]. rewrite !map_map. reflexivity.
  - assert (ensureResponseIsList (entryValue keys e) = [entryValue keys e]) as ->
      by reflexivity.
    change (item [entryValue keys e] 0) with (Returned (entryValue keys e)).
    cbn [mbind Outcome_bind]. rewrite Hkeys. cbn [mbind Outcome_bind].
    change [entryValue keys e] with (map (entryValue keys) [e]).
    rewrite (Hrows [e]). reflexivity.
Qed.

(** The entry of the specification's example. *)
Lemma year_ranges_assembled_witness :
  extractValidInputs
    (PList [PDict [("Table", PStr "T1"); ("A1", PStr "1990"); ("A2", PStr "2020");
                   ("Q1", PStr "1999"); ("Q2", PStr "2020");
                   ("M1", PStr "2015"); ("M2", PStr "2020")]%string])
    (PStr "NIPA") (PStr "Year")
  = Returned ([yearRangesValue {| TableName := PStr "T1"; AnnualYearRange := "1990-2020";
                                  QuarterlyYearRange := "1999-2020";
                                  MonthlyYearRange := "2015-2020" |}],
              [PStr "Year ranges for annual, quarterly, and monthly data from table: T1"]).
Proof.
  refine (proj1 (year_ranges_assembled "NIPA" specKeys specEntry [] _ _ _)).
  - left. reflexivity.
  - apply (bool_decide_unpack _). vm_compute. exact I.
  - reflexivity.
Defined.

(** C7.  A data set list that comes as a bare object is not coerced:
    [extractDataSets] walks the keys of the object and fails with
    [AttributeError] on the first, where the same object inside a list
    yields one data set.  The parameter list and the valid-input list are
    coerced: a bare parameter object yields exactly that one parameter. *)
Theorem dataset_list_is_not_coerced
    (k : string) (v : PyVal) (kvs : list (string * PyVal)) :
  extractDataSets (PDict ((k, v) :: kvs)) = Raised AttributeError
  /\ extractDataSets (PList [PDict ((k, v) :: kvs)])
     = Returned ([default (PStr "N/A") (dict_get ((k, v) :: kvs) "DatasetName")],
                 [default (PStr "N/A") (dict_get ((k, v) :: kvs) "DatasetDescription")])
  /\ extractParamInfo (PDict kvs) = extractParamInfo (PList [PDict kvs])
  /\ (exists n d r f m a,
        extractParamInfo (PDict kvs) = Returned ([n], [d], [r], [f], [m], [a]))
  /\ (forall name p, extractValidInputs (PDict kvs) name p
                     = extractValidInputs (PList [PDict kvs]) name p).
Proof.
  split; [reflexivity|]. split; [reflexivity|]. split; [reflexivity|].
  split; [|reflexivity].
  unfold extractParamInfo, paramInfo, py_get.
  cbn [ensureResponseIsList for_each mbind Outcome_bind map fst snd].
  repeat eexists.
Qed.

(** The build on a bare data set object, and on a bare parameter object. *)
Example bare_dataset_object_aborts_build :
  option_map fst (downloadBeaDatasets bareDatasetEnv 1 (init_default bareDatasetEnv "KEY" world0))
  = Some (Raised AttributeError)
  /\ option_map fst (downloadBeaDatasets nipaEnv 1 (init_default nipaEnv "KEY" world0))
     = Some (Returned nipaCatalog).
Proof. split; vm_compute; reflexivity. Qed.


(** The build, and the load of a missing cache, on an empty valid-input
    list. *)
Example empty_inputs_abort_build_run :
  option_map fst (downloadBeaDatasets emptyInputsEnv 1 (init_default emptyInputsEnv "KEY" world0))
  = Some (Raised IndexError)
  /\ option_map fst (readBeaDataSets emptyInputsEnv 1 "beaDataSets.txt"
                       (init_default emptyInputsEnv "KEY" world0))
     = Some (Raised IndexError).
Proof. split; vm_compute; reflexivity. Qed.

(** ** The catalog cache *)

Section CacheRules.
Variables (E : Env) (fuel : nat).

Lemma outdated_false (fileDate currentDate : Date) :
  outdated fileDate currentDate = false <->
  year currentDate <= year fileDate
  /\ getFiscalQuarter currentDate = getFiscalQuarter fileDate.
Proof.
  unfold outdated. rewrite orb_false_iff, negb_false_iff, Z.ltb_ge, Z.eqb_eq. tauto.
Qed.

Lemma outdated_true (fileDate currentDate : Date) :
  outdated fileDate currentDate = true <->
  year fileDate < year currentDate
  \/ getFiscalQuarter currentDate <> getFiscalQuarter fileDate.
Proof.
  unfold outdated. rewrite orb_true_iff, negb_true_iff, Z.ltb_lt, Z.eqb_neq. tauto.
Qed.

(** The [try] block on a file that is there and whose first line is a date. *)
Lemma readCache_dated (filename : string) (c : BeaApiClient) (w : World)
    (text : string) (fileDate : Date) :
  files w !! filename = Some text ->
  strptime (strip (fst (readline (split_lines (universal_newlines text)))))
  = Returned fileDate ->
  readCache E fuel filename (c, w)
  = if outdated fileDate (calendar E (tick w)) then
      rebuild E fuel filename (c, pass E 0 w)
    else
      let records := snd (readline (split_lines (universal_newlines text))) in
      (dataSetObjects ← readBlocks E (length records) records [];
       pause E;;
       mret (Some dataSetObjects)) (c, pass E 0 w).
Proof.
  intros Hfile Hdate. unfold readCache.
  unfold mbind at 1, IO_bind at 1. unfold open_read at 1. rewrite Hfile.
  destruct (readline (split_lines (universal_newlines text))) as [line file].
  cbn [fst snd] in *.
  unfold mbind at 1, IO_bind at 1. unfold lift at 1. rewrite Hdate.
  unfold mbind at 1, IO_bind at 1. unfold world_step at 1, datetime_now at 1.
  destruct (outdated fileDate (calendar E (tick w))); reflexivity.
Qed.

(** The same when the records are those the write loop writes for a
    catalog, and the file is not outdated: the catalog is returned, with no
    question to the oracle. *)
Lemma readCache_catalog (filename : string) (c : BeaApiClient) (w : World)
    (text : string) (fileDate : Date) (ds : list BeaDataSet) :
  files w !! filename = Some text ->
  strptime (strip (fst (readline (split_lines (universal_newlines text)))))
  = Returned fileDate ->
  outdated fileDate (calendar E (tick w)) = false ->
  Forall (fun d => storable d = true) ds ->
  snd (readline (split_lines (universal_newlines text))) = concat (map blockLines ds) ->
  readCache E fuel filename (c, w)
  = Some (Returned (Some ds), (c, time_sleep E 2 (pass E 0 w))).
Proof.
  intros Hfile Hdate Hfresh Hall Hrecords.
  rewrite (readCache_dated filename c w text fileDate Hfile Hdate), Hfresh.
  cbv zeta. rewrite Hrecords.
  rewrite readBlocks_blocks by (rewrite ?length_blocks; lia || exact Hall).
  reflexivity.
Qed.

End CacheRules.

(** C5, as amended.  On a cache file whose first line is a date: if the
    year of the day is not later than the stored year and the two quarter
    numbers are equal, and the records of the file are those the program
    writes for a catalog of storable data sets, the load sends no request,
    leaves client and files alone and returns that catalog; if the year of
    the day is later than the stored year or the quarter numbers differ,
    the load is the rebuild (build, write, return) run under the same
    [except] clauses, whatever the records are, and when the build returns
    data sets whose names and descriptions are strings the load returns
    them and the file holds their text. *)
Theorem cache_freshness_rule (E : Env) (fuel : nat) (filename : string)
    (c : BeaApiClient) (w : World) (text : string) (fileDate : Date) :
  files w !! filename = Some text ->
  strptime (strip (fst (readline (split_lines (universal_newlines text)))))
  = Returned fileDate ->
  let currentDate := calendar E (tick w) in
  let records := snd (readline (split_lines (universal_newlines text))) in
  (year currentDate <= year fileDate
   /\ getFiscalQuarter currentDate = getFiscalQuarter fileDate ->
   forall ds,
     Forall (fun d => storable d = true) ds ->
     records = concat (map blockLines ds) ->
     exists w',
       readBeaDataSets E fuel filename (c, w) = Some (Returned (Some ds), (c, w'))
       /\ sent w' = sent w /\ files w' = files w)
  /\ (year fileDate < year currentDate
      \/ getFiscalQuarter currentDate <> getFiscalQuarter fileDate ->
      readBeaDataSets E fuel filename (c, w)
      = try_except (rebuild E fuel filename) (recover E fuel filename) (c, pass E 0 w)
      /\ forall ds c1 w1,
           downloadBeaDatasets E fuel (c, pass E 0 w) = Some (Returned ds, (c1, w1)) ->
           Forall (fun d => textNamed d = true) ds ->
           exists w',
             readBeaDataSets E fuel filename (c, w) = Some (Returned (Some ds), (c1, w'))
             /\ files w' !! filename = Some (fileText (calendar E (tick w1)) ds)
             /\ sent w' = sent w1).
Proof.
  intros Hfile Hdate currentDate records.
  split.
  - intros Hfresh ds Hall Hrecords. apply outdated_false in Hfresh.
    exists (time_sleep E 2 (pass E 0 w)).
    split; [|split; reflexivity].
    unfold readBeaDataSets, try_except.
    rewrite (readCache_catalog E fuel filename c w text fileDate ds
               Hfile Hdate Hfresh Hall Hrecords).
    reflexivity.
  - intros Hold. apply outdated_true in Hold.
    pose proof (readCache_dated E fuel filename c w text fileDate Hfile Hdate) as Hread.
    fold currentDate in Hread. rewrite Hold in Hread.
    assert (Heq : readBeaDataSets E fuel filename (c, w)
                  = try_except (rebuild E fuel filename) (recover E fuel filename)
                      (c, pass E 0 w)).
    { unfold readBeaDataSets, try_except. rewrite Hread. reflexivity. }
    split; [exact Heq|].
    intros ds c1 w1 Hbuild Hnamed. rewrite Heq.
    unfold try_except, rebuild.
    unfold mbind at 1, IO_bind at 1. rewrite Hbuild.
    unfold mbind at 1, IO_bind at 1.
    rewrite (writeDataSetsToFile_text E ds filename c1 w1 Hnamed).
    eexists. split; [reflexivity|]. split; [|reflexivity].
    cbn [files time_sleep pass set_file]. apply lookup_insert_eq.
Qed.

Lemma concat_lines_plain (lines : list string) :
  Forall (fun l => exists s, l = s +:+ nl /\ plain s) lines ->
  contains creturn (concat_lines lines) = false
  /\ Forall (fun l => exists s, l = s +:+ nl /\ contains newline s = false) lines.
Proof.
  induction lines as [|l lines IH]; intros H; [split; [reflexivity|constructor]|].
  apply Forall_cons in H as [(s & -> & Hn & Hr) H]. destruct (IH H) as [Hc Hl].
  split.
  - cbn [concat_lines]. rewrite !contains_append, Hr, Hc. reflexivity.
  - constructor; [eauto|exact Hl].
Qed.

Lemma blocks_lines (ds : list BeaDataSet) :
  Forall (fun d => storable d = true) ds ->
  Forall (fun l => exists s, l = s +:+ nl /\ plain s) (concat (map blockLines ds)).
Proof.
  induction ds as [|d ds IH]; intros H; [constructor|].
  apply Forall_cons in H as [Hd H].
  change (concat (map blockLines (d :: ds)))
    with (blockLines d ++ concat (map blockLines ds)).
  apply Forall_app. split; [apply blockLines_lines, Hd|apply IH, H].
Qed.

(** The text written on a valid date for storable data sets, read in text
    mode and cut into lines. *)
Lemma fileText_lines (date : Date) (ds : list BeaDataSet) :
  validDate date = true ->
  Forall (fun d => storable d = true) ds ->
  split_lines (universal_newlines (fileText date ds))
  = (strftime date +:+ nl) :: concat (map blockLines ds).
Proof.
  intros Hv Hall. unfold fileText.
  assert (Hlines : Forall (fun l => exists s, l = s +:+ nl /\ plain s)
                     ((strftime date +:+ nl) :: concat (map blockLines ds))).
  { constructor; [|apply blocks_lines, Hall].
    exists (strftime date). split; [reflexivity|apply strftime_line, Hv]. }
  apply concat_lines_plain in Hlines as [Hc Hl].
  rewrite universal_newlines_id by exact Hc. apply split_concat_lines, Hl.
Qed.

(** C6, as amended.  A catalog of storable data sets (non-empty names,
    names and descriptions that are single lines without white space at
    either end, list attributes of well-formed values), written on a valid
    date, is read back field for field by any load
    that finds the file as written and does not judge it outdated; the load
    sends no request. *)
Theorem cache_round_trip (E : Env) (fuel : nat) (filename : string)
    (ds : list BeaDataSet) (c : BeaApiClient) (w : World)
    (c2 : BeaApiClient) (w2 : World) :
  Forall (fun d => storable d = true) ds ->
  validDate (calendar E (tick w)) = true ->
  exists w1,
    writeDataSetsToFile E ds filename (c, w) = Some (Returned tt, (c, w1))
    /\ (files w2 !! filename = files w1 !! filename ->
        outdated (calendar E (tick w)) (calendar E (tick w2)) = false ->
        exists w3,
          readBeaDataSets E fuel filename (c2, w2) = Some (Returned (Some ds), (c2, w3))
          /\ sent w3 = sent w2 /\ files w3 = files w2).
Proof.
  intros Hall Hv.
  assert (Hnamed : Forall (fun d => textNamed d = true) ds).
  { eapply Forall_impl; [exact Hall|]. apply storable_textNamed. }
  eexists. split; [apply writeDataSetsToFile_text, Hnamed|].
  cbn [files set_file]. rewrite lookup_insert_eq. intros Hfile Hfresh.
  set (date := calendar E (tick w)) in *.
  pose proof (fileText_lines date ds Hv Hall) as Hlines.
  assert (Hdate : strptime (strip (fst (readline (split_lines
                    (universal_newlines (fileText date ds)))))) = Returned date).
  { rewrite Hlines. cbn [readline fst].
    destruct (strftime_line date Hv) as [_ ->]. apply strptime_strftime, Hv. }
  pose proof (readCache_dated E fuel filename c2 w2 _ date Hfile Hdate) as Hread.
  rewrite Hfresh, Hlines in Hread. cbn [readline snd] in Hread. cbv zeta in Hread.
  rewrite readBlocks_blocks in Hread by (rewrite ?length_blocks; lia || exact Hall).
  exists (time_sleep E 2 (pass E 0 w2)).
  split; [|split; reflexivity].
  unfold readBeaDataSets, try_except. rewrite Hread. reflexivity.
Qed.

(** *** The cache on sample runs *)

(** A cache of the day is read without a request; a cache of the previous
    quarter is rebuilt with three. *)
Lemma cache_freshness_rule_witness :
  (exists w',
     readBeaDataSets nipaEnv 1 cacheName
       (sampleClient, set_file cacheName (fileText april10 nipaCatalog) world0)
     = Some (Returned (Some nipaCatalog), (sampleClient, w'))
     /\ sent w' = [])
  /\ (exists c1 w',
        readBeaDataSets nipaEnv 1 cacheName
          (sampleClient, set_file cacheName staleText world0)
        = Some (Returned (Some nipaCatalog), (c1, w'))
        /\ files w' !! cacheName = Some (fileText april10 nipaCatalog)
        /\ sent w' = [datasetListUrl; nipaParametersUrl; nipaYearUrl]).
Proof.
  split.
  - destruct (proj1 (cache_freshness_rule nipaEnv 1 cacheName sampleClient
                       (set_file cacheName (fileText april10 nipaCatalog) world0)
                       (fileText april10 nipaCatalog) april10
                       ltac:(vm_compute; reflexivity) ltac:(vm_compute; reflexivity))
                    ltac:(split; vm_compute; [discriminate|reflexivity])
                    nipaCatalog ltac:(repeat constructor)
                    ltac:(vm_compute; reflexivity))
      as (w' & Hr & Hs & _).
    exists w'. split; [exact Hr|exact Hs].
  - destruct (proj2 (cache_freshness_rule nipaEnv 1 cacheName sampleClient
                       (set_file cacheName staleText world0)
                       staleText {| year := 2024; month := 2; day := 1 |}
                       ltac:(vm_compute; reflexivity) ltac:(vm_compute; reflexivity))
                    ltac:(right; vm_compute; discriminate))
      as (_ & Hb).
    edestruct (Hb nipaCatalog) as (w' & Hr & Hf & Hs).
    + vm_compute. reflexivity.
    + repeat constructor.
    + eexists _, w'. split; [exact Hr|]. split; [exact Hf|]. rewrite Hs. reflexivity.
Defined.

(** C5, as stated, fails: a cache dated a year ahead, in the same quarter,
    is read as it is, with no request, where the rebuild would have
    fetched the catalog. *)
Lemma later_year_cache_is_not_rebuilt :
  year {| year := 2025; month := 2; day := 1 |} <> year (calendar februaryEnv 1)
  /\ strptime (strip (fst (readline (split_lines (universal_newlines laterYearText)))))
     = Returned {| year := 2025; month := 2; day := 1 |}
  /\ (exists w',
        readBeaDataSets februaryEnv 1 cacheName
          (sampleClient, set_file cacheName laterYearText world0)
        = Some (Returned (Some []), (sampleClient, w'))
        /\ sent w' = []
        /\ files w' !! cacheName = Some laterYearText)
  /\ option_map fst (rebuild februaryEnv 1 cacheName
                       (sampleClient, set_file cacheName laterYearText world0))
     = Some (Returned (Some nipaCatalog)).
Proof.
  split; [vm_compute; discriminate|]. split; [vm_compute; reflexivity|].
  split; [|vm_compute; reflexivity].
  eexists. split; [vm_compute; reflexivity|]. split; vm_compute; reflexivity.
Qed.

(** The sample catalog, written and read back on the same day. *)
Lemma cache_round_trip_witness :
  exists w1,
    writeDataSetsToFile nipaEnv nipaCatalog cacheName (sampleClient, world0)
    = Some (Returned tt, (sampleClient, w1))
    /\ exists w3,
         readBeaDataSets nipaEnv 1 cacheName (sampleClient, w1)
         = Some (Returned (Some nipaCatalog), (sampleClient, w3))
         /\ sent w3 = sent w1 /\ files w3 = files w1.
Proof.
  destruct (cache_round_trip nipaEnv 1 cacheName nipaCatalog sampleClient world0
              sampleClient
              (set_file cacheName (fileText april10 nipaCatalog) (pass nipaEnv 0 world0))
              ltac:(repeat constructor) ltac:(vm_compute; reflexivity))
    as (w1 & Hw & Hr).
  exists w1. split; [exact Hw|].
  assert (Hw1 : w1 = set_file cacheName (fileText april10 nipaCatalog) (pass nipaEnv 0 world0)).
  { rewrite (writeDataSetsToFile_text nipaEnv nipaCatalog cacheName sampleClient world0
               ltac:(repeat constructor)) in Hw.
    injection Hw as <-. reflexivity. }
  rewrite <- Hw1 in Hr. apply Hr; [reflexivity|vm_compute; reflexivity].
Defined.

(** C6, as stated, fails: a description that ends with a space comes back
    without it. *)
Lemma padded_description_is_not_read_back :
  exists w1 st,
    writeDataSetsToFile nipaEnv paddedCatalog cacheName (sampleClient, world0)
    = Some (Returned tt, (sampleClient, w1))
    /\ readBeaDataSets nipaEnv 1 cacheName (sampleClient, w1)
       = Some (Returned (Some nipaCatalog), st)
    /\ nipaCatalog <> paddedCatalog.
Proof.
  eexists _, _. split; [vm_compute; reflexivity|].
  split; [vm_compute; reflexivity|]. discriminate.
Qed.

(** ** More on the rate limiter *)

Lemma waitLoop_released_now (E : Env) (fuel : nat) :
  forall c w c' w',
    limitsReached c = true ->
    waitLoop E fuel c w = Some (c', w') ->
    now w' = lastReset c'.
Proof.
  induction fuel as [|fuel IH]; intros c w c' w' Hl H; cbn [waitLoop] in H; rewrite Hl in H.
  - discriminate.
  - destruct (time_time E w) as [t w1].
    set (w2 := if Qltb 0 (60 - (t - lastReset c)) then time_sleep E (60 - (t - lastReset c)) w1 else w1) in H.
    pose proof (resetCounters_cases E c w2) as [Hw Hr].
    destruct (resetCounters E c w2) as [c3 w3]. cbn [fst snd] in Hw, Hr.
    destruct (limitsReached c3) eqn:Hl3.
    + eapply IH; eassumption.
    + destruct fuel; cbn [waitLoop] in H; rewrite Hl3 in H; injection H as <- <-.
      all: destruct Hr as [(_ & _ & Hlr & _) | (_ & ->)]; [|congruence].
      all: rewrite Hlr, Hw; reflexivity.
Qed.

(** X1.  A call that finds every counter below its limit after the reset check does
    not wait: whatever the fuel, it comes back after two interactions with
    the outside world, the clock reading of the reset check and the GET,
    with its URL last on the list of requests. *)
Theorem no_wait_under_budget (E : Env) (fuel : nat) (url : string)
    (c : BeaApiClient) (w : World) :
  underBudget (fst (resetCounters E c w)) ->
  exists out c2 w2,
    checkLimits E fuel url c w = Some (out, (c2, w2))
    /\ tick w2 = S (S (tick w))
    /\ (now w2 == now w + elapsed E (tick w) + elapsed E (S (tick w)))%Q
    /\ sent w2 = sent w ++ [url].
Proof.
  intros Hu. apply limitsReached_false in Hu.
  unfold checkLimits, awaitBudget.
  pose proof (resetCounters_cases E c w) as [Hw _].
  destruct (resetCounters E c w) as [c0 w0]. cbn [fst snd] in Hu, Hw. subst w0.
  assert (Hloop : waitLoop E fuel c0 (snd (time_time E w)) = Some (c0, snd (time_time E w)))
    by (destruct fuel; cbn [waitLoop]; rewrite Hu; reflexivity).
  rewrite Hloop. unfold issueRequest, requests_get, time_time, pass. cbn [fst snd tick now sent].
  eexists _, _, _. split; [reflexivity|]. cbn [tick now sent].
  split; [reflexivity|]. split; [ring|reflexivity].
Qed.

Lemma no_wait_under_budget_witness :
  exists out c2 w2,
    checkLimits nipaEnv 0 datasetListUrl sampleClient world0 = Some (out, (c2, w2))
    /\ tick w2 = S (S (tick world0))
    /\ (now w2 == now world0 + elapsed nipaEnv (tick world0) + elapsed nipaEnv (S (tick world0)))%Q
    /\ sent w2 = sent world0 ++ [datasetListUrl].
Proof.
  apply (no_wait_under_budget nipaEnv 0 datasetListUrl sampleClient world0).
  vm_compute. repeat split.
Defined.

(** X2.  After any call that comes back, the request count and the error count are
    within their limits, and the bytes received exceed the data limit by
    less than the body of the response just received: a budget is overrun
    by one response at most. *)
Theorem overshoot_is_below_one_response (E : Env) (fuel : nat) (url : string)
    (c : BeaApiClient) (w : World) out c2 w2 :
  checkLimits E fuel url c w = Some (out, (c2, w2)) ->
  let r := http E (Nat.pred (tick w2)) url in
  out = deliver r
  /\ requestsMade c2 <= requestLimit c2
  /\ errorsMade c2 <= errorLimit c2
  /\ dataReceived c2 < dataLimit c2 + Z.of_nat (String.length (content r)).
Proof.
  intros H. unfold checkLimits in H.
  destruct (awaitBudget E fuel c w) as [[cg wg]|] eqn:Hg; [|discriminate].
  apply awaitBudget_exit in Hg as ((Hu1 & Hu2 & Hu3) & _ & _).
  unfold issueRequest, requests_get in H. injection H as <- <- <-.
  cbn [tick pass Nat.pred]. unfold account.
  cbn [requestsMade requestLimit errorsMade errorLimit dataReceived dataLimit].
  split; [reflexivity|]. destruct (status_code _ =? 200); lia.
Qed.

Lemma overshoot_is_below_one_response_witness :
  let out := fst (issueRequest bulkyEnv datasetListUrl sampleClient (snd (time_time bulkyEnv world0))) in
  let c2 := fst (snd (issueRequest bulkyEnv datasetListUrl sampleClient (snd (time_time bulkyEnv world0)))) in
  let w2 := snd (snd (issueRequest bulkyEnv datasetListUrl sampleClient (snd (time_time bulkyEnv world0)))) in
  let r := http bulkyEnv (Nat.pred (tick w2)) datasetListUrl in
  out = deliver r
  /\ requestsMade c2 <= requestLimit c2
  /\ errorsMade c2 <= errorLimit c2
  /\ dataReceived c2 < dataLimit c2 + Z.of_nat (String.length (content r)).
Proof.
  apply (overshoot_is_below_one_response bulkyEnv 0 datasetListUrl sampleClient world0).
  reflexivity.
Defined.

(** X3.  A call that has to wait is released at the very clock reading that finds
    the window over: when the request goes out the clock shows the new
    window start, which is more than 60 seconds after the old one. *)
Theorem blocked_call_released_at_rollover_reading (E : Env) (fuel : nat)
    (c : BeaApiClient) (w : World) cg wg :
  limitsReached (fst (resetCounters E c w)) = true ->
  awaitBudget E fuel c w = Some (cg, wg) ->
  now wg = lastReset cg /\ (lastReset c + 60 < now wg)%Q.
Proof.
  intros Hl H. unfold awaitBudget in H.
  pose proof (resetCounters_cases E c w) as [_ Hr].
  destruct (resetCounters E c w) as [c0 w0]. cbn [fst snd] in Hl, Hr.
  pose proof (waitLoop_released_now E fuel c0 w0 cg wg Hl H) as Hnow.
  split; [exact Hnow|]. rewrite Hnow.
  apply waitLoop_exit in H as (_ & _ & [(Hf & _) | (_ & _ & Hlt)]); [congruence|].
  destruct Hr as [(Hlt0 & _ & Hlr & _) | (_ & ->)]; [|exact Hlt].
  rewrite Hlr in Hlt. lra.
Qed.

Lemma blocked_call_released_at_rollover_reading_witness :
  exists cg wg,
    awaitBudget calmEnv 1 spentClient world0 = Some (cg, wg)
    /\ now wg = lastReset cg /\ (lastReset spentClient + 60 < now wg)%Q.
Proof.
  eexists _, _. split; [|eapply (blocked_call_released_at_rollover_reading calmEnv 1 spentClient world0)].
  all: vm_compute; reflexivity.
Defined.

(** ** More on the catalog builder *)

Lemma for_each_dicts {B : Type} (f : PyVal -> Outcome B) (g : PyVal -> B) (xs : list PyVal) :
  (forall x, f x = if is_dict x then Returned (g x) else Raised AttributeError) ->
  for_each f xs = if forallb is_dict xs then Returned (map g xs) else Raised AttributeError.
Proof.
  intros Hf. induction xs as [|x xs IH]; [reflexivity|].
  cbn [for_each forallb map]. rewrite Hf. destruct (is_dict x); [|reflexivity].
  cbn. rewrite IH. destruct (forallb is_dict xs); reflexivity.
Qed.

(** X4.  [extractParamInfo] returns six lists with one entry per parameter of the
    coerced response, each entry the value under the parameter's key, or the
    default when the key is missing ('N/A' for the name, the description and
    the required flag, 'N/a' for the three others); it fails with
    [AttributeError] exactly when some element of the response is not an
    object. *)
Theorem extractParamInfo_lists (parameters : PyVal) :
  let ps := ensureResponseIsList parameters in
  extractParamInfo parameters
  = if forallb is_dict ps then
      Returned (map (field "ParameterName" (PStr "N/A")) ps,
                map (field "ParameterDescription" (PStr "N/A")) ps,
                map (field "ParameterIsRequiredFlag" (PStr "N/A")) ps,
                map (field "ParameterDefaultValue" (PStr "N/a")) ps,
                map (field "MultipleAcceptedFlag" (PStr "N/a")) ps,
                map (field "AllValue" (PStr "N/a")) ps)
    else Raised AttributeError.
Proof.
  intros ps. unfold extractParamInfo. fold ps.
  rewrite (for_each_dicts paramInfo
             (fun p => (field "ParameterName" (PStr "N/A") p,
                        field "ParameterDescription" (PStr "N/A") p,
                        field "ParameterIsRequiredFlag" (PStr "N/A") p,
                        field "ParameterDefaultValue" (PStr "N/a") p,
                        field "MultipleAcceptedFlag" (PStr "N/a") p,
                        field "AllValue" (PStr "N/a") p))).
  - destruct (forallb is_dict ps); [|reflexivity]. cbn.
    rewrite !map_map. reflexivity.
  - intros [| | | | |kvs]; reflexivity.
Qed.

Lemma extractDataSets_list (items : list PyVal) :
  extractDataSets (PList items)
  = if forallb is_dict items then
      Returned (map (field "DatasetName" (PStr "N/A")) items,
                map (field "DatasetDescription" (PStr "N/A")) items)
    else Raised AttributeError.
Proof.
  unfold extractDataSets. cbn [py_iter]. cbn [mbind Outcome_bind].
  rewrite (for_each_dicts _
             (fun p => (field "DatasetName" (PStr "N/A") p,
                        field "DatasetDescription" (PStr "N/A") p))).
  - destruct (forallb is_dict items); [|reflexivity]. cbn.
    rewrite !map_map. reflexivity.
  - intros [| | | | |kvs]; reflexivity.
Qed.

(** X5.  What [extractDataSets] makes of each kind of response: of a list of
    objects, the names and the descriptions, 'N/A' standing for a missing
    one; of a list with an element that is not an object, of a non-empty
    object and of a non-empty string, [AttributeError]; of [None], a Boolean
    or a number, [TypeError]; of an empty object or string, two empty
    lists. *)
Theorem extractDataSets_by_kind_of_response (dataSets : PyVal) :
  extractDataSets dataSets
  = match dataSets with
    | PList items =>
        if forallb is_dict items then
          Returned (map (field "DatasetName" (PStr "N/A")) items,
                    map (field "DatasetDescription" (PStr "N/A")) items)
        else Raised AttributeError
    | PDict [] | PStr EmptyString => Returned ([], [])
    | PDict _ | PStr _ => Raised AttributeError
    | PNone | PBool _ | PInt _ => Raised TypeError
    end.
Proof.
  destruct dataSets as [| | |s|items|kvs]; try reflexivity.
  - destruct s; reflexivity.
  - apply extractDataSets_list.
  - destruct kvs as [|[k v] kvs]; reflexivity.
Qed.

Lemma item_middle (done rest : list PyVal) (x : PyVal) (n : nat) :
  length done = n -> item (done ++ x :: rest) n = Returned x.
Proof. intros <-. unfold item. rewrite list_lookup_middle; reflexivity. Qed.

Lemma insert_middle (done rest : list PyVal) (x y : PyVal) (n : nat) :
  length done = n -> <[n := y]> (done ++ x :: rest) = (done ++ [y]) ++ rest.
Proof.
  intros <-. rewrite insert_app_r_alt by lia. rewrite Nat.sub_diag. cbn.
  rewrite <- app_assoc. reflexivity.
Qed.

Lemma item_short (l : list PyVal) (i : nat) :
  (length l <= i)%nat -> item l i = Raised IndexError.
Proof. intros H. unfold item. rewrite lookup_ge_None_2; [reflexivity|exact H]. Qed.

Lemma sentinel_insert (done rest : list PyVal) (x : PyVal) (n : nat) :
  length done = n ->
  (if py_eq_str x "" then <[n := PStr "N/a"]> (done ++ x :: rest) else done ++ x :: rest)
  = (done ++ [sentinelOf x]) ++ rest.
Proof.
  intros Hn. unfold sentinelOf. destruct (py_eq_str x "").
  - apply insert_middle, Hn.
  - rewrite <- app_assoc. reflexivity.
Qed.

(** The first loop, from index [length done] on. *)
Lemma flag_loop (todo : list PyVal) : forall n done doneM restM,
  length done = n -> length doneM = n ->
  for_range flagStep (seq n (length todo)) (done ++ todo, doneM ++ restM)
  = if (length todo <=? length restM)%nat then
      Returned (done ++ map flagOf todo,
                doneM ++ map flagOf (take (length todo) restM) ++ drop (length todo) restM)
    else Raised IndexError.
Proof.
  induction todo as [|r todo IH]; intros n done doneM restM Hd Hm.
  - cbn. rewrite drop_0. reflexivity.
  - cbn [length seq for_range flagStep].
    rewrite (item_middle done) by exact Hd. cbn [mbind Outcome_bind].
    destruct restM as [|m restM].
    + rewrite item_short by (rewrite app_nil_r; lia). reflexivity.
    + rewrite (item_middle doneM) by exact Hm. cbn [mbind Outcome_bind].
      rewrite (insert_middle done) by exact Hd.
      rewrite (insert_middle doneM) by exact Hm.
      rewrite IH by (rewrite length_app; cbn; lia).
      cbn [length]. change (S (length todo) <=? S (length restM))%nat
        with (length todo <=? length restM)%nat.
      destruct (length todo <=? length restM)%nat; [|reflexivity].
      cbn [map take drop]. rewrite <- !app_assoc. reflexivity.
Qed.

(** The second loop, from index [length done] on. *)
Lemma sentinel_loop (todo : list PyVal) : forall n done doneD restD,
  length done = n -> length doneD = n ->
  for_range sentinelStep (seq n (length todo)) (done ++ todo, doneD ++ restD)
  = if (length todo <=? length restD)%nat then
      Returned (done ++ map sentinelOf todo,
                doneD ++ map sentinelOf (take (length todo) restD) ++ drop (length todo) restD)
    else Raised IndexError.
Proof.
  induction todo as [|r todo IH]; intros n done doneD restD Hd Hm.
  - cbn. rewrite drop_0. reflexivity.
  - cbn [length seq for_range sentinelStep].
    rewrite (item_middle done) by exact Hd. cbn [mbind Outcome_bind].
    rewrite (sentinel_insert done) by exact Hd.
    destruct restD as [|m restD].
    + rewrite item_short by (rewrite app_nil_r; lia). reflexivity.
    + rewrite (item_middle doneD) by exact Hm. cbn [mbind Outcome_bind].
      rewrite (sentinel_insert doneD) by exact Hm.
      rewrite IH by (rewrite length_app; cbn; lia).
      cbn [length]. change (S (length todo) <=? S (length restD))%nat
        with (length todo <=? length restD)%nat.
      destruct (length todo <=? length restD)%nat; [|reflexivity].
      cbn [map take drop]. rewrite <- !app_assoc. reflexivity.
Qed.

Lemma updateParametersLists_cases (d : BeaDataSet) (required defaults multiple allValue : list PyVal) :
  updateParametersLists (withParameterLists d required defaults multiple allValue)
  = if (length required <=? length multiple)%nat && (length allValue <=? length defaults)%nat
    then Returned (withParameterLists d
                     (map flagOf required)
                     (map sentinelOf (take (length allValue) defaults)
                      ++ drop (length allValue) defaults)
                     (map flagOf (take (length required) multiple)
                      ++ drop (length required) multiple)
                     (map sentinelOf allValue))
    else Raised IndexError.
Proof.
  unfold updateParametersLists, withParameterLists.
  cbn [parametersRequiredInRequest parametersMultipleValsAcceptedInRequest
       parametersAllValueRequest parametersDefaultValues as_list mbind Outcome_bind
       dataSetName dataSetDescription parameters parametersDescriptions parameterInputs
       parameterInputsDescriptions].
  pose proof (flag_loop required 0 [] [] multiple eq_refl eq_refl) as Hf.
  pose proof (sentinel_loop allValue 0 [] [] defaults eq_refl eq_refl) as Hs.
  cbn [app] in Hf, Hs. rewrite Hf.
  destruct (length required <=? length multiple)%nat; [|reflexivity].
  cbn [app mbind Outcome_bind andb].
  rewrite Hs.
  destruct (length allValue <=? length defaults)%nat; reflexivity.
Qed.

Lemma updateParametersLists_Returned (d d1 : BeaDataSet) :
  updateParametersLists d = Returned d1 ->
  exists required defaults multiple allValue,
    d = withParameterLists d required defaults multiple allValue
    /\ (length required <= length multiple)%nat
    /\ (length allValue <= length defaults)%nat
    /\ d1 = withParameterLists d
              (map flagOf required)
              (map sentinelOf (take (length allValue) defaults)
               ++ drop (length allValue) defaults)
              (map flagOf (take (length required) multiple)
               ++ drop (length required) multiple)
              (map sentinelOf allValue).
Proof.
  intros H.
  assert (exists required defaults multiple allValue,
             d = withParameterLists d required defaults multiple allValue)
    as (required & defaults & multiple & allValue & Hd).
  { destruct d as [n ds p pd req dfl mul allv i id]. unfold updateParametersLists in H.
    cbn [parametersRequiredInRequest parametersMultipleValsAcceptedInRequest
         parametersAllValueRequest parametersDefaultValues] in H.
    destruct req as [| | | |req|]; try discriminate H.
    destruct mul as [| | | |mul|]; try discriminate H.
    cbn [as_list mbind Outcome_bind] in H.
    destruct (for_range flagStep _ _) as [[r' m']|]; [|discriminate H].
    cbn [mbind Outcome_bind] in H.
    destruct allv as [| | | |allv|]; try discriminate H.
    destruct dfl as [| | | |dfl|]; try discriminate H.
    exists req, dfl, mul, allv. reflexivity. }
  exists required, defaults, multiple, allValue. split; [exact Hd|].
  rewrite Hd, updateParametersLists_cases in H.
  destruct (length required <=? length multiple)%nat eqn:H1; [|discriminate H].
  destruct (length allValue <=? length defaults)%nat eqn:H2; [|discriminate H].
  apply Nat.leb_le in H1, H2. injection H as <-. auto.
Qed.

(** X6.  On lists of equal lengths, as [extractParamInfo] makes them,
    [updateParametersLists] returns: every required flag and every
    multiple-values flag becomes the Boolean that tells whether it was the
    string '1', every empty default value and every empty all-value token
    becomes 'N/a', and nothing else changes. *)
Theorem updateParametersLists_converts (d : BeaDataSet)
    (required defaults multiple allValue : list PyVal) :
  length multiple = length required ->
  length defaults = length allValue ->
  updateParametersLists (withParameterLists d required defaults multiple allValue)
  = Returned (withParameterLists d (map flagOf required) (map sentinelOf defaults)
                (map flagOf multiple) (map sentinelOf allValue)).
Proof.
  intros H1 H2. rewrite updateParametersLists_cases.
  rewrite <- H1, <- H2, !Nat.leb_refl, !firstn_all, !drop_all, !app_nil_r. reflexivity.
Qed.

Lemma updateParametersLists_converts_witness :
  updateParametersLists rawDataSet = Returned updatedDataSet.
Proof.
  apply (updateParametersLists_converts regional
           [PStr "1"; PStr "0"] [PStr ""; PStr "2020"] [PStr "0"; PStr "1"]
           [PStr "ALL"; PStr ""]); reflexivity.
Defined.

(** X7.  [updateParametersLists] fails with [IndexError] when the list of
    multiple-values flags is shorter than the list of required flags, or the
    list of default values shorter than the list of all-value tokens. *)
Theorem updateParametersLists_short_list (d : BeaDataSet)
    (required defaults multiple allValue : list PyVal) :
  (length multiple < length required)%nat \/ (length defaults < length allValue)%nat ->
  updateParametersLists (withParameterLists d required defaults multiple allValue)
  = Raised IndexError.
Proof.
  intros H. rewrite updateParametersLists_cases.
  destruct (length required <=? length multiple)%nat eqn:H1; [|reflexivity].
  destruct (length allValue <=? length defaults)%nat eqn:H2; [|reflexivity].
  apply Nat.leb_le in H1, H2. lia.
Qed.

Lemma updateParametersLists_short_list_witness :
  updateParametersLists lopsidedDataSet = Raised IndexError.
Proof.
  apply (updateParametersLists_short_list regional
           [PStr "1"; PStr "0"] [PStr ""; PStr "2020"] [PStr "0"] [PStr "ALL"; PStr ""]).
  left. cbn. lia.
Defined.

Lemma flagOf_flagOf (v : PyVal) : flagOf (flagOf v) = PBool false.
Proof. reflexivity. Qed.

Lemma sentinelOf_sentinelOf (v : PyVal) : sentinelOf (sentinelOf v) = sentinelOf v.
Proof.
  unfold sentinelOf. destruct (py_eq_str v "") eqn:H; [reflexivity|]. rewrite H. reflexivity.
Qed.

(** X8.  [updateParametersLists] is not idempotent.  Run again on its own result
    it returns, leaves the default values and the all-value tokens as they
    are, and turns every required flag, and the multiple-values flag of
    every parameter, to [False]: no Boolean equals the string '1'. *)
Theorem updateParametersLists_twice_clears_flags (d d1 : BeaDataSet) :
  updateParametersLists d = Returned d1 ->
  exists d2 required multiple,
    updateParametersLists d1 = Returned d2
    /\ parametersRequiredInRequest d2 = PList required
    /\ parametersMultipleValsAcceptedInRequest d2 = PList multiple
    /\ Forall (fun flag => flag = PBool false) required
    /\ (forall i, (i < length required)%nat -> multiple !! i = Some (PBool false))
    /\ parametersDefaultValues d2 = parametersDefaultValues d1
    /\ parametersAllValueRequest d2 = parametersAllValueRequest d1.
Proof.
  intros H.
  apply updateParametersLists_Returned in H
    as (required & defaults & multiple & allValue & _ & H1 & H2 & ->).
  set (n := length required) in *. set (m := length allValue) in *.
  assert (Ht : length (take n multiple) = n) by (rewrite length_take; lia).
  assert (Hu : length (take m defaults) = m) by (rewrite length_take; lia).
  pose proof (updateParametersLists_cases d (map flagOf required)
                (map sentinelOf (take m defaults) ++ drop m defaults)
                (map flagOf (take n multiple) ++ drop n multiple)
                (map sentinelOf allValue)) as Hc.
  rewrite !length_app, !length_map, Ht, Hu in Hc. fold n m in Hc.
  replace (n <=? n + length (drop n multiple))%nat with true in Hc
    by (symmetry; apply Nat.leb_le; lia).
  replace (m <=? m + length (drop m defaults))%nat with true in Hc
    by (symmetry; apply Nat.leb_le; lia).
  cbn [andb] in Hc.
  eexists _, _, _. split; [exact Hc|].
  cbn [withParameterLists parametersRequiredInRequest parametersMultipleValsAcceptedInRequest
       parametersDefaultValues parametersAllValueRequest].
  split; [reflexivity|]. split; [reflexivity|].
  assert (Htake : forall (f : PyVal -> PyVal) k (l : list PyVal),
             (k <= length l)%nat ->
             take k (map f (take k l) ++ drop k l) = map f (take k l)).
  { intros f k l Hk. rewrite take_app_le by (rewrite length_map, length_take; lia).
    apply firstn_all2. rewrite length_map, length_take. lia. }
  assert (Hdrop : forall (f : PyVal -> PyVal) k (l : list PyVal),
             (k <= length l)%nat ->
             drop k (map f (take k l) ++ drop k l) = drop k l).
  { intros f k l Hk. rewrite drop_app_length'; [reflexivity|].
    rewrite length_map, length_take. lia. }
  rewrite !Htake, !Hdrop by assumption.
  split; [|split; [|split]].
  - rewrite Forall_map, Forall_map. apply Forall_true. intros x. reflexivity.
  - intros i Hi. rewrite !length_map in Hi. fold n in Hi.
    rewrite lookup_app_l by (rewrite !length_map, Ht; exact Hi).
    rewrite !list_lookup_fmap.
    destruct (take n multiple !! i) eqn:Hl; [reflexivity|].
    apply lookup_ge_None in Hl. lia.
  - f_equal. f_equal. rewrite map_map. apply map_ext. intros x. apply sentinelOf_sentinelOf.
  - f_equal. rewrite map_map. apply map_ext. intros x. apply sentinelOf_sentinelOf.
Qed.

Lemma updateParametersLists_twice_clears_flags_witness :
  exists d2 required multiple,
    updateParametersLists updatedDataSet = Returned d2
    /\ parametersRequiredInRequest d2 = PList required
    /\ parametersMultipleValsAcceptedInRequest d2 = PList multiple
    /\ Forall (fun flag => flag = PBool false) required
    /\ (forall i, (i < length required)%nat -> multiple !! i = Some (PBool false))
    /\ parametersDefaultValues d2 = parametersDefaultValues updatedDataSet
    /\ parametersAllValueRequest d2 = parametersAllValueRequest updatedDataSet.
Proof.
  apply (updateParametersLists_twice_clears_flags rawDataSet updatedDataSet). reflexivity.
Defined.

Lemma dict_get_own (kvs : list (string * PyVal)) (k : string) :
  In k (map fst kvs) -> exists v, dict_get kvs k = Some v.
Proof.
  induction kvs as [|[k' v'] kvs IH]; intros Hin; [destruct Hin|].
  cbn [dict_get]. destruct (String.eqb k k') eqn:Hk; [eauto|].
  apply IH. destruct Hin as [Heq|Hin]; [|exact Hin].
  cbn in Heq. subst k'. rewrite String.eqb_refl in Hk. discriminate.
Qed.

Lemma keyed_own (kvs : list (string * PyVal)) (i : nat) :
  (i < length kvs)%nat -> exists v, keyed (PDict kvs) (map fst kvs) i = Returned v.
Proof.
  intros Hi. unfold keyed.
  destruct (map fst kvs !! i) as [k|] eqn:Hk.
  - destruct (dict_get_own kvs k) as [v Hv].
    + apply list_elem_of_In. eapply list_elem_of_lookup_2, Hk.
    + exists v. cbn [py_subscript]. rewrite Hv. reflexivity.
  - apply lookup_ge_None in Hk. rewrite length_map in Hk. lia.
Qed.

Lemma keyed_beyond (entry : PyVal) (keys : list string) (i : nat) :
  (length keys <= i)%nat -> keyed entry keys i = Raised IndexError.
Proof. intros Hi. unfold keyed. rewrite lookup_ge_None_2; [reflexivity|exact Hi]. Qed.

(** The rows of the default branch when every entry has the two keys. *)
Lemma plain_rows (k0 k1 : string) (keys : list string) (entries : list PyVal) :
  Forall (fun e => exists kvs v d,
            e = PDict kvs /\ dict_get kvs k0 = Some v /\ dict_get kvs k1 = Some d) entries ->
  for_each (plainEntry (k0 :: k1 :: keys)) entries
  = Returned (map (fun e => (field k0 PNone e, field k1 PNone e)) entries).
Proof.
  induction 1 as [|e entries (kvs & v & d & -> & Hv & Hd) _ IH]; [reflexivity|].
  cbn [for_each map]. rewrite IH.
  unfold plainEntry, keyed. cbn [lookup list_lookup py_subscript field].
  rewrite Hv, Hd. reflexivity.
Qed.

(** X9.  Outside the year-range branch, valid inputs are read under the first two
    keys of the first entry: when every entry is an object that has these
    two keys, in whatever order, [extractValidInputs] returns the values
    under the first key and the descriptions under the second, one per
    entry. *)
Theorem plain_inputs_follow_first_entry (inputs name p : PyVal)
    (k0 k1 : string) (v0 v1 : PyVal) (more : list (string * PyVal)) (others : list PyVal) :
  isYearRangeDataSet name && py_eq_str p "Year" = false ->
  ensureResponseIsList inputs = PDict ((k0, v0) :: (k1, v1) :: more) :: others ->
  Forall (fun e => exists kvs v d,
            e = PDict kvs /\ dict_get kvs k0 = Some v /\ dict_get kvs k1 = Some d) others ->
  extractValidInputs inputs name p
  = Returned (map (field k0 PNone) (ensureResponseIsList inputs),
              map (field k1 PNone) (ensureResponseIsList inputs)).
Proof.
  intros Hbranch Hlist Hothers. unfold extractValidInputs. rewrite Hbranch, Hlist.
  cbn [item lookup list_lookup mbind Outcome_bind py_keys map fst].
  rewrite plain_rows.
  - cbn [mbind Outcome_bind]. rewrite !map_map. reflexivity.
  - constructor; [|exact Hothers].
    destruct (dict_get_own ((k0, v0) :: (k1, v1) :: more) k0) as [v Hv]; [cbn; auto|].
    destruct (dict_get_own ((k0, v0) :: (k1, v1) :: more) k1) as [d Hd]; [cbn; auto|].
    eauto 6.
Qed.

Lemma plain_inputs_follow_first_entry_witness :
  extractValidInputs frequencyInputs (PStr "Regional") (PStr "Frequency")
  = Returned ([PStr "A"; PStr "Q"], [PStr "Annual"; PStr "Quarterly"]).
Proof.
  apply (plain_inputs_follow_first_entry frequencyInputs (PStr "Regional") (PStr "Frequency")
           "Key" "Desc" (PStr "A") (PStr "Annual") []
           [PDict [("Desc", PStr "Quarterly"); ("Key", PStr "Q")]]);
    [reflexivity|reflexivity|].
  repeat constructor. eexists _, _, _. repeat split; reflexivity.
Defined.

(** The rows of the default branch up to an entry that lacks the first key. *)
Lemma plain_rows_missing (k0 k1 : string) (keys : list string)
    (good : list PyVal) (kvs : list (string * PyVal)) (rest : list PyVal) :
  Forall (fun e => exists kvs v d,
            e = PDict kvs /\ dict_get kvs k0 = Some v /\ dict_get kvs k1 = Some d) good ->
  dict_get kvs k0 = None ->
  for_each (plainEntry (k0 :: k1 :: keys)) (good ++ PDict kvs :: rest)
  = Raised (KeyError k0).
Proof.
  intros Hgood Hnone.
  induction Hgood as [|e good (kvs' & v & d & -> & Hv & Hd) _ IH].
  - cbn [app for_each]. unfold plainEntry, keyed. cbn [lookup list_lookup py_subscript].
    rewrite Hnone. reflexivity.
  - cbn [app for_each]. rewrite IH.
    unfold plainEntry, keyed. cbn [lookup list_lookup py_subscript].
    rewrite Hv, Hd. reflexivity.
Qed.

(** X10.  Outside the year-range branch, an entry that lacks the first key of the
    first entry makes [extractValidInputs] fail with [KeyError] of that key,
    whatever the entries before it yielded. *)
Theorem entry_without_first_key_aborts (inputs name p : PyVal)
    (k0 k1 : string) (v0 v1 : PyVal) (more : list (string * PyVal))
    (good : list PyVal) (kvs : list (string * PyVal)) (rest : list PyVal) :
  isYearRangeDataSet name && py_eq_str p "Year" = false ->
  ensureResponseIsList inputs
  = PDict ((k0, v0) :: (k1, v1) :: more) :: good ++ PDict kvs :: rest ->
  Forall (fun e => exists kvs v d,
            e = PDict kvs /\ dict_get kvs k0 = Some v /\ dict_get kvs k1 = Some d) good ->
  dict_get kvs k0 = None ->
  extractValidInputs inputs name p = Raised (KeyError k0).
Proof.
  intros Hbranch Hlist Hgood Hnone. unfold extractValidInputs. rewrite Hbranch, Hlist.
  cbn [item lookup list_lookup mbind Outcome_bind py_keys map fst].
  change (PDict ((k0, v0) :: (k1, v1) :: more) :: good ++ PDict kvs :: rest)
    with ((PDict ((k0, v0) :: (k1, v1) :: more) :: good) ++ PDict kvs :: rest).
  rewrite (plain_rows_missing k0 k1 (map fst more)
             (PDict ((k0, v0) :: (k1, v1) :: more) :: good) kvs rest).
  - reflexivity.
  - constructor; [|exact Hgood].
    destruct (dict_get_own ((k0, v0) :: (k1, v1) :: more) k0) as [v Hv]; [cbn; auto|].
    destruct (dict_get_own ((k0, v0) :: (k1, v1) :: more) k1) as [d Hd]; [cbn; auto|].
    eauto 6.
  - exact Hnone.
Qed.

Lemma entry_without_first_key_aborts_witness :
  extractValidInputs brokenInputs (PStr "Regional") (PStr "Frequency")
  = Raised (KeyError "Key").
Proof.
  apply (entry_without_first_key_aborts brokenInputs (PStr "Regional") (PStr "Frequency")
           "Key" "Desc" (PStr "A") (PStr "Annual") [] []
           [("Desc", PStr "Quarterly")] []);
    [reflexivity|reflexivity|constructor|reflexivity].
Defined.

Lemma yearEntry_few_keys (kvs : list (string * PyVal)) :
  (length kvs < 7)%nat -> yearEntry (map fst kvs) (PDict kvs) = Raised IndexError.
Proof.
  intros Hlen. unfold yearEntry.
  assert (Hstep : forall i (k : PyVal -> Outcome (PyVal * PyVal)),
             ((length kvs <= i)%nat \/ forall v, k v = Raised IndexError) ->
             (keyed (PDict kvs) (map fst kvs) i ≫= k) = Raised IndexError).
  { intros i k Hk. destruct (Nat.lt_ge_cases i (length kvs)) as [Hi|Hi].
    - destruct (keyed_own kvs i Hi) as [v ->]. cbn [mbind Outcome_bind].
      destruct Hk as [Hk|Hk]; [lia|apply Hk].
    - rewrite keyed_beyond by (rewrite length_map; exact Hi). reflexivity. }
  apply Hstep. destruct (Nat.le_gt_cases (length kvs) 0) as [H0|H0]; [left; exact H0|right; intros ?].
  apply Hstep. destruct (Nat.le_gt_cases (length kvs) 1) as [H1|H1]; [left; exact H1|right; intros ?].
  apply Hstep. destruct (Nat.le_gt_cases (length kvs) 2) as [H2|H2]; [left; exact H2|right; intros ?].
  apply Hstep. destruct (Nat.le_gt_cases (length kvs) 3) as [H3|H3]; [left; exact H3|right; intros ?].
  apply Hstep. destruct (Nat.le_gt_cases (length kvs) 4) as [H4|H4]; [left; exact H4|right; intros ?].
  apply Hstep. destruct (Nat.le_gt_cases (length kvs) 5) as [H5|H5]; [left; exact H5|right; intros ?].
  apply Hstep. left. lia.
Qed.

Lemma plainEntry_few_keys (kvs : list (string * PyVal)) :
  (length kvs < 2)%nat -> plainEntry (map fst kvs) (PDict kvs) = Raised IndexError.
Proof.
  intros Hlen. unfold plainEntry.
  destruct kvs as [|[k v] [|? ?]]; [reflexivity| |cbn in Hlen; lia].
  unfold keyed. cbn [map fst lookup list_lookup py_subscript dict_get].
  rewrite String.eqb_refl. reflexivity.
Qed.

(** X11.  A first entry with fewer keys than the branch reads, seven in the
    year-range branch and two otherwise, makes [extractValidInputs] fail
    with [IndexError]. *)
Theorem first_entry_with_few_keys_aborts (inputs name p : PyVal)
    (kvs : list (string * PyVal)) (others : list PyVal) :
  ensureResponseIsList inputs = PDict kvs :: others ->
  (length kvs < if isYearRangeDataSet name && py_eq_str p "Year" then 7 else 2)%nat ->
  extractValidInputs inputs name p = Raised IndexError.
Proof.
  intros Hlist Hlen. unfold extractValidInputs. rewrite Hlist.
  destruct (isYearRangeDataSet name && py_eq_str p "Year").
  - cbn [item lookup list_lookup mbind Outcome_bind py_keys for_each].
    rewrite yearEntry_few_keys by exact Hlen. reflexivity.
  - cbn [item lookup list_lookup mbind Outcome_bind py_keys for_each].
    rewrite plainEntry_few_keys by exact Hlen. reflexivity.
Qed.

Lemma first_entry_with_few_keys_aborts_witness :
  extractValidInputs shortYearInputs (PStr "NIPA") (PStr "Year") = Raised IndexError.
Proof.
  apply (first_entry_with_few_keys_aborts shortYearInputs (PStr "NIPA") (PStr "Year")
           [("TableName", PStr "T1"); ("FirstAnnualYear", PStr "1990")] []);
    [reflexivity|cbn; lia].
Defined.

(** *** What a build asks the server *)

Section BuildRuns.
Variables (E : Env) (fuel : nat).

Lemma waitLoop_frame (n : nat) : forall c w c' w',
  waitLoop E n c w = Some (c', w') -> sent w' = sent w /\ files w' = files w.
Proof.
  induction n as [|n IH]; intros c w c' w' H; cbn [waitLoop] in H;
    destruct (limitsReached c); try discriminate;
    try (injection H as <- <-; auto; fail).
  destruct (time_time E w) as [t w1] eqn:Ht.
  set (w2 := if Qltb 0 (60 - (t - lastReset c))
             then time_sleep E (60 - (t - lastReset c)) w1 else w1) in H.
  pose proof (resetCounters_cases E c w2) as [Hw _].
  destruct (resetCounters E c w2) as [c3 w3]. cbn [snd] in Hw.
  apply IH in H as [Hs Hf]. rewrite Hs, Hf, Hw.
  unfold time_time in Ht. injection Ht as _ <-.
  subst w2. destruct (Qltb 0 _); auto.
Qed.

Lemma awaitBudget_frame (c : BeaApiClient) (w : World) c' w' :
  awaitBudget E fuel c w = Some (c', w') -> sent w' = sent w /\ files w' = files w.
Proof.
  unfold awaitBudget. intros H.
  pose proof (resetCounters_cases E c w) as [Hw _].
  destruct (resetCounters E c w) as [c0 w0]. cbn [snd] in Hw.
  apply waitLoop_frame in H as [Hs Hf]. rewrite Hs, Hf, Hw. auto.
Qed.

(** A request that comes back has put its URL last on the list, and has
    left the files and the settings of the client alone. *)
Lemma request_frame (url : string) (c : BeaApiClient) (w : World) out c' w' :
  request E fuel url (c, w) = Some (out, (c', w')) ->
  sent w' = sent w ++ [url] /\ files w' = files w /\ sameSettings c c'
  /\ quiet out.
Proof.
  unfold request, sendRequest, checkLimits. intros H.
  destruct (awaitBudget E fuel c w) as [[cg wg]|] eqn:Hg; [|discriminate].
  pose proof (awaitBudget_frame _ _ _ _ Hg) as [Hs Hf].
  apply awaitBudget_exit in Hg as (_ & Hset & _).
  unfold issueRequest, requests_get in H. injection H as <- <- <-.
  cbn [sent files]. rewrite Hs, Hf. split; [reflexivity|]. split; [reflexivity|].
  split.
  - eapply sameSettings_trans; [exact Hset|]. unfold sameSettings, account. cbn. tauto.
  - unfold deliver. intros e He.
    destruct (status_code _ =? 200); [destruct (json _)|];
      first [discriminate He | injection He as <-; reflexivity].
Qed.

Lemma clientKey_Returned (c : BeaApiClient) (w : World) key st :
  clientKey (c, w) = Some (Returned key, st) -> key = apiKey c /\ st = (c, w).
Proof. unfold clientKey. intros H. injection H as <- <-. auto. Qed.

(** One round of the loop over the parameters: one request, one more list
    of valid inputs and one more list of descriptions of the same length. *)
Lemma fetchInputs_Returned (d : BeaDataSet) (p : PyVal) c w d' c' w' :
  fetchInputs E fuel d p (c, w) = Some (Returned d', (c', w')) ->
  sent w' = sent w ++ [paramInputValuesUrl (apiKey c) (dataSetName d) p]
  /\ apiKey c' = apiKey c
  /\ exists ins insd vs ds,
       parameterInputs d = PList ins
       /\ parameterInputsDescriptions d = PList insd
       /\ paired (PList vs) (PList ds) = true
       /\ d' = withInputs d (PList (ins ++ [PList vs])) (PList (insd ++ [PList ds])).
Proof.
  unfold fetchInputs. intros H. io_inv H. apply IO_ret_Returned in H as (-> & Hst).
  repeat match goal with
  | Hk : clientKey _ = Some (Returned _, _) |- _ => apply clientKey_Returned in Hk as (-> & ->)
  end.
  match goal with Hr : request _ _ _ _ = Some (_, ?st) |- _ =>
    destruct st as [c1 w1]; apply request_frame in Hr as (Hs & _ & (Hkey & _) & _) end.
  injection Hst as <- <-.
  split; [exact Hs|]. split; [exact Hkey|].
  match goal with Hv : extractValidInputs _ _ _ = Returned (?a, ?b) |- _ =>
    apply extractValidInputs_Returned in Hv as (Hne & Hla & Hlb);
    rename a into vs; rename b into ds end.
  repeat match goal with
  | Ha : appended ?x _ = Returned _ |- _ =>
      unfold appended in Ha; destruct x as [| | | |?l|] eqn:?; try discriminate Ha;
      cbn in Ha; injection Ha as <-
  end.
  eexists _, _, vs, ds. split; [reflexivity|]. split; [reflexivity|].
  split; [|reflexivity].
  cbn [paired]. rewrite Hla, Hlb, Nat.eqb_refl. cbn [andb].
  destruct (ensureResponseIsList _); [congruence|reflexivity].
Qed.

Lemma fetchAllInputs_Returned (ps : list PyVal) : forall d c w d' c' w' ins insd,
  fetchAllInputs E fuel d ps (c, w) = Some (Returned d', (c', w')) ->
  parameterInputs d = PList ins ->
  parameterInputsDescriptions d = PList insd ->
  sent w' = sent w ++ map (paramInputValuesUrl (apiKey c) (dataSetName d)) ps
  /\ apiKey c' = apiKey c
  /\ exists more moreD,
       length more = length ps /\ length moreD = length ps
       /\ forallb (fun xy => paired (fst xy) (snd xy)) (zip more moreD) = true
       /\ d' = withInputs d (PList (ins ++ more)) (PList (insd ++ moreD)).
Proof.
  induction ps as [|p ps IH]; intros d c w d' c' w' ins insd H Hi Hd; cbn [fetchAllInputs] in H.
  - apply IO_ret_Returned in H as (-> & Hst). injection Hst as <- <-.
    cbn [map]. rewrite app_nil_r. split; [reflexivity|]. split; [reflexivity|].
    exists [], []. rewrite !app_nil_r. repeat split.
    destruct d; cbn in *; subst; reflexivity.
  - io_inv H.
    match goal with Hf : fetchInputs _ _ _ _ _ = Some (_, ?st) |- _ =>
      destruct st as [c1 w1];
      apply fetchInputs_Returned in Hf
        as (Hs1 & Hk1 & ins0 & insd0 & vs & ds & Hi0 & Hd0 & Hp & ->) end.
    rewrite Hi in Hi0. rewrite Hd in Hd0. injection Hi0 as <-. injection Hd0 as <-.
    eapply IH in H as (Hs2 & Hk2 & more & moreD & Hl1 & Hl2 & Hall & ->);
      [|reflexivity|reflexivity].
    cbn [withInputs dataSetName] in Hs2 |- *.
    split; [rewrite Hs2, Hs1, Hk1, <- app_assoc; reflexivity|].
    split; [congruence|].
    exists (PList vs :: more), (PList ds :: moreD).
    cbn [length zip zip_with forallb fst snd]. rewrite Hl1, Hl2, Hp, Hall.
    repeat split. unfold withInputs. cbn. rewrite <- !app_assoc. reflexivity.
Qed.

Lemma extractParamInfo_lengths (parameters' : PyVal) names descriptions required defaults
    multiple allValue :
  extractParamInfo parameters'
  = Returned (names, descriptions, required, defaults, multiple, allValue) ->
  length descriptions = length names /\ length required = length names
  /\ length defaults = length names /\ length multiple = length names
  /\ length allValue = length names.
Proof.
  unfold extractParamInfo. intros H.
  destruct (for_each paramInfo _) as [infos|]; [|discriminate].
  cbn [mbind Outcome_bind] in H. injection H as <- <- <- <- <- <-.
  rewrite !length_map. auto.
Qed.

Lemma flags_are_booleans (l : list PyVal) : forallb is_bool (map flagOf l) = true.
Proof. induction l as [|x l IH]; [reflexivity|exact IH]. Qed.

Lemma sentinels_are_not_empty (l : list PyVal) :
  forallb (fun v => negb (py_eq_str v "")) (map sentinelOf l) = true.
Proof.
  induction l as [|x l IH]; [reflexivity|]. cbn [map forallb]. rewrite IH, andb_true_r.
  unfold sentinelOf. destruct (py_eq_str x "") eqn:Hx; [reflexivity|]. rewrite Hx. reflexivity.
Qed.

Lemma buildDataSet_Returned (name description : PyVal) c w d c' w' :
  buildDataSet E fuel (name, description) (c, w) = Some (Returned d, (c', w')) ->
  sent w' = sent w ++ dataSetRequests (apiKey c) d
  /\ apiKey c' = apiKey c
  /\ dataSetName d = name /\ dataSetDescription d = description
  /\ catalogEntry d = true.
Proof.
  unfold buildDataSet. intros H. io_inv H.
  repeat match goal with
  | Hk : clientKey _ = Some (Returned _, _) |- _ => apply clientKey_Returned in Hk as (-> & ->)
  end.
  match goal with Hr : request _ _ _ _ = Some (_, ?st) |- _ =>
    destruct st as [c1 w1]; apply request_frame in Hr as (Hs & _ & (Hkey & _) & _) end.
  match goal with Hx : extractParamInfo _ = Returned _ |- _ =>
    apply extractParamInfo_lengths in Hx as (L1 & L2 & L3 & L4 & L5) end.
  match goal with Hu : updateParametersLists ?d0 = Returned _ |- _ =>
    apply updateParametersLists_Returned in Hu
      as (required & defaults & multiple & allValue & Hd0 & _ & _ & ->);
    cbn [withParameterLists dataSetName dataSetDescription parameters parametersDescriptions
         parameterInputs parameterInputsDescriptions] in Hd0;
    injection Hd0 as -> -> -> -> end.
  cbn [withParameterLists parameters py_iter] in *.
  match goal with Hp : Returned _ = Returned _ |- _ => injection Hp as <- end.
  eapply fetchAllInputs_Returned in H
    as (Hs2 & Hk2 & more & moreD & Hl1 & Hl2 & Hall & ->); [|reflexivity|reflexivity].
  cbn [dataSetName app] in Hs2.
  split.
  { rewrite Hs2, Hs, Hkey, <- app_assoc. reflexivity. }
  split; [congruence|]. split; [reflexivity|]. split; [reflexivity|].
  unfold catalogEntry, parameterNames.
  cbn [withInputs withParameterLists
       parameters parametersDescriptions parametersRequiredInRequest
       parametersDefaultValues parametersMultipleValsAcceptedInRequest
       parametersAllValueRequest parameterInputs parameterInputsDescriptions
       hasLength everyItem pairedItems app].
  rewrite !firstn_all2, !drop_ge, !app_nil_r by lia.
  rewrite !length_map, L1, L2, L3, L4, L5, Hl1, Hl2, !Nat.eqb_refl.
  rewrite !flags_are_booleans, !sentinels_are_not_empty, Hall. reflexivity.
Qed.

Lemma buildAll_Returned (entries : list (PyVal * PyVal)) : forall c w ds c' w',
  buildAll E fuel entries (c, w) = Some (Returned ds, (c', w')) ->
  sent w' = sent w ++ concat (map (dataSetRequests (apiKey c)) ds)
  /\ apiKey c' = apiKey c
  /\ map dataSetName ds = map fst entries
  /\ map dataSetDescription ds = map snd entries
  /\ Forall (fun d => catalogEntry d = true) ds.
Proof.
  induction entries as [|[name description] entries IH]; intros c w ds c' w' H;
    cbn [buildAll] in H.
  - apply IO_ret_Returned in H as (-> & Hst). injection Hst as <- <-.
    cbn. rewrite app_nil_r. auto.
  - io_inv H. apply IO_ret_Returned in H as (-> & Hst).
    match goal with Hb : buildDataSet _ _ _ _ = Some (_, ?st) |- _ =>
      destruct st as [c1 w1];
      apply buildDataSet_Returned in Hb as (Hs1 & Hk1 & Hn & Hd & Hshape) end.
    match goal with Hb : buildAll _ _ _ ?st0 = Some (_, ?st) |- _ =>
      subst st; apply IH in Hb as (Hs2 & Hk2 & Hns & Hds & Hall) end.
    cbn [map concat fst snd].
    split; [rewrite Hs2, Hs1, Hk1, <- app_assoc; reflexivity|].
    split; [congruence|]. split; [congruence|]. split; [congruence|].
    constructor; assumption.
Qed.

Lemma downloadBeaDatasets_Returned c w ds c' w' :
  downloadBeaDatasets E fuel (c, w) = Some (Returned ds, (c', w')) ->
  sent w' = sent w ++ catalogRequests (apiKey c) ds
  /\ apiKey c' = apiKey c
  /\ Forall (fun d => catalogEntry d = true) ds.
Proof.
  unfold downloadBeaDatasets. intros H. io_inv H.
  repeat match goal with
  | Hk : clientKey _ = Some (Returned _, _) |- _ => apply clientKey_Returned in Hk as (-> & ->)
  end.
  match goal with Hr : request _ _ _ _ = Some (_, ?st) |- _ =>
    destruct st as [c1 w1]; apply request_frame in Hr as (Hs & _ & (Hkey & _) & _) end.
  apply buildAll_Returned in H as (Hs2 & Hk2 & _ & _ & Hall).
  split; [|split; [congruence|exact Hall]].
  rewrite Hs2, Hs, Hkey, <- app_assoc. reflexivity.
Qed.

End BuildRuns.

Lemma length_concat_requests (key : string) (ds : list BeaDataSet) :
  length (concat (map (dataSetRequests key) ds))
  = (length ds + sum_list (map (fun d => length (parameterNames d)) ds))%nat.
Proof.
  unfold sum_list. induction ds as [|d ds IH]; [reflexivity|].
  cbn [map concat sum_list_with length]. rewrite length_app, IH.
  unfold dataSetRequests. cbn [length]. rewrite length_map. unfold id. lia.
Qed.

(** X12.  The requests of a build that returns a catalog are, in this order: the
    data set list, then for each data set of the catalog its parameter list
    followed by the valid inputs of each of its parameters, all with the
    key of the client; that is [1 + D + sum P_d] requests for [D] data sets
    of [P_d] parameters. *)
Theorem requests_of_a_build (E : Env) (fuel : nat) (c : BeaApiClient) (w : World)
    (ds : list BeaDataSet) (c' : BeaApiClient) (w' : World) :
  downloadBeaDatasets E fuel (c, w) = Some (Returned ds, (c', w')) ->
  sent w' = sent w ++ catalogRequests (apiKey c) ds
  /\ length (sent w')
     = (length (sent w) + 1 + length ds
        + sum_list (map (fun d => length (parameterNames d)) ds))%nat.
Proof.
  intros H. apply downloadBeaDatasets_Returned in H as (Hs & _ & _).
  split; [exact Hs|]. rewrite Hs, length_app. unfold catalogRequests.
  cbn [length]. rewrite length_concat_requests. lia.
Qed.

Lemma requests_of_a_build_witness :
  exists c' w',
    downloadBeaDatasets nipaEnv 1 (sampleClient, world0)
    = Some (Returned nipaCatalog, (c', w'))
    /\ sent w' = sent world0 ++ catalogRequests (apiKey sampleClient) nipaCatalog
    /\ length (sent w')
       = (length (sent world0) + 1 + length nipaCatalog
          + sum_list (map (fun d => length (parameterNames d)) nipaCatalog))%nat.
Proof.
  eexists _, _. split; [vm_compute; reflexivity|].
  eapply (requests_of_a_build nipaEnv 1 sampleClient world0 nipaCatalog).
  vm_compute. reflexivity.
Defined.

(** X13.  Every data set of a catalog the builder returns has the shape
    [catalogEntry]: eight lists with one entry per parameter, Boolean flags,
    no empty default value or all-value token, and for every parameter a
    non-empty list of valid inputs with as many descriptions. *)
Theorem catalog_entries_are_well_shaped (E : Env) (fuel : nat) (c : BeaApiClient)
    (w : World) (ds : list BeaDataSet) (c' : BeaApiClient) (w' : World) :
  downloadBeaDatasets E fuel (c, w) = Some (Returned ds, (c', w')) ->
  Forall (fun d => catalogEntry d = true) ds.
Proof.
  intros H. apply downloadBeaDatasets_Returned in H as (_ & _ & Hall). exact Hall.
Qed.

Lemma catalog_entries_are_well_shaped_witness :
  exists c' w',
    downloadBeaDatasets nipaEnv 1 (sampleClient, world0)
    = Some (Returned nipaCatalog, (c', w'))
    /\ Forall (fun d => catalogEntry d = true) nipaCatalog.
Proof.
  eexists _, _. split; [vm_compute; reflexivity|].
  eapply (catalog_entries_are_well_shaped nipaEnv 1 sampleClient world0 nipaCatalog).
  vm_compute. reflexivity.
Defined.

(** X14.  The catalog follows the list of the server: when the response to the
    first request lists [items], a build that returns has one data set per
    item, in the same order, duplicates included, named and described by
    what the item holds under DatasetName and DatasetDescription ('N/A'
    when missing). *)
Theorem catalog_follows_the_server_list (E : Env) (fuel : nat) (c : BeaApiClient)
    (w : World) (response : PyVal) (items : list PyVal) st1
    (ds : list BeaDataSet) st' :
  request E fuel (allDatasetsUrl (apiKey c)) (c, w) = Some (Returned response, st1) ->
  results response "Dataset" = Returned (PList items) ->
  downloadBeaDatasets E fuel (c, w) = Some (Returned ds, st') ->
  map dataSetName ds = map (field "DatasetName" (PStr "N/A")) items
  /\ map dataSetDescription ds = map (field "DatasetDescription" (PStr "N/A")) items.
Proof.
  intros Hreq Hres H. unfold downloadBeaDatasets in H.
  unfold mbind at 1, IO_bind at 1, clientKey at 1 in H. cbv zeta in H.
  unfold allDatasetsUrl in Hreq.
  unfold mbind at 1, IO_bind at 1 in H. rewrite Hreq in H.
  unfold mbind at 1, IO_bind at 1, lift at 1 in H. rewrite Hres in H.
  unfold mbind at 1, IO_bind at 1, lift at 1 in H. rewrite extractDataSets_list in H.
  destruct (forallb is_dict items); [|discriminate H].
  destruct st1 as [c1 w1], st' as [c' w'].
  apply buildAll_Returned in H as (_ & _ & Hn & Hd & _).
  assert (Hlen : length (map (field "DatasetName" (PStr "N/A")) items)
                 = length (map (field "DatasetDescription" (PStr "N/A")) items))
    by (rewrite !length_map; reflexivity).
  rewrite Hn, Hd, fst_zip, snd_zip by lia. auto.
Qed.

Lemma catalog_follows_the_server_list_witness :
  map dataSetName nipaCatalog = map (field "DatasetName" (PStr "N/A")) [nipaDataSet]
  /\ map dataSetDescription nipaCatalog
     = map (field "DatasetDescription" (PStr "N/A")) [nipaDataSet].
Proof.
  eapply (catalog_follows_the_server_list nipaEnv 1 sampleClient world0
            (envelope "Dataset" (PList [nipaDataSet])) [nipaDataSet] _ nipaCatalog _);
    vm_compute; reflexivity.
Defined.

(** *** What a build never does *)

Ltac quiet_now :=
  let e := fresh "e" in
  let He := fresh "He" in
  intros e He; first [discriminate He | injection He as <-; reflexivity].

Lemma quiet_bind {A B : Type} (o : Outcome A) (k : A -> Outcome B) :
  quiet o -> (forall a, quiet (k a)) -> quiet (o ≫= k).
Proof.
  unfold quiet. intros Ho Hk. destruct o as [a|e0]; cbn [mbind Outcome_bind]; [apply Hk|].
  intros e He. apply Ho. congruence.
Qed.

Lemma quiet_for_each {A B : Type} (f : A -> Outcome B) (xs : list A) :
  (forall x, quiet (f x)) -> quiet (for_each f xs).
Proof.
  intros Hf. induction xs as [|x xs IH]; [quiet_now|].
  cbn [for_each]. apply quiet_bind; [apply Hf|]. intros y.
  apply quiet_bind; [exact IH|]. intros ys. quiet_now.
Qed.

Lemma quiet_for_range {S : Type} (step : S -> nat -> Outcome S) (indices : list nat) :
  (forall st i, quiet (step st i)) -> forall st, quiet (for_range step indices st).
Proof.
  intros Hf. induction indices as [|i indices IH]; intros st; [quiet_now|].
  cbn [for_range]. apply quiet_bind; [apply Hf|exact IH].
Qed.

Lemma quiet_py_get (v : PyVal) (k : string) (dflt : PyVal) : quiet (py_get v k dflt).
Proof. destruct v; quiet_now. Qed.

Lemma quiet_py_subscript (v : PyVal) (k : string) : quiet (py_subscript v k).
Proof. destruct v; try quiet_now. cbn. destruct (dict_get _ _); quiet_now. Qed.

Lemma quiet_py_keys (v : PyVal) : quiet (py_keys v).
Proof. destruct v; quiet_now. Qed.

Lemma quiet_py_iter (v : PyVal) : quiet (py_iter v).
Proof. destruct v; quiet_now. Qed.

Lemma quiet_as_list (v : PyVal) : quiet (as_list v).
Proof. destruct v; quiet_now. Qed.

Lemma quiet_item (l : list PyVal) (i : nat) : quiet (item l i).
Proof. unfold item. destruct (l !! i); quiet_now. Qed.

Lemma quiet_keyed (entry : PyVal) (keys : list string) (n : nat) : quiet (keyed entry keys n).
Proof. unfold keyed. destruct (keys !! n); [apply quiet_py_subscript|quiet_now]. Qed.

Lemma quiet_Returned {A : Type} (a : A) : quiet (Returned a).
Proof. quiet_now. Qed.

Ltac quiet_walk :=
  repeat first
    [ apply quiet_Returned
    | apply quiet_py_get | apply quiet_py_subscript | apply quiet_py_keys
    | apply quiet_py_iter | apply quiet_as_list | apply quiet_item | apply quiet_keyed
    | apply quiet_bind; [|intros; cbv zeta]
    | apply quiet_for_each; intros
    | apply quiet_for_range; intros
    | match goal with |- quiet (let '(_, _) := ?p in _) => destruct p end
    | match goal with |- quiet (match ?p with (_, _) => _ end) => destruct p end ].

Lemma quiet_results (response : PyVal) (field : string) : quiet (results response field).
Proof. unfold results. quiet_walk. Qed.

Lemma quiet_extractParamInfo (parameters' : PyVal) : quiet (extractParamInfo parameters').
Proof. unfold extractParamInfo, paramInfo. quiet_walk. Qed.

Lemma quiet_extractDataSets (dataSets : PyVal) : quiet (extractDataSets dataSets).
Proof. unfold extractDataSets. quiet_walk. Qed.

Lemma quiet_extractValidInputs (inputs name p : PyVal) :
  quiet (extractValidInputs inputs name p).
Proof.
  unfold extractValidInputs. destruct (_ && _); unfold yearEntry, plainEntry; quiet_walk.
Qed.

Lemma quiet_updateParametersLists (d : BeaDataSet) : quiet (updateParametersLists d).
Proof. unfold updateParametersLists, flagStep, sentinelStep. quiet_walk. Qed.

Lemma quiet_appended (attribute x : PyVal) : quiet (appended attribute x).
Proof. unfold appended. quiet_walk. Qed.

Lemma tame_bind {A B : Type} (m : IO A) (k : A -> IO B) :
  tame m -> (forall a, tame (k a)) -> tame (m ≫= k).
Proof.
  intros Hm Hk c w out c' w' H. unfold mbind, IO_bind in H.
  destruct (m (c, w)) as [[[a|e] [c1 w1]]|] eqn:Hmc; [| |discriminate].
  - apply Hm in Hmc as [Hf _]. apply Hk in H as [Hf' Hq]. split; [congruence|exact Hq].
  - injection H as <- <- <-. apply Hm in Hmc as [Hf Hq]. split; [exact Hf|].
    intros e0 He. apply Hq. congruence.
Qed.

Lemma tame_ret {A : Type} (a : A) : tame (mret a : IO A).
Proof. intros c w out c' w' H. injection H as <- <- <-. split; [reflexivity|quiet_now]. Qed.

Lemma tame_lift {A : Type} (o : Outcome A) : quiet o -> tame (lift o).
Proof. intros Hq c w out c' w' H. injection H as <- <- <-. auto. Qed.

Lemma tame_clientKey : tame clientKey.
Proof. intros c w out c' w' H. injection H as <- <- <-. split; [reflexivity|quiet_now]. Qed.

Lemma tame_request (E : Env) (fuel : nat) (url : string) : tame (request E fuel url).
Proof. intros c w out c' w' H. apply request_frame in H. tauto. Qed.

Ltac tame_walk :=
  repeat first
    [ apply tame_ret | apply tame_clientKey | apply tame_request
    | apply tame_lift;
      first [ apply quiet_results | apply quiet_extractParamInfo | apply quiet_extractDataSets
            | apply quiet_extractValidInputs | apply quiet_updateParametersLists
            | apply quiet_appended | apply quiet_py_iter ]
    | apply tame_bind; [|intros; cbv zeta]
    | match goal with |- tame (let '(_, _) := ?p in _) => destruct p end
    | match goal with |- tame (match ?p with (_, _) => _ end) => destruct p end ].

Section TameBuild.
Variables (E : Env) (fuel : nat).

Lemma tame_fetchInputs (d : BeaDataSet) (p : PyVal) : tame (fetchInputs E fuel d p).
Proof. unfold fetchInputs. tame_walk. Qed.

Lemma tame_fetchAllInputs (ps : list PyVal) : forall d, tame (fetchAllInputs E fuel d ps).
Proof.
  induction ps as [|p ps IH]; intros d; cbn [fetchAllInputs]; [apply tame_ret|].
  apply tame_bind; [apply tame_fetchInputs|]. intros d'. apply IH.
Qed.

Lemma tame_buildDataSet (entry : PyVal * PyVal) : tame (buildDataSet E fuel entry).
Proof.
  unfold buildDataSet. destruct entry as [name description]. cbv zeta.
  tame_walk. apply tame_fetchAllInputs.
Qed.

Lemma tame_buildAll (entries : list (PyVal * PyVal)) : tame (buildAll E fuel entries).
Proof.
  induction entries as [|entry entries IH]; cbn [buildAll]; [apply tame_ret|].
  apply tame_bind; [apply tame_buildDataSet|]. intros d.
  apply tame_bind; [exact IH|]. intros ds. apply tame_ret.
Qed.

Lemma tame_downloadBeaDatasets : tame (downloadBeaDatasets E fuel).
Proof. unfold downloadBeaDatasets. tame_walk. apply tame_buildAll. Qed.

End TameBuild.

(** *** The [except] clauses *)

Lemma strptime_raises (s : string) (e : Exn) : strptime s = Raised e -> e = ValueError.
Proof.
  unfold strptime. intros H.
  repeat match type of H with
  | match ?x with _ => _ end = _ => destruct x
  | (if ?x then _ else _) = _ => destruct x
  end; congruence.
Qed.

Section CacheEdges.
Variables (E : Env) (fuel : nat).

(** The [try] block on a file that is there and whose first line is not a
    date. *)
Lemma readCache_undated (filename : string) (c : BeaApiClient) (w : World)
    (text : string) (e : Exn) :
  files w !! filename = Some text ->
  strptime (strip (fst (readline (split_lines (universal_newlines text))))) = Raised e ->
  readCache E fuel filename (c, w) = Some (Raised e, (c, w)).
Proof.
  intros Hfile Hdate. unfold readCache.
  unfold mbind at 1, IO_bind at 1. unfold open_read at 1. rewrite Hfile.
  destruct (readline (split_lines (universal_newlines text))) as [line file].
  cbn [fst snd] in *.
  unfold mbind at 1, IO_bind at 1. unfold lift at 1. rewrite Hdate. reflexivity.
Qed.

Lemma recover_other (filename : string) (e : Exn) (c : BeaApiClient) (w : World) :
  caught e = true ->
  recover E fuel filename e (c, w) = Some (Returned None, (c, time_sleep E 2 w)).
Proof. intros He. destruct e; try reflexivity; discriminate He. Qed.

(** Without the file, the load is the rebuild. *)
Lemma readBeaDataSets_missing (filename : string) (c : BeaApiClient) (w : World) :
  files w !! filename = None ->
  readBeaDataSets E fuel filename (c, w) = rebuild E fuel filename (c, w).
Proof.
  intros Hfile. unfold readBeaDataSets, try_except, readCache.
  unfold mbind at 1, IO_bind at 1. unfold open_read at 1. rewrite Hfile. reflexivity.
Qed.

End CacheEdges.

(** *** The load comes back *)

Lemma comesBack_bind {A B : Type} (m : IO A) (k : A -> IO B) :
  comesBack m -> (forall a, comesBack (k a)) -> comesBack (m ≫= k).
Proof.
  intros Hm Hk c w Hc. destruct (Hm c w Hc) as (out & c1 & w1 & Hmc & Hc1).
  unfold mbind, IO_bind. rewrite Hmc. destruct out as [a|e].
  - apply Hk, Hc1.
  - eauto.
Qed.

Lemma comesBack_ret {A : Type} (a : A) : comesBack (mret a : IO A).
Proof. intros c w Hc. exists (Returned a), c, w. auto. Qed.

Lemma comesBack_lift {A : Type} (o : Outcome A) : comesBack (lift o).
Proof. intros c w Hc. exists o, c, w. auto. Qed.

Lemma comesBack_clientKey : comesBack clientKey.
Proof. intros c w Hc. eexists _, c, w. split; [reflexivity|exact Hc]. Qed.

Lemma comesBack_world_step {A : Type} (f : World -> A * World) : comesBack (world_step f).
Proof.
  intros c w Hc. unfold world_step. destruct (f w) as [a w1].
  eexists _, c, w1. split; [reflexivity|exact Hc].
Qed.

Lemma comesBack_open_read (filename : string) : comesBack (open_read filename).
Proof.
  intros c w Hc. unfold open_read.
  destruct (files w !! filename); eexists _, c, w; (split; [reflexivity|exact Hc]).
Qed.

Lemma comesBack_open_write (filename : string) : comesBack (open_write filename).
Proof. intros c w Hc. eexists _, c, _. split; [reflexivity|exact Hc]. Qed.

Lemma comesBack_write (filename text : string) : comesBack (write filename text).
Proof. intros c w Hc. eexists _, c, _. split; [reflexivity|exact Hc]. Qed.

Lemma comesBack_try_except {A : Type} (body : IO A) (handler : Exn -> IO A) :
  comesBack body -> (forall e, comesBack (handler e)) -> comesBack (try_except body handler).
Proof.
  intros Hb Hh c w Hc. destruct (Hb c w Hc) as (out & c1 & w1 & Hbc & Hc1).
  unfold try_except. rewrite Hbc. destruct out as [a|e].
  - eauto.
  - apply Hh, Hc1.
Qed.

Lemma positiveLimits_same (c c' : BeaApiClient) :
  sameSettings c c' -> positiveLimits c -> positiveLimits c'.
Proof. unfold sameSettings, positiveLimits. intros (_ & -> & -> & ->). tauto. Qed.

Section LoadComesBack.
Variables (E : Env) (fuel : nat).
Hypothesis clock_advances : forall k, (0 < elapsed E k)%Q.

Lemma comesBack_request (url : string) : comesBack (request E (S fuel) url).
Proof.
  intros c w Hc. unfold request, sendRequest, checkLimits, awaitBudget.
  pose proof (resetCounters_cases E c w) as [_ Hr].
  destruct (resetCounters E c w) as [c0 w0]. cbn [fst snd] in Hr.
  assert (Hc0 : positiveLimits c0).
  { destruct Hr as [(_ & _ & _ & Hs) | (_ & ->)]; [|exact Hc].
    eapply positiveLimits_same; eassumption. }
  destruct Hc0 as (P1 & P2 & P3).
  destruct (waitLoop_terminates E fuel c0 w0 clock_advances P1 P2 P3) as (cg & wg & Hg).
  rewrite Hg. apply waitLoop_exit in Hg as (_ & Hs & _).
  unfold issueRequest, requests_get. eexists _, _, _. split; [reflexivity|].
  eapply positiveLimits_same; [|exact (conj P1 (conj P2 P3))].
  eapply sameSettings_trans; [exact Hs|]. unfold sameSettings, account. cbn. tauto.
Qed.

Ltac back_walk :=
  repeat first
    [ apply comesBack_ret | apply comesBack_clientKey | apply comesBack_request
    | apply comesBack_lift | apply comesBack_world_step
    | apply comesBack_open_read | apply comesBack_open_write | apply comesBack_write
    | apply comesBack_bind; [|intros; cbv zeta]
    | match goal with |- comesBack (let '(_, _) := ?p in _) => destruct p end
    | match goal with |- comesBack (match ?p with (_, _) => _ end) => destruct p end ].

Lemma comesBack_fetchAllInputs (ps : list PyVal) :
  forall d, comesBack (fetchAllInputs E (S fuel) d ps).
Proof.
  induction ps as [|p ps IH]; intros d; cbn [fetchAllInputs]; [apply comesBack_ret|].
  apply comesBack_bind; [unfold fetchInputs; back_walk|]. intros d'. apply IH.
Qed.

Lemma comesBack_buildAll (entries : list (PyVal * PyVal)) :
  comesBack (buildAll E (S fuel) entries).
Proof.
  induction entries as [|[name description] entries IH]; cbn [buildAll]; [apply comesBack_ret|].
  apply comesBack_bind.
  - unfold buildDataSet. cbv zeta. back_walk. apply comesBack_fetchAllInputs.
  - intros d. apply comesBack_bind; [exact IH|]. intros ds. apply comesBack_ret.
Qed.

Lemma comesBack_downloadBeaDatasets : comesBack (downloadBeaDatasets E (S fuel)).
Proof. unfold downloadBeaDatasets. back_walk. apply comesBack_buildAll. Qed.

Lemma comesBack_writeEach (filename : string) (ds : list BeaDataSet) :
  comesBack (writeEach filename ds).
Proof.
  induction ds as [|d ds IH]; cbn [writeEach]; [apply comesBack_ret|].
  apply comesBack_bind; [unfold writeDataSet; back_walk|]. intros _. exact IH.
Qed.

Lemma comesBack_rebuild (filename : string) : comesBack (rebuild E (S fuel) filename).
Proof.
  unfold rebuild. apply comesBack_bind; [apply comesBack_downloadBeaDatasets|]. intros ds.
  apply comesBack_bind.
  - unfold writeDataSetsToFile. back_walk. apply comesBack_writeEach.
  - intros _. unfold pause. back_walk.
Qed.

Lemma comesBack_recover (filename : string) (e : Exn) :
  comesBack (recover E (S fuel) filename e).
Proof.
  unfold recover.
  destruct e; try (unfold pause; back_walk; fail);
    first [apply comesBack_rebuild | apply comesBack_lift].
Qed.

(** The load comes back when it finds no cache file, or one of the
    program's own. *)
Lemma readBeaDataSets_comes_back (filename : string) (c : BeaApiClient) (w : World) :
  positiveLimits c -> ownCache w filename ->
  exists result, readBeaDataSets E (S fuel) filename (c, w) = Some result.
Proof.
  intros Hc Hown. unfold ownCache in Hown.
  destruct (files w !! filename) as [text|] eqn:Hfile.
  - destruct Hown as (ds & Hall & Hrecords).
    destruct (strptime (strip (fst (readline (split_lines (universal_newlines text))))))
      as [fileDate|e] eqn:Hdate.
    + destruct (outdated fileDate (calendar E (tick w))) eqn:Hold.
      * unfold readBeaDataSets, try_except.
        rewrite (readCache_dated E (S fuel) filename c w text fileDate Hfile Hdate), Hold.
        destruct (comesBack_rebuild filename c (pass E 0 w) Hc) as (out & c' & w' & -> & Hc').
        destruct out as [r|e]; [eauto|].
        destruct (comesBack_recover filename e c' w' Hc') as (out & c2 & w2 & -> & _).
        eauto.
      * unfold readBeaDataSets, try_except.
        rewrite (readCache_catalog E (S fuel) filename c w text fileDate ds
                   Hfile Hdate Hold Hall Hrecords).
        eauto.
    + unfold readBeaDataSets, try_except.
      rewrite (readCache_undated E (S fuel) filename c w text e Hfile Hdate).
      apply strptime_raises in Hdate. subst e.
      rewrite recover_other by reflexivity. eauto.
  - rewrite readBeaDataSets_missing by exact Hfile.
    destruct (comesBack_rebuild filename c w Hc) as (out & c' & w' & -> & _). eauto.
Qed.

End LoadComesBack.

(** X15.  With a clock that advances and a client of positive limits, one
    round of the wait loop is enough everywhere: the load comes back (with a
    catalog, [None] or an exception) whenever the cache file is missing or
    holds, after its first line, the records the program writes for a
    catalog of storable data sets; so does the start of the program, which
    builds its client with the default limits.  (Any other line of a cache
    is an expression for [eval], which may not come back.) *)
Theorem load_comes_back (E : Env) (fuel : nat) :
  (forall k, (0 < elapsed E k)%Q) ->
  (forall filename c w,
      0 < requestLimit c -> 0 < dataLimit c -> 0 < errorLimit c ->
      ownCache w filename ->
      exists result, readBeaDataSets E (S fuel) filename (c, w) = Some result)
  /\ (forall key w,
         ownCache w "beaDataSets.txt" ->
         exists result, main E (S fuel) key w = Some result).
Proof.
  intros Hclock. split.
  - intros filename c w P1 P2 P3 Hown.
    apply (readBeaDataSets_comes_back E fuel Hclock filename c w (conj P1 (conj P2 P3)) Hown).
  - intros key w Hown. unfold main, init_default, init, time_time.
    apply (readBeaDataSets_comes_back E fuel Hclock); [|exact Hown].
    unfold positiveLimits. cbn. lia.
Qed.

Lemma load_comes_back_witness :
  (exists result, readBeaDataSets nipaEnv 1 cacheName (sampleClient, world0) = Some result)
  /\ (exists result, main nipaEnv 1 "KEY" world0 = Some result).
Proof.
  destruct (load_comes_back nipaEnv 0 (fun _ => eq_refl)) as [Hload Hmain].
  split; [apply Hload; reflexivity|apply Hmain; reflexivity].
Defined.

(** *** The cache file and the exceptions *)

Lemma calm_bind {A B : Type} (m : IO A) (k : A -> IO B) :
  calm m -> (forall a, calm (k a)) -> calm (m ≫= k).
Proof.
  intros Hm Hk st out st' H. unfold mbind, IO_bind in H.
  destruct (m st) as [[[a|e] st1]|] eqn:Hmc; [| |discriminate].
  - eapply Hk, H.
  - injection H as <- <-. apply Hm in Hmc. intros e0 He. apply Hmc. congruence.
Qed.

Lemma calm_tame {A : Type} (m : IO A) : tame m -> calm m.
Proof. intros Hm [c w] out [c' w'] H. apply Hm in H. tauto. Qed.

Lemma calm_ret {A : Type} (a : A) : calm (mret a : IO A).
Proof. intros st out st' H. injection H as <- <-. quiet_now. Qed.

Lemma calm_lift {A : Type} (o : Outcome A) : quiet o -> calm (lift o).
Proof. intros Hq st out st' H. injection H as <- <-. exact Hq. Qed.

Lemma calm_world_step {A : Type} (f : World -> A * World) : calm (world_step f).
Proof.
  intros [c w] out st' H. unfold world_step in H. destruct (f w). injection H as <- <-.
  quiet_now.
Qed.

Lemma calm_open_write (filename : string) : calm (open_write filename).
Proof. intros [c w] out st' H. injection H as <- <-. quiet_now. Qed.

Lemma calm_write (filename text : string) : calm (write filename text).
Proof. intros [c w] out st' H. injection H as <- <-. quiet_now. Qed.

Lemma quiet_line_of (v : PyVal) : quiet (line_of v).
Proof. destruct v; quiet_now. Qed.

Ltac calm_walk :=
  repeat first
    [ apply calm_ret | apply calm_world_step | apply calm_open_write | apply calm_write
    | apply calm_lift; apply quiet_line_of
    | apply calm_bind; [|intros; cbv zeta] ].

Lemma calm_writeEach (filename : string) (ds : list BeaDataSet) :
  calm (writeEach filename ds).
Proof.
  induction ds as [|d ds IH]; cbn [writeEach]; [apply calm_ret|].
  apply calm_bind; [unfold writeDataSet; calm_walk|]. intros _. exact IH.
Qed.

Lemma calm_rebuild (E : Env) (fuel : nat) (filename : string) :
  calm (rebuild E fuel filename).
Proof.
  unfold rebuild. apply calm_bind; [apply calm_tame, tame_downloadBeaDatasets|]. intros ds.
  apply calm_bind.
  - unfold writeDataSetsToFile. calm_walk. apply calm_writeEach.
  - intros _. unfold pause. calm_walk.
Qed.

Lemma steadyEnv_calm (dt : Q) (server : string -> Response) (today : Date)
    (line : string) :
  calm (evaluate (steadyEnv dt server today) line).
Proof. intros st out st' H. injection H as <- <-. quiet_now. Qed.

Section CacheErrors.
Variables (E : Env) (fuel : nat).
Hypothesis evaluate_calm : forall line, calm (evaluate E line).

Lemma calm_parseList (line : string) : calm (parseList E line).
Proof.
  unfold parseList, py_eval. destruct (strip line); [apply calm_ret|].
  destruct (literal _); [apply calm_ret|apply evaluate_calm].
Qed.

Lemma calm_readBlocks (rounds : nat) : forall file acc, calm (readBlocks E rounds file acc).
Proof.
  induction rounds as [|rounds IH]; intros file acc; cbn [readBlocks]; [apply calm_ret|].
  repeat match goal with
  | |- context [readline ?f] => destruct (readline f)
  end.
  destruct (strip _); [apply calm_ret|].
  repeat (apply calm_bind; [apply calm_parseList|intros ?]).
  apply IH.
Qed.

(** With the file in place, the [try] block never raises
    [FileNotFoundError]. *)
Lemma readCache_quiet (filename : string) (c : BeaApiClient) (w : World)
    (text : string) out st' :
  files w !! filename = Some text ->
  readCache E fuel filename (c, w) = Some (out, st') -> quiet out.
Proof.
  intros Hfile H.
  destruct (strptime (strip (fst (readline (split_lines (universal_newlines text))))))
    as [fileDate|e] eqn:Hdate.
  - rewrite (readCache_dated E fuel filename c w text fileDate Hfile Hdate) in H.
    destruct (outdated _ _).
    + eapply calm_rebuild, H.
    + cbv zeta in H. revert H. apply calm_bind; [apply calm_readBlocks|].
      intros ds. unfold pause. calm_walk.
  - rewrite (readCache_undated E fuel filename c w text e Hfile Hdate) in H.
    injection H as <- <-. apply strptime_raises in Hdate. subst e. quiet_now.
Qed.

End CacheErrors.



(** The condition on the lines is needed: with a cache file of the current
    quarter in place, a line [open('nope')] raises [FileNotFoundError]
    inside the [try] block, the clause [except FileNotFoundError] rebuilds,
    and the [IndexError] of that build reaches the caller. *)
Example cache_line_reaches_the_rebuild :
  files openingWorld !! cacheName = Some openingText
  /\ exists st',
       readBeaDataSets openingEnv 1 cacheName (sampleClient, openingWorld)
       = Some (Raised IndexError, st').
Proof. split; [reflexivity|]. eexists. vm_compute. reflexivity. Qed.

(** An exception that is not an [Exception] passes both clauses. *)
Example recover_lets_through (E : Env) (fuel : nat) (filename name : string)
    (st : BeaApiClient * World) :
  recover E fuel filename (BaseError name) st = Some (Raised (BaseError name), st).
Proof. reflexivity. Qed.

(** X17.  A cache file whose first line is not a date is never repaired: the load
    returns [None] without a request and leaves the file as it is, so that
    every later load does the same. *)
Theorem undated_cache_is_never_repaired (E : Env) (fuel : nat) (filename : string)
    (c : BeaApiClient) (w : World) (text : string) (e : Exn) :
  files w !! filename = Some text ->
  strptime (strip (fst (readline (split_lines (universal_newlines text))))) = Raised e ->
  exists w',
    readBeaDataSets E fuel filename (c, w) = Some (Returned None, (c, w'))
    /\ sent w' = sent w /\ files w' = files w.
Proof.
  intros Hfile Hdate. unfold readBeaDataSets, try_except.
  rewrite (readCache_undated E fuel filename c w text e Hfile Hdate).
  apply strptime_raises in Hdate. subst e.
  rewrite recover_other by reflexivity. eexists. split; [reflexivity|]. auto.
Qed.

Lemma undated_cache_is_never_repaired_witness :
  exists w',
    readBeaDataSets nipaEnv 1 cacheName (sampleClient, undatedWorld)
    = Some (Returned None, (sampleClient, w'))
    /\ sent w' = sent undatedWorld /\ files w' = files undatedWorld.
Proof.
  apply (undated_cache_is_never_repaired nipaEnv 1 cacheName sampleClient undatedWorld
           "not a date" ValueError); vm_compute; reflexivity.
Defined.

(** X18.  Without a cache file the load is the rebuild, run outside any [try]: an
    exception of the build reaches the caller, and no file is created. *)
Theorem load_without_cache_file_is_the_rebuild (E : Env) (fuel : nat) (filename : string)
    (c : BeaApiClient) (w : World) :
  files w !! filename = None ->
  readBeaDataSets E fuel filename (c, w) = rebuild E fuel filename (c, w)
  /\ forall e c' w',
       downloadBeaDatasets E fuel (c, w) = Some (Raised e, (c', w')) ->
       readBeaDataSets E fuel filename (c, w) = Some (Raised e, (c', w'))
       /\ files w' !! filename = None.
Proof.
  intros Hfile.
  assert (Hload : readBeaDataSets E fuel filename (c, w) = rebuild E fuel filename (c, w)).
  { unfold readBeaDataSets, try_except, readCache.
    unfold mbind at 1, IO_bind at 1. unfold open_read at 1. rewrite Hfile. reflexivity. }
  split; [exact Hload|]. intros e c' w' Hb. rewrite Hload. unfold rebuild.
  unfold mbind at 1, IO_bind at 1. rewrite Hb. split; [reflexivity|].
  apply tame_downloadBeaDatasets in Hb as [-> _]. exact Hfile.
Qed.

Lemma load_without_cache_file_is_the_rebuild_witness :
  readBeaDataSets emptyInputsEnv 1 cacheName (sampleClient, world0)
  = rebuild emptyInputsEnv 1 cacheName (sampleClient, world0)
  /\ forall e c' w',
       downloadBeaDatasets emptyInputsEnv 1 (sampleClient, world0)
       = Some (Raised e, (c', w')) ->
       readBeaDataSets emptyInputsEnv 1 cacheName (sampleClient, world0)
       = Some (Raised e, (c', w'))
       /\ files w' !! cacheName = None.
Proof.
  apply (load_without_cache_file_is_the_rebuild emptyInputsEnv 1 cacheName sampleClient world0).
  reflexivity.
Defined.

(** X19.  When the cache is outdated and the build fails, the load returns [None]
    after its pause of two seconds, and the old cache file is still there,
    unchanged. *)
Theorem failed_refresh_keeps_the_old_cache (E : Env) (fuel : nat) (filename : string)
    (c : BeaApiClient) (w : World) (text : string) (fileDate : Date)
    (e : Exn) (c' : BeaApiClient) (w' : World) :
  files w !! filename = Some text ->
  strptime (strip (fst (readline (split_lines (universal_newlines text)))))
  = Returned fileDate ->
  outdated fileDate (calendar E (tick w)) = true ->
  downloadBeaDatasets E fuel (c, pass E 0 w) = Some (Raised e, (c', w')) ->
  readBeaDataSets E fuel filename (c, w) = Some (Returned None, (c', time_sleep E 2 w'))
  /\ files (time_sleep E 2 w') !! filename = Some text.
Proof.
  intros Hfile Hdate Hold Hb. unfold readBeaDataSets, try_except.
  rewrite (readCache_dated E fuel filename c w text fileDate Hfile Hdate), Hold.
  unfold rebuild. unfold mbind at 1, IO_bind at 1. rewrite Hb.
  apply tame_downloadBeaDatasets in Hb as [Hf Hq].
  rewrite recover_other by (apply Hq; reflexivity).
  split; [reflexivity|]. cbn [time_sleep pass files]. rewrite Hf. exact Hfile.
Qed.

Lemma failed_refresh_keeps_the_old_cache_witness :
  exists c' w',
    downloadBeaDatasets emptyInputsEnv 1 (sampleClient, pass emptyInputsEnv 0 staleWorld)
    = Some (Raised IndexError, (c', w'))
    /\ readBeaDataSets emptyInputsEnv 1 cacheName (sampleClient, staleWorld)
       = Some (Returned None, (c', time_sleep emptyInputsEnv 2 w'))
    /\ files (time_sleep emptyInputsEnv 2 w') !! cacheName = Some staleText.
Proof.
  eexists _, _. split; [vm_compute; reflexivity|].
  eapply (failed_refresh_keeps_the_old_cache emptyInputsEnv 1 cacheName sampleClient
            staleWorld staleText {| year := 2024; month := 2; day := 1 |} IndexError);
    vm_compute; reflexivity.
Defined.

(** *** A write that fails *)

Lemma writeDataSet_unnamed (f cur : string) (d : BeaDataSet) (c : BeaApiClient) (w : World) :
  is_str (dataSetName d) = false ->
  writeDataSet f d (c, set_file f cur w) = Some (Raised TypeError, (c, set_file f cur w)).
Proof.
  intros Hn. unfold writeDataSet. destruct (dataSetName d); try discriminate Hn; reflexivity.
Qed.

Lemma concat_lines_app (a b : list string) :
  concat_lines (a ++ b) = concat_lines a +:+ concat_lines b.
Proof.
  induction a as [|x a IHa]; [reflexivity|].
  cbn [app concat_lines]. rewrite IHa, append_assoc. reflexivity.
Qed.

Lemma writeEach_unnamed (f : string) (good : list BeaDataSet) (bad : BeaDataSet)
    (rest : list BeaDataSet) (c : BeaApiClient) :
  forall cur w,
    Forall (fun d => textNamed d = true) good ->
    is_str (dataSetName bad) = false ->
    writeEach f (good ++ bad :: rest) (c, set_file f cur w)
    = Some (Raised TypeError,
            (c, set_file f (cur +:+ concat_lines (concat (map blockLines good))) w)).
Proof.
  induction good as [|d good IH]; intros cur w Hall Hbad.
  - cbn [app writeEach map concat concat_lines]. rewrite append_nil_r.
    unfold mbind, IO_bind. rewrite writeDataSet_unnamed by exact Hbad. reflexivity.
  - apply Forall_cons in Hall as [Hd Hall]. cbn [app writeEach].
    erewrite IO_bind_returned by (apply writeDataSet_text; exact Hd).
    rewrite IH by assumption.
    cbn [map concat]. rewrite concat_lines_app, append_assoc. reflexivity.
Qed.

(** X20.  A data set whose name is not a string stops [writeDataSetsToFile] with
    [TypeError]; the file is left with the date line and the records of the
    data sets before it. *)
Theorem failed_write_leaves_a_shorter_cache (E : Env) (filename : string)
    (good : list BeaDataSet) (bad : BeaDataSet) (rest : list BeaDataSet)
    (c : BeaApiClient) (w : World) :
  Forall (fun d => textNamed d = true) good ->
  is_str (dataSetName bad) = false ->
  exists w',
    writeDataSetsToFile E (good ++ bad :: rest) filename (c, w)
    = Some (Raised TypeError, (c, w'))
    /\ files w' !! filename = Some (fileText (calendar E (tick w)) good).
Proof.
  intros Hall Hbad. unfold writeDataSetsToFile.
  unfold mbind at 1, IO_bind at 1. unfold world_step, datetime_now at 1.
  unfold mbind at 1, IO_bind at 1. unfold open_write at 1.
  erewrite IO_bind_returned by apply write_set_file.
  rewrite writeEach_unnamed by assumption.
  eexists. split; [reflexivity|]. cbn [files set_file]. rewrite lookup_insert_eq.
  reflexivity.
Qed.

Lemma failed_write_leaves_a_shorter_cache_witness :
  exists w',
    writeDataSetsToFile nipaEnv (nipaCatalog ++ [unnamedDataSet]) cacheName
      (sampleClient, world0)
    = Some (Raised TypeError, (sampleClient, w'))
    /\ files w' !! cacheName = Some (fileText april10 nipaCatalog).
Proof.
  apply (failed_write_leaves_a_shorter_cache nipaEnv cacheName nipaCatalog unnamedDataSet []
           sampleClient world0); [repeat constructor|reflexivity].
Defined.

(** X21.  The file that [writeDataSetsToFile] leaves when it stops at a data set
    whose name is not a string passes for a cache: any later load that finds
    it and does not judge it outdated returns the data sets written before
    the failure as the whole catalog, with no request. *)
Theorem shorter_cache_is_read_as_a_catalog (E : Env) (fuel : nat) (filename : string)
    (good : list BeaDataSet) (bad : BeaDataSet) (rest : list BeaDataSet)
    (c : BeaApiClient) (w : World) (c2 : BeaApiClient) (w2 : World) :
  Forall (fun d => storable d = true) good ->
  is_str (dataSetName bad) = false ->
  validDate (calendar E (tick w)) = true ->
  exists w1,
    writeDataSetsToFile E (good ++ bad :: rest) filename (c, w)
    = Some (Raised TypeError, (c, w1))
    /\ (files w2 !! filename = files w1 !! filename ->
        outdated (calendar E (tick w)) (calendar E (tick w2)) = false ->
        exists w3,
          readBeaDataSets E fuel filename (c2, w2) = Some (Returned (Some good), (c2, w3))
          /\ sent w3 = sent w2).
Proof.
  intros Hall Hbad Hv.
  assert (Hnamed : Forall (fun d => textNamed d = true) good).
  { eapply Forall_impl; [exact Hall|]. apply storable_textNamed. }
  set (date := calendar E (tick w)) in *.
  exists (set_file filename (fileText date good) (pass E 0 w)). split.
  { unfold writeDataSetsToFile.
    unfold mbind at 1, IO_bind at 1. unfold world_step, datetime_now at 1.
    unfold mbind at 1, IO_bind at 1. unfold open_write at 1.
    erewrite IO_bind_returned by apply write_set_file.
    rewrite writeEach_unnamed by assumption. reflexivity. }
  cbn [files set_file]. rewrite lookup_insert_eq. intros Hfile Hfresh.
  pose proof (fileText_lines date good Hv Hall) as Hlines.
  assert (Hdate : strptime (strip (fst (readline (split_lines
                    (universal_newlines (fileText date good)))))) = Returned date).
  { rewrite Hlines. cbn [readline fst].
    destruct (strftime_line date Hv) as [_ ->]. apply strptime_strftime, Hv. }
  pose proof (readCache_dated E fuel filename c2 w2 _ date Hfile Hdate) as Hread.
  rewrite Hfresh, Hlines in Hread. cbn [readline snd] in Hread. cbv zeta in Hread.
  rewrite readBlocks_blocks in Hread by (rewrite ?length_blocks; lia || exact Hall).
  exists (time_sleep E 2 (pass E 0 w2)).
  split; [|reflexivity].
  unfold readBeaDataSets, try_except. rewrite Hread. reflexivity.
Qed.

Lemma shorter_cache_is_read_as_a_catalog_witness :
  exists w1,
    writeDataSetsToFile nipaEnv (nipaCatalog ++ [unnamedDataSet]) cacheName
      (sampleClient, world0)
    = Some (Raised TypeError, (sampleClient, w1))
    /\ exists w3,
         readBeaDataSets nipaEnv 1 cacheName (sampleClient, w1)
         = Some (Returned (Some nipaCatalog), (sampleClient, w3))
         /\ sent w3 = sent w1.
Proof.
  destruct (shorter_cache_is_read_as_a_catalog nipaEnv 1 cacheName nipaCatalog
              unnamedDataSet [] sampleClient world0 sampleClient
              (set_file cacheName (fileText april10 nipaCatalog) (pass nipaEnv 0 world0))
              ltac:(repeat constructor) ltac:(reflexivity) ltac:(vm_compute; reflexivity))
    as (w1 & Hw & Hr).
  exists w1. split; [exact Hw|].
  assert (Hw1 : w1 = set_file cacheName (fileText april10 nipaCatalog) (pass nipaEnv 0 world0)).
  { assert (Hx : writeDataSetsToFile nipaEnv (nipaCatalog ++ [unnamedDataSet]) cacheName
                   (sampleClient, world0)
                 = Some (Raised TypeError,
                         (sampleClient,
                          set_file cacheName (fileText april10 nipaCatalog)
                            (pass nipaEnv 0 world0))))
      by (vm_compute; reflexivity).
    rewrite Hx in Hw. injection Hw as <-. reflexivity. }
  rewrite <- Hw1 in Hr. apply Hr; [reflexivity|vm_compute; reflexivity].
Defined.

(** *** A record that is cut short *)

Lemma strip_empty : strip "" = ""%string.
Proof. reflexivity. Qed.

(** X22.  A record cut off after its name line is not rejected: the read loop
    completes it with an empty description and eight empty lists, and
    nothing is evaluated. *)
Theorem record_cut_after_its_name (E : Env) (rounds : nat) (line : string)
    (dataSetObjects : list BeaDataSet) (st : BeaApiClient * World) :
  strip line <> ""%string ->
  readBlocks E (S rounds) [line] dataSetObjects st
  = Some (Returned (dataSetObjects ++ [newBeaDataSet (PStr (strip line)) (PStr "")]), st).
Proof.
  intros Hname. cbn [readBlocks readline].
  destruct (strip line) as [|a name] eqn:Hs; [congruence|].
  unfold parseList. rewrite strip_empty.
  destruct rounds; reflexivity.
Qed.

Lemma record_cut_after_its_name_witness :
  readBlocks nipaEnv 1 ["NIPA" +:+ nl] [] (sampleClient, world0)
  = Some (Returned [newBeaDataSet (PStr "NIPA") (PStr "")], (sampleClient, world0)).
Proof.
  apply (record_cut_after_its_name nipaEnv 0 ("NIPA" +:+ nl) [] (sampleClient, world0)).
  vm_compute. discriminate.
Defined.

(** *** The quarter of a date *)

(** X23.  [getFiscalQuarter] is [(month + 2) // 3]: from 1 for January, February
    and March to 4 for October, November and December. *)
Theorem fiscal_quarter_of_month (date : Date) :
  getFiscalQuarter date = (month date + 2) / 3
  /\ (1 <= month date <= 12 -> 1 <= getFiscalQuarter date <= 4).
Proof.
  assert (H : getFiscalQuarter date = (month date + 2) / 3).
  { unfold getFiscalQuarter, Qceiling, Qfloor, Qdiv, Qmult, Qinv, Qopp, inject_Z.
    cbn [Qnum Qden]. change (Z.pos (1 * 3)) with 3. rewrite Z.mul_1_r.
    pose proof (Z.div_mod (- month date) 3 ltac:(lia)).
    pose proof (Z.mod_pos_bound (- month date) 3 ltac:(lia)).
    pose proof (Z.div_mod (month date + 2) 3 ltac:(lia)).
    pose proof (Z.mod_pos_bound (month date + 2) 3 ltac:(lia)).
    lia. }
  split; [exact H|]. intros Hm. rewrite H.
  pose proof (Z.div_mod (month date + 2) 3 ltac:(lia)).
  pose proof (Z.mod_pos_bound (month date + 2) 3 ltac:(lia)).
  lia.
Qed.

(** *** The lines of the data set table *)

Lemma length_spaces (n : nat) : String.length (spaces n) = n.
Proof. induction n as [|n IH]; [reflexivity|]. cbn. rewrite IH. reflexivity. Qed.

Lemma length_ljust (s : string) (width : Z) :
  Z.of_nat (String.length (ljust s width)) = Z.max (Z.of_nat (String.length s)) width.
Proof. unfold ljust. rewrite length_append, length_spaces. lia. Qed.

(** X24.  A line of the data set table is never narrower than the terminal, and is
    exactly as wide when the name with its leading space fits the data set
    column and the description fits the rest: nothing is ever cut. *)
Theorem table_line_width (dataset description : PyVal) (terminalWidth datasetColumnWidth : Z) :
  let line := formatDataSetTableLine dataset description terminalWidth datasetColumnWidth in
  let width := Z.of_nat (String.length line) in
  terminalWidth <= width
  /\ (width = terminalWidth <->
      1 + Z.of_nat (String.length (py_str dataset)) <= datasetColumnWidth
      /\ Z.of_nat (String.length (py_str description))
         <= terminalWidth - datasetColumnWidth - 5).
Proof.
  intros line width. subst width line. unfold formatDataSetTableLine. cbv zeta.
  rewrite !length_append.
  pose proof (length_ljust (" " +:+ py_str dataset) datasetColumnWidth) as H1.
  pose proof (length_ljust (py_str description)
                (terminalWidth - datasetColumnWidth - Z.of_nat (String.length " | ") - 2)) as H2.
  rewrite length_append in H1.
  change (String.length " ") with 1%nat in *.
  change (String.length "*") with 1%nat in *.
  change (String.length " | ") with 3%nat in *.
  lia.
Qed.

(** *** The search for a data set *)

Lemma findDataSet_first (userInput : string) (before : list BeaDataSet) (d : BeaDataSet)
    (after : list BeaDataSet) (name : string) :
  Forall (fun b => exists n, dataSetName b = PStr n /\ strip (lower n) <> userInput) before ->
  dataSetName d = PStr name -> strip (lower name) = userInput ->
  findDataSet userInput (before ++ d :: after) = Returned (Some d).
Proof.
  intros Hbefore Hd Hname.
  induction Hbefore as [|b before (n & Hn & Hneq) _ IH]; cbn [app findDataSet].
  - rewrite Hd. cbn [str_method mbind Outcome_bind]. rewrite Hname, String.eqb_refl.
    reflexivity.
  - rewrite Hn. cbn [str_method mbind Outcome_bind].
    destruct (String.eqb userInput (strip (lower n))) eqn:Heq; [|exact IH].
    apply String.eqb_eq in Heq. congruence.
Qed.

Lemma strip_names (ds : list BeaDataSet) :
  Forall (fun d => is_str (dataSetName d) = true) ds ->
  exists names, for_each (fun d => str_method strip (dataSetName d)) ds = Returned names.
Proof.
  induction 1 as [|d ds Hd _ (names & IH)]; [eexists; reflexivity|].
  cbn [for_each]. destruct (dataSetName d); try discriminate Hd.
  cbn [str_method mbind Outcome_bind]. rewrite IH. eexists. reflexivity.
Qed.

(** X25.  [chooseDataSet] and [searchDataSetsMenu] return the first data set whose
    name equals what the user typed, letter case and surrounding white space
    aside; a later data set of the same name up to case and white space
    cannot be chosen. *)
Theorem search_returns_the_first_match (line : string) (more : list string)
    (before : list BeaDataSet) (d : BeaDataSet) (after : list BeaDataSet)
    (name : string) :
  Forall (fun b => exists n, dataSetName b = PStr n
                             /\ strip (lower n) <> strip (lower line)) before ->
  dataSetName d = PStr name ->
  strip (lower name) = strip (lower line) ->
  chooseDataSet (line :: more) (before ++ d :: after) = Returned (Some d)
  /\ (Forall (fun a => is_str (dataSetName a) = true) after ->
      searchDataSetsMenu (line :: more) (before ++ d :: after) = Returned (Some d)).
Proof.
  intros Hbefore Hd Hname.
  assert (Hloop : chooseDataSet (line :: more) (before ++ d :: after) = Returned (Some d)).
  { cbn [chooseDataSet].
    rewrite (findDataSet_first _ before d after name Hbefore Hd Hname). reflexivity. }
  split; [exact Hloop|]. intros Hafter. unfold searchDataSetsMenu.
  destruct (strip_names (before ++ d :: after)) as [names ->]; [|exact Hloop].
  apply Forall_app. split.
  - eapply Forall_impl; [exact Hbefore|]. intros b (n & -> & _). reflexivity.
  - constructor; [rewrite Hd; reflexivity|exact Hafter].
Qed.

Lemma search_returns_the_first_match_witness :
  chooseDataSet ["  NiPa "; "Regional"] twinCatalog
  = Returned (Some (newBeaDataSet (PStr "NIPA") (PStr "Standard NIPA tables")))
  /\ (Forall (fun a => is_str (dataSetName a) = true)
        [newBeaDataSet (PStr " nipa ") (PStr "Another data set")] ->
      searchDataSetsMenu ["  NiPa "; "Regional"] twinCatalog
      = Returned (Some (newBeaDataSet (PStr "NIPA") (PStr "Standard NIPA tables")))).
Proof.
  apply (search_returns_the_first_match "  NiPa " ["Regional"]
           [newBeaDataSet (PStr "Regional") (PStr "Regional data sets")]
           (newBeaDataSet (PStr "NIPA") (PStr "Standard NIPA tables"))
           [newBeaDataSet (PStr " nipa ") (PStr "Another data set")] "NIPA").
  - repeat constructor. eexists. split; [reflexivity|]. vm_compute. discriminate.
  - reflexivity.
  - vm_compute. reflexivity.
Defined.
